(** * SimpleLoan: the accounting core of the lending pool

    A shallow embedding of the Python backend
    ([utils/ray_math.py], [services/interest_rate_model.py],
    [services/interest_calculator.py], [services/oracle_service.py],
    [services/reserve_service.py], [services/debt_service.py] and the
    models they use) together with the properties of its specification.

    Conventions of the embedding.
    - Python [int] is [Z]; [//] is [Z.div] (both round towards minus
      infinity), guarded by the same zero tests as the source.
    - A function that can raise returns [result]; the exception raised
      is the one the interpreter raises at that point of the source.
    - The database session is a record of tables ([Db.t]); a request
      whose handler raises before [commit] leaves the tables untouched,
      which is what returning [Raise] without a new state expresses.
      [DebtService.liquidate] can also raise after its commit; what it
      has committed by then is given by [DebtService.liquidate_to_commit].
    - The wall clock is an argument [now] of every operation, read once
      per request; the price feed behind [OracleService.get_price] is
      an argument as well ([OracleService.t]).
    - Logger calls and the transaction coordinator (broadcast) carry no
      accounting state and are left out, except for the one log line
      whose message cannot be formatted (the last of [liquidate]). *)

From Stdlib Require Import ZArith QArith Qround Floats List String Bool Lia.
Import ListNotations.
Open Scope Z_scope.

(** ** Exceptions and the error monad *)

(** The messages of the [ValueError]s raised by the services;
    [UnknownFormatCode] is the one of the interpreter, raised when a
    string is formatted with the format code [f]. *)
Inductive message : Type :=
| SupplyAmountMustBePositive
| WithdrawAmountNegative
| UserNotFound
| ReserveNotFound
| BorrowedReserveNotFound
| NoSupplyPositions
| NoBalanceToWithdraw
| InsufficientBalance
| InsufficientReserveLiquidity
| BurnAmountIsZero
| NotEnoughATokensToBurn
| CollateralAmountMustBePositive
| BorrowAmountMustBePositive
| CannotGetCollateralPrice
| CannotGetBorrowPrice
| BorrowExceedsLTV
| InsufficientLiquidity
| DebtPositionNotFound
| PositionOwnerNotFound
| NoOutstandingDebt
| UnableToDetermineHealthFactor
| PositionIsHealthy
| RepayAmountMustBePositive
| UnknownFormatCode.

Inductive exn : Type :=
| ZeroDivisionError
| AttributeError
| ValueError (m : message).

Inductive result (A : Type) : Type :=
| Ok (a : A)
| Raise (e : exn).

Arguments Ok {A} a.
Arguments Raise {A} e.

Definition bind {A B : Type} (c : result A) (k : A -> result B) : result B :=
  match c with
  | Ok a => k a
  | Raise e => Raise e
  end.

Notation "x <- c ;; k" := (bind c (fun x => k))
  (at level 61, c at next level, right associativity).
Notation "' p <- c ;; k" := (bind c (fun x => let 'p := x in k))
  (at level 61, p pattern, c at next level, right associativity).

(** [if cond: raise e] *)
Definition raise_if (cond : bool) (e : exn) : result unit :=
  if cond then Raise e else Ok tt.

(** Truth value of an [Optional[int]]: [None] and [0] are false. *)
Definition truthy (v : option Z) : bool :=
  match v with
  | Some x => negb (x =? 0)
  | None => false
  end.

(** [v or 0] *)
Definition or_zero (v : option Z) : Z :=
  match v with
  | Some x => x
  | None => 0
  end.

(** ** utils/ray_math.py *)

Module ray_math.

Definition RAY : Z := 10 ^ 27.

Definition HALF_RAY : Z := RAY / 2.

Definition SECONDS_PER_YEAR : Z := 31536000.

Definition ray_mul (a b : Z) : Z :=
  if (a =? 0) || (b =? 0) then 0
  else (a * b + HALF_RAY) / RAY.

Definition ray_div (a b : Z) : result Z :=
  if b =? 0 then Raise ZeroDivisionError
  else
    let half_b := b / 2 in
    Ok ((a * RAY + half_b) / b).

Definition accrue_index (current_index rate_per_second time_delta : Z) : Z :=
  if time_delta =? 0 then current_index
  else
    let rate_delta := rate_per_second * time_delta in
    let growth_factor := RAY + rate_delta in
    ray_mul current_index growth_factor.

End ray_math.

Import ray_math.

(** ** services/interest_rate_model.py *)

Module InterestRateModel.

Definition SECONDS_PER_YEAR : Z := 31536000.

(** The class constants are written [int(0.02 * RAY)] and so on: a
    double-precision product truncated to an integer.  The values
    below are those integers. *)
Definition BASE_BORROW_RATE : Z := 20000000000000001811939328.
Definition OPTIMAL_UTILIZATION : Z := 800000000000000038117834752.
Definition SLOPE1 : Z := 200000000000000009529458688.
Definition SLOPE2 : Z := 1000000000000000013287555072.

Definition _to_per_second (rate_annual : Z) : result Z :=
  ray_div rate_annual SECONDS_PER_YEAR.

Definition calculate_borrow_rate_annual (utilization : Z) : result Z :=
  let u := utilization in
  let u_opt := OPTIMAL_UTILIZATION in
  let base := BASE_BORROW_RATE in
  let s1 := SLOPE1 in
  let s2 := SLOPE2 in
  if u <=? 0 then Ok base
  else if u <=? u_opt then
    ratio <- ray_div u u_opt ;;
    Ok (base + ray_mul s1 ratio)
  else
    let excess := u - u_opt in
    let denom := RAY - u_opt in
    q <- ray_div excess denom ;;
    let step2 := ray_mul s2 q in
    Ok (base + s1 + step2).

(** Returns [(liquidity_rate_per_sec, borrow_rate_per_sec)]. *)
Definition calculate_rates (total_liquidity total_borrowed reserve_factor : Z)
  : result (Z * Z) :=
  if total_liquidity <=? 0 then Ok (0, 0)
  else
    let utilization := (total_borrowed * RAY) / total_liquidity in
    borrow_rate_annual <- calculate_borrow_rate_annual utilization ;;
    borrow_rate_per_sec <- _to_per_second borrow_rate_annual ;;
    let one_minus_rf := RAY - reserve_factor in
    let liquidity_rate_per_sec :=
      ray_mul (ray_mul borrow_rate_per_sec utilization) one_minus_rf in
    Ok (liquidity_rate_per_sec, borrow_rate_per_sec).

End InterestRateModel.

(** ** services/interest_calculator.py *)

Module InterestCalculator.

(** [current_time] is [int(time.time())], here the argument [now]. *)
Definition accrue_indices
    (current_liquidity_index current_borrow_index
     liquidity_rate borrow_rate last_update_timestamp now : Z) : Z * Z :=
  let current_time := now in
  let time_delta := current_time - last_update_timestamp in
  if time_delta <=? 0 then (current_liquidity_index, current_borrow_index)
  else
    let new_liquidity_index :=
      accrue_index current_liquidity_index liquidity_rate time_delta in
    let new_borrow_index :=
      accrue_index current_borrow_index borrow_rate time_delta in
    (new_liquidity_index, new_borrow_index).

Definition calculate_atoken_amount (underlying_amount liquidity_index : Z)
  : result Z :=
  let underlying_ray := underlying_amount * RAY in
  atoken_amount <- ray_div underlying_ray liquidity_index ;;
  Ok (atoken_amount / RAY).

Definition calculate_underlying_amount (atoken_amount liquidity_index : Z) : Z :=
  let atoken_ray := atoken_amount * RAY in
  let underlying_amount := ray_mul atoken_ray liquidity_index in
  underlying_amount / RAY.

(** The class has the four static methods [accrue_indices],
    [calculate_atoken_amount], [calculate_underlying_amount] and
    [calculate_accrued_interest] and nothing else: the attribute
    [accrue_index], which [DebtService._update_borrow_index] looks up
    on an instance, does not exist, and the lookup raises
    [AttributeError] before any argument is evaluated. *)
Definition accrue_index (current_index rate_per_second time_delta : Z)
  : result Z :=
  Raise AttributeError.

End InterestCalculator.

(** ** models/ *)

Module ReserveState.

(** One row of [reserve_states]; [asset_id] is unique. *)
Record t : Type := mk {
  asset_id : string;
  total_liquidity : Z;
  total_borrowed : Z;
  liquidity_index : Z;
  variable_borrow_index : Z;
  current_liquidity_rate : Z;
  current_variable_borrow_rate : Z;
  last_update_timestamp : Z;
  reserve_factor : Z
}.

Definition set_total_liquidity (v : Z) (r : t) : t :=
  mk (asset_id r) v (total_borrowed r) (liquidity_index r)
     (variable_borrow_index r) (current_liquidity_rate r)
     (current_variable_borrow_rate r) (last_update_timestamp r)
     (reserve_factor r).

Definition set_total_borrowed (v : Z) (r : t) : t :=
  mk (asset_id r) (total_liquidity r) v (liquidity_index r)
     (variable_borrow_index r) (current_liquidity_rate r)
     (current_variable_borrow_rate r) (last_update_timestamp r)
     (reserve_factor r).

Definition set_indices (li bi ts : Z) (r : t) : t :=
  mk (asset_id r) (total_liquidity r) (total_borrowed r) li bi
     (current_liquidity_rate r) (current_variable_borrow_rate r) ts
     (reserve_factor r).

Definition set_rates (lr br : Z) (r : t) : t :=
  mk (asset_id r) (total_liquidity r) (total_borrowed r) (liquidity_index r)
     (variable_borrow_index r) lr br (last_update_timestamp r)
     (reserve_factor r).

(** [@property available_liquidity] *)
Definition available_liquidity (r : t) : Z :=
  Z.max 0 (total_liquidity r - total_borrowed r).

(** [@property utilization_rate] *)
Definition utilization_rate (r : t) : Z :=
  if total_liquidity r =? 0 then 0
  else (total_borrowed r * RAY) / total_liquidity r.

End ReserveState.

Module SupplyPosition.

Record t : Type := mk {
  id : Z;
  user_id : Z;
  asset_id : string;
  atoken_amount : Z;
  liquidity_index_at_supply : Z
}.

Definition set_atoken_amount (v : Z) (p : t) : t :=
  mk (id p) (user_id p) (asset_id p) v (liquidity_index_at_supply p).

Definition calculate_underlying_amount (self : t) (current_liquidity_index : Z)
  : result Z :=
  index_ratio <- ray_div current_liquidity_index (liquidity_index_at_supply self) ;;
  let underlying := ray_mul (atoken_amount self * RAY) index_ratio / RAY in
  Ok underlying.

End SupplyPosition.

Module DebtPosition.

Record t : Type := mk {
  id : Z;
  user_id : Z;
  borrowed_asset_id : string;
  collateral_asset_id : string;
  principal : Z;
  borrow_index_at_open : Z;
  collateral_amount : Z
}.

Definition calculate_current_debt (self : t) (current_borrow_index : Z)
  : result Z :=
  if borrow_index_at_open self =? 0 then Ok (principal self)
  else
    ratio <- ray_div current_borrow_index (borrow_index_at_open self) ;;
    Ok (ray_mul (principal self) ratio).

Definition calculate_accrued_interest (self : t) (current_borrow_index : Z)
  : result Z :=
  current_debt <- calculate_current_debt self current_borrow_index ;;
  Ok (current_debt - principal self).

End DebtPosition.

Module User.

Record t : Type := mk {
  id : Z;
  address : string;
  health_factor : option Z
}.

Definition set_health_factor (hf : option Z) (u : t) : t :=
  mk (id u) (address u) hf.

End User.

(** ** The session: tables and queries *)

Module Db.

Record t : Type := mk {
  users : list User.t;
  reserve_states : list ReserveState.t;
  supply_positions : list SupplyPosition.t;
  debt_positions : list DebtPosition.t
}.

(** Autoincrement primary key. *)
Definition next_id (ids : list Z) : Z := 1 + fold_right Z.max 0 ids.

(** [select(User).where(User.address == address)] *)
Definition user_by_address (us : list User.t) (address : string) : option User.t :=
  find (fun u => String.eqb (User.address u) address) us.

(** [session.get(User, id)] *)
Definition user_by_id (us : list User.t) (uid : Z) : option User.t :=
  find (fun u => User.id u =? uid) us.

(** [select(ReserveState).where(ReserveState.asset_id == asset_id)] *)
Definition reserve_by_asset (rs : list ReserveState.t) (asset_id : string)
  : option ReserveState.t :=
  find (fun r => String.eqb (ReserveState.asset_id r) asset_id) rs.

(** [select(DebtPosition).where(DebtPosition.id == position_id)] *)
Definition debt_by_id (ps : list DebtPosition.t) (pid : Z) : option DebtPosition.t :=
  find (fun p => DebtPosition.id p =? pid) ps.

(** [select(DebtPosition).where(DebtPosition.user_id == user.id)] *)
Definition debts_of_user (ps : list DebtPosition.t) (uid : Z) : list DebtPosition.t :=
  filter (fun p => DebtPosition.user_id p =? uid) ps.

(** [select(SupplyPosition).where(user_id == .., asset_id == ..)] *)
Definition supplies_of (ps : list SupplyPosition.t) (uid : Z) (asset_id : string)
  : list SupplyPosition.t :=
  filter (fun p => (SupplyPosition.user_id p =? uid)
                   && String.eqb (SupplyPosition.asset_id p) asset_id) ps.

(** Writing back a row that was changed in place: the row with the
    same key is replaced. *)
Fixpoint put_reserve (r : ReserveState.t) (rs : list ReserveState.t)
  : list ReserveState.t :=
  match rs with
  | [] => []
  | x :: rest =>
      if String.eqb (ReserveState.asset_id x) (ReserveState.asset_id r)
      then r :: rest
      else x :: put_reserve r rest
  end.

Fixpoint put_user (u : User.t) (us : list User.t) : list User.t :=
  match us with
  | [] => []
  | x :: rest =>
      if User.id x =? User.id u then u :: rest else x :: put_user u rest
  end.

Fixpoint put_debt (p : DebtPosition.t) (ps : list DebtPosition.t)
  : list DebtPosition.t :=
  match ps with
  | [] => []
  | x :: rest =>
      if DebtPosition.id x =? DebtPosition.id p
      then p :: rest
      else x :: put_debt p rest
  end.

Fixpoint put_supply (p : SupplyPosition.t) (ps : list SupplyPosition.t)
  : list SupplyPosition.t :=
  match ps with
  | [] => []
  | x :: rest =>
      if SupplyPosition.id x =? SupplyPosition.id p
      then p :: rest
      else x :: put_supply p rest
  end.

(** [session.delete(position)] *)
Definition delete_debt (pid : Z) (ps : list DebtPosition.t) : list DebtPosition.t :=
  filter (fun p => negb (DebtPosition.id p =? pid)) ps.

(** [_get_or_create_user]: the users table afterwards and the user. *)
Definition get_or_create_user (us : list User.t) (address : string)
  : list User.t * User.t :=
  match user_by_address us address with
  | Some u => (us, u)
  | None =>
      let u := User.mk (next_id (map User.id us)) address None in
      (us ++ [u], u)
  end.

End Db.

(** ** services/oracle_service.py *)

Module OracleService.

(** A price feed as [get_price] hands it out: the price and the age
    of its timestamp, in seconds, at the time of the call. *)
Record PriceFeed : Type := mkPriceFeed {
  price : Z;
  age : Z
}.

Definition is_stale (pf : PriceFeed) (max_age_seconds : Z) : bool :=
  age pf >? max_age_seconds.

(** The price lookup capability [get_price]: the cache and the feed
    behind it are the environment's. *)
Definition t : Type := string -> option PriceFeed.

Definition calculate_value (amount price : Z) : Z :=
  ray_mul amount price / 100000000.

Definition get_asset_value (oracle : t) (amount : Z) (asset_id : string)
  : option Z :=
  match oracle asset_id with
  | None => None
  | Some price_feed =>
      if is_stale price_feed 300 then None
      else Some (calculate_value amount (price price_feed))
  end.

(** The simulated feed of the MVP ([_SIMULATED_PRICES]), always fresh. *)
Definition simulated : t :=
  fun asset_id =>
    if String.eqb asset_id "btc_asset_id_placeholder"
    then Some (mkPriceFeed (60000 * RAY) 0)
    else if String.eqb asset_id "usdt_asset_id_placeholder"
    then Some (mkPriceFeed (1 * RAY) 0)
    else None.

End OracleService.

(** [x = result.scalar_one_or_none(); if not x: raise e] *)
Definition or_raise {A : Type} (o : option A) (e : exn) : result A :=
  match o with
  | Some a => Ok a
  | None => Raise e
  end.

(** ** services/reserve_service.py *)

Module ReserveService.

Definition get_reserve_state (db : Db.t) (asset_id : string)
  : option ReserveState.t :=
  Db.reserve_by_asset (Db.reserve_states db) asset_id.

Definition update_indices (reserve : ReserveState.t) (now : Z) : ReserveState.t :=
  let current_time := now in
  let '(new_liquidity_index, new_borrow_index) :=
    InterestCalculator.accrue_indices
      (ReserveState.liquidity_index reserve)
      (ReserveState.variable_borrow_index reserve)
      (ReserveState.current_liquidity_rate reserve)
      (ReserveState.current_variable_borrow_rate reserve)
      (ReserveState.last_update_timestamp reserve)
      now in
  ReserveState.set_indices new_liquidity_index new_borrow_index current_time reserve.

Definition _update_current_rates (reserve : ReserveState.t)
  : result ReserveState.t :=
  '(liq_rate, borrow_rate) <-
    InterestRateModel.calculate_rates
      (ReserveState.total_liquidity reserve)
      (ReserveState.total_borrowed reserve)
      (ReserveState.reserve_factor reserve) ;;
  Ok (ReserveState.set_rates liq_rate borrow_rate reserve).

Definition supply (db : Db.t) (now : Z) (user_address asset_id : string)
    (amount : Z) : result (Db.t * SupplyPosition.t) :=
  _ <- raise_if (amount <=? 0) (ValueError SupplyAmountMustBePositive) ;;
  let '(users1, user) := Db.get_or_create_user (Db.users db) user_address in
  reserve <- or_raise (get_reserve_state db asset_id) (ValueError ReserveNotFound) ;;
  let reserve := update_indices reserve now in
  atoken_amount <-
    InterestCalculator.calculate_atoken_amount
      amount (ReserveState.liquidity_index reserve) ;;
  let position :=
    SupplyPosition.mk
      (Db.next_id (map SupplyPosition.id (Db.supply_positions db)))
      (User.id user) asset_id atoken_amount
      (ReserveState.liquidity_index reserve) in
  let reserve :=
    ReserveState.set_total_liquidity
      (ReserveState.total_liquidity reserve + amount) reserve in
  reserve <- _update_current_rates reserve ;;
  Ok (Db.mk users1
            (Db.put_reserve reserve (Db.reserve_states db))
            (Db.supply_positions db ++ [position])
            (Db.debt_positions db),
      position).

(** The first loop of [withdraw]: running totals of the underlying
    value and of the aTokens of the positions. *)
Fixpoint sum_positions (positions : list SupplyPosition.t) (liquidity_index : Z)
    (total_underlying total_atokens : Z) : result (Z * Z) :=
  match positions with
  | [] => Ok (total_underlying, total_atokens)
  | pos :: rest =>
      u <- SupplyPosition.calculate_underlying_amount pos liquidity_index ;;
      sum_positions rest liquidity_index
        (total_underlying + u)
        (total_atokens + SupplyPosition.atoken_amount pos)
  end.

(** The second loop of [withdraw]: burn oldest first; returns the
    positions as they are afterwards and what is left to burn. *)
Fixpoint burn_atokens (positions : list SupplyPosition.t) (remaining_to_burn : Z)
  : list SupplyPosition.t * Z :=
  match positions with
  | [] => ([], remaining_to_burn)
  | pos :: rest =>
      if remaining_to_burn <=? 0 then (positions, remaining_to_burn)
      else
        let burn_here := Z.min (SupplyPosition.atoken_amount pos) remaining_to_burn in
        let pos' :=
          SupplyPosition.set_atoken_amount
            (SupplyPosition.atoken_amount pos - burn_here) pos in
        let '(rest', remaining') := burn_atokens rest (remaining_to_burn - burn_here) in
        (pos' :: rest', remaining')
  end.

(** Returns [(amount_withdrawn, atoken_burned, liquidity_index)]. *)
Definition withdraw (db : Db.t) (now : Z) (user_address asset_id : string)
    (amount : Z) : result (Db.t * (Z * Z * Z)) :=
  _ <- raise_if (amount <? 0) (ValueError WithdrawAmountNegative) ;;
  user <- or_raise (Db.user_by_address (Db.users db) user_address)
                   (ValueError UserNotFound) ;;
  reserve <- or_raise (get_reserve_state db asset_id) (ValueError ReserveNotFound) ;;
  let reserve := update_indices reserve now in
  let positions := Db.supplies_of (Db.supply_positions db) (User.id user) asset_id in
  _ <- raise_if (match positions with [] => true | _ => false end)
                (ValueError NoSupplyPositions) ;;
  '(total_underlying, total_atokens) <-
    sum_positions positions (ReserveState.liquidity_index reserve) 0 0 ;;
  _ <- raise_if ((total_underlying <=? 0) || (total_atokens <=? 0))
                (ValueError NoBalanceToWithdraw) ;;
  let amount_to_withdraw := if amount =? 0 then total_underlying else amount in
  _ <- raise_if (amount_to_withdraw >? total_underlying)
                (ValueError InsufficientBalance) ;;
  _ <- raise_if (ReserveState.total_liquidity reserve <? amount_to_withdraw)
                (ValueError InsufficientReserveLiquidity) ;;
  atoken_to_burn <-
    InterestCalculator.calculate_atoken_amount
      amount_to_withdraw (ReserveState.liquidity_index reserve) ;;
  _ <- raise_if (atoken_to_burn <=? 0) (ValueError BurnAmountIsZero) ;;
  let '(burned, remaining_to_burn) := burn_atokens positions atoken_to_burn in
  _ <- raise_if (remaining_to_burn >? 0) (ValueError NotEnoughATokensToBurn) ;;
  let reserve :=
    ReserveState.set_total_liquidity
      (ReserveState.total_liquidity reserve - amount_to_withdraw) reserve in
  reserve <- _update_current_rates reserve ;;
  Ok (Db.mk (Db.users db)
            (Db.put_reserve reserve (Db.reserve_states db))
            (fold_right Db.put_supply (Db.supply_positions db) burned)
            (Db.debt_positions db),
      (amount_to_withdraw, atoken_to_burn, ReserveState.liquidity_index reserve)).

End ReserveService.

(** ** services/debt_service.py *)

Module DebtService.

(** [int(0.75 * RAY)], [int(0.80 * RAY)], [int(0.05 * RAY)]. *)
Definition LTV_BTC : Z := 750000000000000078685143040.
Definition LIQUIDATION_THRESHOLD_BTC : Z := 800000000000000038117834752.
Definition LIQUIDATION_BONUS : Z := 50000000000000002382364672.

(** The dictionary [liquidate] returns ([tx_id] left out). *)
Record LiquidationResult : Type := mkLiquidationResult {
  position_id : Z;
  liquidator_address : string;
  repaid_amount : Z;
  collateral_seized : Z;
  health_factor_after : Z
}.

(** When time has passed the index is to be accrued through
    [self.interest_calculator.accrue_index], an attribute the
    calculator does not have. *)
Definition _update_borrow_index (reserve : ReserveState.t) (now : Z)
  : result ReserveState.t :=
  let time_delta := now - ReserveState.last_update_timestamp reserve in
  if time_delta >? 0 then
    new_index <-
      InterestCalculator.accrue_index
        (ReserveState.variable_borrow_index reserve)
        (ReserveState.current_variable_borrow_rate reserve)
        time_delta ;;
    Ok (ReserveState.set_indices
          (ReserveState.liquidity_index reserve) new_index now reserve)
  else Ok reserve.

Definition _get_reserve_state (reserves : list ReserveState.t) (asset_id : string)
  : option ReserveState.t :=
  Db.reserve_by_asset reserves asset_id.

(** First loop of [calculate_health_factor]. *)
Fixpoint total_collateral (oracle : OracleService.t)
    (debt_positions : list DebtPosition.t) (total_collateral_value : Z) : Z :=
  match debt_positions with
  | [] => total_collateral_value
  | position :: rest =>
      let collateral_value :=
        OracleService.get_asset_value oracle
          (DebtPosition.collateral_amount position)
          (DebtPosition.collateral_asset_id position) in
      total_collateral oracle rest
        (if truthy collateral_value
         then total_collateral_value + or_zero collateral_value
         else total_collateral_value)
  end.

(** Second loop of [calculate_health_factor]; the reserves are the
    session's objects, updated in place. *)
Fixpoint total_debt (oracle : OracleService.t) (now : Z)
    (debt_positions : list DebtPosition.t) (reserves : list ReserveState.t)
    (total_debt_value : Z) : result (list ReserveState.t * Z) :=
  match debt_positions with
  | [] => Ok (reserves, total_debt_value)
  | position :: rest =>
      match _get_reserve_state reserves (DebtPosition.borrowed_asset_id position) with
      | None => total_debt oracle now rest reserves total_debt_value
      | Some reserve =>
          reserve <- _update_borrow_index reserve now ;;
          let reserves := Db.put_reserve reserve reserves in
          current_debt <-
            DebtPosition.calculate_current_debt
              position (ReserveState.variable_borrow_index reserve) ;;
          let debt_value :=
            OracleService.get_asset_value oracle current_debt
              (DebtPosition.borrowed_asset_id position) in
          total_debt oracle now rest reserves
            (if truthy debt_value
             then total_debt_value + or_zero debt_value
             else total_debt_value)
      end
  end.

(** Returns the reserves as the computation leaves them and the
    health factor ([None]: no debt). *)
Definition calculate_health_factor (oracle : OracleService.t) (now : Z)
    (db : Db.t) (user_address : string)
  : result (list ReserveState.t * option Z) :=
  match Db.user_by_address (Db.users db) user_address with
  | None => Ok (Db.reserve_states db, None)
  | Some user =>
      let debt_positions := Db.debts_of_user (Db.debt_positions db) (User.id user) in
      match debt_positions with
      | [] => Ok (Db.reserve_states db, None)
      | _ =>
          let total_collateral_value := total_collateral oracle debt_positions 0 in
          '(reserves, total_debt_value) <-
            total_debt oracle now debt_positions (Db.reserve_states db) 0 ;;
          if total_debt_value =? 0 then Ok (reserves, None)
          else
            let weighted_collateral :=
              ray_mul total_collateral_value LIQUIDATION_THRESHOLD_BTC in
            health_factor <- ray_div weighted_collateral total_debt_value ;;
            Ok (reserves, Some health_factor)
      end
  end.

Definition get_position_health_factor (oracle : OracleService.t) (now : Z)
    (reserves : list ReserveState.t) (position : DebtPosition.t)
  : result (list ReserveState.t * option Z) :=
  match _get_reserve_state reserves (DebtPosition.borrowed_asset_id position) with
  | None => Ok (reserves, None)
  | Some reserve =>
      reserve <- _update_borrow_index reserve now ;;
      let reserves := Db.put_reserve reserve reserves in
      current_debt <-
        DebtPosition.calculate_current_debt
          position (ReserveState.variable_borrow_index reserve) ;;
      if current_debt <=? 0 then Ok (reserves, None)
      else
        let debt_value :=
          OracleService.get_asset_value oracle current_debt
            (DebtPosition.borrowed_asset_id position) in
        let collateral_value :=
          OracleService.get_asset_value oracle
            (DebtPosition.collateral_amount position)
            (DebtPosition.collateral_asset_id position) in
        if negb (truthy debt_value) || negb (truthy collateral_value)
        then Ok (reserves, None)
        else
          let weighted_collateral :=
            ray_mul (or_zero collateral_value) LIQUIDATION_THRESHOLD_BTC in
          health_factor <- ray_div weighted_collateral (or_zero debt_value) ;;
          Ok (reserves, Some health_factor)
  end.

(** [_update_user_health_factor]: the session after the cached value
    of the user is refreshed. *)
Definition _update_user_health_factor (oracle : OracleService.t) (now : Z)
    (db : Db.t) (user : User.t) : result Db.t :=
  '(reserves, health_factor) <-
    calculate_health_factor oracle now db (User.address user) ;;
  Ok (Db.mk (Db.put_user (User.set_health_factor health_factor user) (Db.users db))
            reserves
            (Db.supply_positions db)
            (Db.debt_positions db)).

Definition borrow (oracle : OracleService.t) (now : Z) (db : Db.t)
    (user_address collateral_asset_id : string) (collateral_amount : Z)
    (borrow_asset_id : string) (borrow_amount : Z)
  : result (Db.t * DebtPosition.t) :=
  _ <- raise_if (collateral_amount <=? 0) (ValueError CollateralAmountMustBePositive) ;;
  _ <- raise_if (borrow_amount <=? 0) (ValueError BorrowAmountMustBePositive) ;;
  let '(users1, user) := Db.get_or_create_user (Db.users db) user_address in
  let collateral_value :=
    OracleService.get_asset_value oracle collateral_amount collateral_asset_id in
  _ <- raise_if (negb (truthy collateral_value)) (ValueError CannotGetCollateralPrice) ;;
  let borrow_value :=
    OracleService.get_asset_value oracle borrow_amount borrow_asset_id in
  _ <- raise_if (negb (truthy borrow_value)) (ValueError CannotGetBorrowPrice) ;;
  let max_borrow_value := ray_mul (or_zero collateral_value) LTV_BTC in
  _ <- raise_if (or_zero borrow_value >? max_borrow_value) (ValueError BorrowExceedsLTV) ;;
  reserve <- or_raise (_get_reserve_state (Db.reserve_states db) borrow_asset_id)
                      (ValueError ReserveNotFound) ;;
  _ <- raise_if (ReserveState.total_liquidity reserve <? borrow_amount)
                (ValueError InsufficientLiquidity) ;;
  reserve <- _update_borrow_index reserve now ;;
  let position :=
    DebtPosition.mk
      (Db.next_id (map DebtPosition.id (Db.debt_positions db)))
      (User.id user) borrow_asset_id collateral_asset_id
      borrow_amount (ReserveState.variable_borrow_index reserve)
      collateral_amount in
  let reserve :=
    ReserveState.set_total_borrowed
      (ReserveState.total_borrowed reserve + borrow_amount) reserve in
  let reserve :=
    ReserveState.set_total_liquidity
      (ReserveState.total_liquidity reserve - borrow_amount) reserve in
  let db1 :=
    Db.mk users1
          (Db.put_reserve reserve (Db.reserve_states db))
          (Db.supply_positions db)
          (Db.debt_positions db ++ [position]) in
  db2 <- _update_user_health_factor oracle now db1 user ;;
  Ok (db2, position).

(** [if repay_amount is None or repay_amount <= 0 or
    repay_amount > current_debt: repay_amount = current_debt] *)
Definition effective_repay (repay_amount : option Z) (current_debt : Z) : Z :=
  match repay_amount with
  | None => current_debt
  | Some r => if (r <=? 0) || (r >? current_debt) then current_debt else r
  end.

(** [liquidate] as far as [await self.session.commit()]: the session
    that is committed, the owner of the position, the amount repaid
    and the collateral seized. *)
Definition liquidate_to_commit (oracle : OracleService.t) (now : Z) (db : Db.t)
    (liquidator_address : string) (position_id : Z) (repay_amount : option Z)
  : result (Db.t * User.t * Z * Z) :=
  position <- or_raise (Db.debt_by_id (Db.debt_positions db) position_id)
                       (ValueError DebtPositionNotFound) ;;
  user <- or_raise (Db.user_by_id (Db.users db) (DebtPosition.user_id position))
                   (ValueError PositionOwnerNotFound) ;;
  reserve <- or_raise (_get_reserve_state (Db.reserve_states db)
                         (DebtPosition.borrowed_asset_id position))
                      (ValueError BorrowedReserveNotFound) ;;
  reserve <- _update_borrow_index reserve now ;;
  let reserves := Db.put_reserve reserve (Db.reserve_states db) in
  current_debt <-
    DebtPosition.calculate_current_debt
      position (ReserveState.variable_borrow_index reserve) ;;
  _ <- raise_if (current_debt <=? 0) (ValueError NoOutstandingDebt) ;;
  '(reserves, health_factor) <-
    get_position_health_factor oracle now reserves position ;;
  health_factor <- or_raise health_factor (ValueError UnableToDetermineHealthFactor) ;;
  _ <- raise_if (health_factor >=? RAY) (ValueError PositionIsHealthy) ;;
  (* [reserve] is the object the health factor computation updated *)
  let reserve :=
    match _get_reserve_state reserves (DebtPosition.borrowed_asset_id position) with
    | Some r => r
    | None => reserve
    end in
  let repay_amount := effective_repay repay_amount current_debt in
  _ <- raise_if (repay_amount <=? 0) (ValueError RepayAmountMustBePositive) ;;
  let collateral_base :=
    (DebtPosition.collateral_amount position * repay_amount) / current_debt in
  let bonus_collateral := (collateral_base * LIQUIDATION_BONUS) / RAY in
  let collateral_to_seize :=
    Z.min (DebtPosition.collateral_amount position)
          (collateral_base + bonus_collateral) in
  let remaining_debt := current_debt - repay_amount in
  let is_full_liquidation := remaining_debt <=? 0 in
  let reserve :=
    ReserveState.set_total_borrowed
      (Z.max 0 (ReserveState.total_borrowed reserve - repay_amount)) reserve in
  let reserve :=
    ReserveState.set_total_liquidity
      (ReserveState.total_liquidity reserve + repay_amount) reserve in
  let reserves := Db.put_reserve reserve reserves in
  let collateral_to_seize :=
    if is_full_liquidation then DebtPosition.collateral_amount position
    else collateral_to_seize in
  let debt_positions :=
    if is_full_liquidation
    then Db.delete_debt (DebtPosition.id position) (Db.debt_positions db)
    else
      Db.put_debt
        (DebtPosition.mk
           (DebtPosition.id position) (DebtPosition.user_id position)
           (DebtPosition.borrowed_asset_id position)
           (DebtPosition.collateral_asset_id position)
           remaining_debt
           (ReserveState.variable_borrow_index reserve)
           (DebtPosition.collateral_amount position - collateral_to_seize))
        (Db.debt_positions db) in
  let db1 := Db.mk (Db.users db) reserves (Db.supply_positions db) debt_positions in
  db2 <- _update_user_health_factor oracle now db1 user ;;
  (* flush; commit *)
  Ok (db2, user, repay_amount, collateral_to_seize).

(** [liquidate].  After the commit the health factor of the owner is
    computed once more and logged with
    [{new_health_factor/RAY if new_health_factor else 'N/A':.4f}]:
    when it is [None] or [0] the string ['N/A'] meets the format code
    [f] and the interpreter raises [ValueError], the liquidation
    being committed already. *)
Definition liquidate (oracle : OracleService.t) (now : Z) (db : Db.t)
    (liquidator_address : string) (position_id : Z) (repay_amount : option Z)
  : result (Db.t * LiquidationResult) :=
  '(db2, user, repay_amount, collateral_to_seize) <-
    liquidate_to_commit oracle now db liquidator_address position_id repay_amount ;;
  '(_, new_health_factor) <-
    calculate_health_factor oracle now db2 (User.address user) ;;
  _ <- raise_if (negb (truthy new_health_factor)) (ValueError UnknownFormatCode) ;;
  Ok (db2,
      mkLiquidationResult position_id liquidator_address repay_amount
        collateral_to_seize (or_zero new_health_factor)).

End DebtService.

(** ** Python floats *)

(** [float(z)] for an integer: the nearest double, ties to even. *)
Definition float_of_int (z : Z) : float :=
  SF2Prim (binary_normalize prec emax z 0 false).

(** [int(f)] for a finite float: truncation towards zero. *)
Definition int_of_float (f : float) : Z :=
  match Prim2SF f with
  | S754_finite s m e =>
      let v := if 0 <=? e then Z.pos m * 2 ^ e else Z.pos m / 2 ^ (- e) in
      if s then - v else v
  | _ => 0
  end.

(** [int(x * RAY)] as the class constants are written. *)
Definition int_of_fraction (x : float) : Z :=
  int_of_float (x * float_of_int RAY)%float.

(** ** Vocabulary of the specification *)

(** Rounding a rational to the nearest integer, ties upwards:
    [floor (x + 1/2)]. *)
Definition round_half_up (x : Q) : Z := Qfloor (x + (1 # 2))%Q.

(** The quotient [n / d] of two integers as a rational. *)
Definition ratio (n d : Z) : Q := (inject_Z n / inject_Z d)%Q.

(** The computation [c] returns, and its value satisfies [P]. *)
Definition returns {A : Type} (c : result A) (P : A -> Prop) : Prop :=
  match c with
  | Ok a => P a
  | Raise _ => False
  end.

(** The shares held by a list of supply positions. *)
Definition sum_atokens (positions : list SupplyPosition.t) : Z :=
  fold_right (fun p acc => SupplyPosition.atoken_amount p + acc) 0 positions.

(** A supply position as [supply] creates it on a reserve whose
    liquidity index started at [RAY]: shares are not negative and the
    index recorded at supply time is at least [RAY]. *)
Definition supplied (p : SupplyPosition.t) : Prop :=
  0 <= SupplyPosition.atoken_amount p
  /\ RAY <= SupplyPosition.liquidity_index_at_supply p.

(** A sequence of index accruals on a reserve, at the given times. *)
Definition accruals (reserve : ReserveState.t) (times : list Z) : ReserveState.t :=
  fold_left ReserveService.update_indices times reserve.

(** The conditions under which a reserve accrues: indices and rates
    are not negative. *)
Definition accruing (r : ReserveState.t) : Prop :=
  0 <= ReserveState.liquidity_index r
  /\ 0 <= ReserveState.variable_borrow_index r
  /\ 0 <= ReserveState.current_liquidity_rate r
  /\ 0 <= ReserveState.current_variable_borrow_rate r.

(** No reserve has a timestamp in the past. *)
Definition up_to_date (now : Z) (rs : list ReserveState.t) : Prop :=
  Forall (fun r => now <= ReserveState.last_update_timestamp r) rs.

(** Solvency of a reserve. *)
Definition solvent (r : ReserveState.t) : Prop :=
  ReserveState.total_borrowed r <= ReserveState.total_liquidity r.


(** The four operations on the pool, each with the time of the request
    and, where prices are looked up, the feed at that time. *)
Inductive operation : Type :=
| Supply (now : Z) (user_address asset_id : string) (amount : Z)
| Withdraw (now : Z) (user_address asset_id : string) (amount : Z)
| Borrow (oracle : OracleService.t) (now : Z)
    (user_address collateral_asset_id : string) (collateral_amount : Z)
    (borrow_asset_id : string) (borrow_amount : Z)
| Liquidate (oracle : OracleService.t) (now : Z)
    (liquidator_address : string) (position_id : Z) (repay_amount : option Z).

(** One request: the committed state when the operation completes. *)
Definition perform (db : Db.t) (op : operation) : result Db.t :=
  match op with
  | Supply now user_address asset_id amount =>
      '(db', _) <- ReserveService.supply db now user_address asset_id amount ;;
      Ok db'
  | Withdraw now user_address asset_id amount =>
      '(db', _) <- ReserveService.withdraw db now user_address asset_id amount ;;
      Ok db'
  | Borrow oracle now user_address collateral_asset_id collateral_amount
           borrow_asset_id borrow_amount =>
      '(db', _) <-
        DebtService.borrow oracle now db user_address collateral_asset_id
          collateral_amount borrow_asset_id borrow_amount ;;
      Ok db'
  | Liquidate oracle now liquidator_address position_id repay_amount =>
      '(db', _) <-
        DebtService.liquidate oracle now db liquidator_address position_id
          repay_amount ;;
      Ok db'
  end.

(** A sequence of requests that all complete. *)
Fixpoint perform_all (db : Db.t) (ops : list operation) : result Db.t :=
  match ops with
  | [] => Ok db
  | op :: rest => db' <- perform db op ;; perform_all db' rest
  end.



(** ** Example states *)

(** A reserve of the borrowable asset, last updated at time [1000],
    with liquidity index [li], liquidity [liq], borrowed [bor], rates
    [lr] and [br], borrow index [RAY] and a reserve factor of 10%. *)
Definition example_reserve_at (li liq bor lr br : Z) : ReserveState.t :=
  ReserveState.mk "usdt_asset_id_placeholder" liq bor li RAY lr br 1000
                  (RAY / 10).

Definition example_reserve : Z -> Z -> Z -> Z -> ReserveState.t :=
  example_reserve_at RAY.

(** A session with the users alice (1) and bob (2), one reserve, and the
    given positions. *)
Definition example_db (reserve : ReserveState.t)
    (supplies : list SupplyPosition.t) (debts : list DebtPosition.t) : Db.t :=
  Db.mk [User.mk 1 "alice" None; User.mk 2 "bob" None] [reserve] supplies debts.

(** A fresh feed with the given prices of the two assets. *)
Definition priced (btc usdt : Z) : OracleService.t :=
  fun asset_id =>
    if String.eqb asset_id "btc_asset_id_placeholder"
    then Some (OracleService.mkPriceFeed btc 0)
    else if String.eqb asset_id "usdt_asset_id_placeholder"
    then Some (OracleService.mkPriceFeed usdt 0)
    else None.

(** A feed on which the borrowed asset has appreciated. *)
Definition underwater : OracleService.t := priced (60000 * RAY) (100000 * RAY).

(** Bob's positions: debt of 1,000,000 against 2,000,000 of collateral,
    and debt of 1,000,000 against 100,000,000 of collateral. *)
Definition unhealthy_position : DebtPosition.t :=
  DebtPosition.mk 1 2 "usdt_asset_id_placeholder" "btc_asset_id_placeholder"
                  1000000 RAY 2000000.

Definition healthy_position : DebtPosition.t :=
  DebtPosition.mk 2 2 "usdt_asset_id_placeholder" "btc_asset_id_placeholder"
                  1000000 RAY 100000000.

Definition liquidation_db : Db.t :=
  example_db (example_reserve 5000000 2000000 0 0) []
             [unhealthy_position; healthy_position].

(** A feed whose collateral price is older than the staleness limit. *)
Definition stale_btc : OracleService.t :=
  fun asset_id =>
    if String.eqb asset_id "btc_asset_id_placeholder"
    then Some (OracleService.mkPriceFeed (60000 * RAY) 301)
    else OracleService.simulated asset_id.

(** Bob owes 1,000,000,000 against 100,000,000 of collateral. *)
Definition bobs_position : DebtPosition.t :=
  DebtPosition.mk 1 2 "usdt_asset_id_placeholder" "btc_asset_id_placeholder"
                  1000000000 RAY 100000000.

Definition bobs_db : Db.t :=
  example_db (example_reserve 5000000000 1000000000 0 0) [] [bobs_position].

(** ** utils/ray_math.py, the remaining integer functions *)

Module ray_math_rest.

Definition calculate_compound_interest
    (principal rate_per_second time_delta : Z) : Z :=
  if (time_delta =? 0) || (rate_per_second =? 0) then 0
  else
    let interest := ray_mul principal (rate_per_second * time_delta) in
    interest.

Definition calculate_linear_interest
    (principal rate_per_second time_delta : Z) : Z :=
  if (time_delta =? 0) || (rate_per_second =? 0) then 0
  else ray_mul principal (rate_per_second * time_delta).

Definition ray_to_decimal (value decimals : Z) : Z :=
  if decimals >=? 27 then value * 10 ^ (decimals - 27)
  else value / 10 ^ (27 - decimals).

Definition decimal_to_ray (value decimals : Z) : Z :=
  if decimals >=? 27 then value / 10 ^ (decimals - 27)
  else value * 10 ^ (27 - decimals).

End ray_math_rest.

(** ** services/interest_calculator.py, [calculate_accrued_interest] *)

Module InterestCalculator_rest.

Definition calculate_accrued_interest (principal initial_index current_index : Z)
  : result Z :=
  if current_index <=? initial_index then Ok 0
  else
    growth_factor <- ray_div current_index initial_index ;;
    let principal_ray := principal * RAY in
    let new_amount := ray_mul principal_ray growth_factor / RAY in
    Ok (new_amount - principal).

End InterestCalculator_rest.

(** ** services/reserve_service.py, the read-only accrual *)

Module ReserveService_rest.

(** [get_reserve_state_with_accrued_interest]: the reserve objects of
    the session afterwards (the indices are assigned on the object the
    session holds; nothing is committed) and the reserve returned. *)
Definition get_reserve_state_with_accrued_interest
    (reserves : list ReserveState.t) (asset_id : string) (now : Z)
  : list ReserveState.t * option ReserveState.t :=
  match Db.reserve_by_asset reserves asset_id with
  | None => (reserves, None)
  | Some reserve =>
      let current_time := now in
      let time_delta := current_time - ReserveState.last_update_timestamp reserve in
      if time_delta >? 0 then
        let '(new_liquidity_index, new_borrow_index) :=
          InterestCalculator.accrue_indices
            (ReserveState.liquidity_index reserve)
            (ReserveState.variable_borrow_index reserve)
            (ReserveState.current_liquidity_rate reserve)
            (ReserveState.current_variable_borrow_rate reserve)
            (ReserveState.last_update_timestamp reserve)
            now in
        let reserve :=
          ReserveState.set_indices new_liquidity_index new_borrow_index
            (ReserveState.last_update_timestamp reserve) reserve in
        (Db.put_reserve reserve reserves, Some reserve)
      else (reserves, Some reserve)
  end.

End ReserveService_rest.

(** ** api/routes/positions.py *)

Module positions_route.

(** The fields of [PositionResponse] that are computed. *)
Record PositionResponse : Type := mkPositionResponse {
  position_id : Z;
  asset_id : string;
  atoken_amount : Z;
  underlying_amount : Z;
  accrued_interest : Z;
  liquidity_index_at_supply : Z;
  current_liquidity_index : Z
}.

(** The loop of [get_user_positions] over the positions of the user. *)
Fixpoint responses (now : Z) (positions : list SupplyPosition.t)
    (reserves : list ReserveState.t) (acc : list PositionResponse)
  : result (list PositionResponse) :=
  match positions with
  | [] => Ok acc
  | position :: rest =>
      let '(reserves, reserve) :=
        ReserveService_rest.get_reserve_state_with_accrued_interest
          reserves (SupplyPosition.asset_id position) now in
      match reserve with
      | None => responses now rest reserves acc
      | Some reserve =>
          underlying_amount <-
            SupplyPosition.calculate_underlying_amount position
              (ReserveState.liquidity_index reserve) ;;
          initial_amount <-
            SupplyPosition.calculate_underlying_amount position
              (SupplyPosition.liquidity_index_at_supply position) ;;
          let accrued_interest := underlying_amount - initial_amount in
          responses now rest reserves
            (acc ++ [mkPositionResponse
                       (SupplyPosition.id position)
                       (SupplyPosition.asset_id position)
                       (SupplyPosition.atoken_amount position)
                       underlying_amount accrued_interest
                       (SupplyPosition.liquidity_index_at_supply position)
                       (ReserveState.liquidity_index reserve)])
      end
  end.

(** [get_user_positions]; an exception of the loop is answered with
    status 500, here [Raise]. *)
Definition get_user_positions (db : Db.t) (now : Z) (user_address : string)
  : result (list PositionResponse) :=
  match Db.user_by_address (Db.users db) user_address with
  | None => Ok []
  | Some user =>
      let positions :=
        filter (fun p => SupplyPosition.user_id p =? User.id user)
               (Db.supply_positions db) in
      responses now positions (Db.reserve_states db) []
  end.

End positions_route.

(** ** services/debt_service.py, the sweep for liquidatable positions *)

Module DebtService_rest.

(** An entry of the list [get_liquidatable_positions] returns. *)
Record Liquidatable : Type := mkLiquidatable {
  position_id : Z;
  user_address : string;
  borrowed_asset_id : string;
  collateral_asset_id : string;
  current_debt : Z;
  collateral_amount : Z;
  health_factor : Z
}.

(** The loop of [get_liquidatable_positions]. *)
Fixpoint sweep (oracle : OracleService.t) (now : Z) (users : list User.t)
    (positions : list DebtPosition.t) (reserves : list ReserveState.t)
    (liquidatable : list Liquidatable)
  : result (list ReserveState.t * list Liquidatable) :=
  match positions with
  | [] => Ok (reserves, liquidatable)
  | position :: rest =>
      match DebtService._get_reserve_state reserves
              (DebtPosition.borrowed_asset_id position) with
      | None => sweep oracle now users rest reserves liquidatable
      | Some reserve =>
          reserve <- DebtService._update_borrow_index reserve now ;;
          let reserves := Db.put_reserve reserve reserves in
          current_debt <-
            DebtPosition.calculate_current_debt
              position (ReserveState.variable_borrow_index reserve) ;;
          if current_debt <=? 0 then sweep oracle now users rest reserves liquidatable
          else
            let debt_value :=
              OracleService.get_asset_value oracle current_debt
                (DebtPosition.borrowed_asset_id position) in
            let collateral_value :=
              OracleService.get_asset_value oracle
                (DebtPosition.collateral_amount position)
                (DebtPosition.collateral_asset_id position) in
            if negb (truthy debt_value) || negb (truthy collateral_value)
            then sweep oracle now users rest reserves liquidatable
            else
              let weighted_collateral :=
                ray_mul (or_zero collateral_value)
                        DebtService.LIQUIDATION_THRESHOLD_BTC in
              health_factor <- ray_div weighted_collateral (or_zero debt_value) ;;
              if health_factor <? RAY then
                let user := Db.user_by_id users (DebtPosition.user_id position) in
                sweep oracle now users rest reserves
                  (liquidatable ++
                   [mkLiquidatable
                      (DebtPosition.id position)
                      (match user with
                       | Some u => User.address u
                       | None => EmptyString
                       end)
                      (DebtPosition.borrowed_asset_id position)
                      (DebtPosition.collateral_asset_id position)
                      current_debt
                      (DebtPosition.collateral_amount position)
                      health_factor])
              else sweep oracle now users rest reserves liquidatable
      end
  end.

Definition get_liquidatable_positions (oracle : OracleService.t) (now : Z)
    (db : Db.t) : result (list ReserveState.t * list Liquidatable) :=
  sweep oracle now (Db.users db) (Db.debt_positions db) (Db.reserve_states db) [].

End DebtService_rest.

(** ** A Python dictionary with string keys *)

Module PyDict.

(** Entries in insertion order; every key occurs once ([wf]). *)
Definition t (V : Type) : Type := list (string * V).

Definition keys {V : Type} (d : t V) : list string := map fst d.

Definition wf {V : Type} (d : t V) : Prop := NoDup (keys d).

(** [d.get(k)] *)
Fixpoint get {V : Type} (d : t V) (k : string) : option V :=
  match d with
  | [] => None
  | (k', v) :: rest => if String.eqb k' k then Some v else get rest k
  end.

(** [k in d] *)
Definition mem {V : Type} (d : t V) (k : string) : bool :=
  match get d k with
  | Some _ => true
  | None => false
  end.

(** [d[k] = v] *)
Fixpoint set {V : Type} (d : t V) (k : string) (v : V) : t V :=
  match d with
  | [] => [(k, v)]
  | (k', v') :: rest =>
      if String.eqb k' k then (k', v) :: rest else (k', v') :: set rest k v
  end.

(** [d.pop(k, None)], the dictionary afterwards; also [del d[k]] for a
    key that is present. *)
Fixpoint pop {V : Type} (d : t V) (k : string) : t V :=
  match d with
  | [] => []
  | (k', v') :: rest =>
      if String.eqb k' k then rest else (k', v') :: pop rest k
  end.

End PyDict.

(** ** services/coordinator.py *)

Module UTXOLock.

(** [_locks]: the time each locked UTXO was locked at.  Times are
    [datetime]s, counted here in microseconds, their resolution. *)
Definition locks : Type := PyDict.t Z.

(** [_lock_timeout = timedelta(seconds=30)] *)
Definition _lock_timeout : Z := 30 * 1000000.

(** [acquire]: the registry afterwards and whether the lock was
    acquired; [now] is [datetime.utcnow()]. *)
Definition acquire (_locks : locks) (now : Z) (utxo_id : string) : locks * bool :=
  let expired :=
    map fst (filter (fun '(uid, lock_time) => now - lock_time >? _lock_timeout)
                    _locks) in
  let _locks := fold_left (fun d uid => PyDict.pop d uid) expired _locks in
  if PyDict.mem _locks utxo_id then (_locks, false)
  else (PyDict.set _locks utxo_id now, true).

Definition release (_locks : locks) (utxo_id : string) : locks :=
  PyDict.pop _locks utxo_id.

End UTXOLock.

Module CoordinatorService.

(** Truth value of a string. *)
Definition nonempty (s : string) : bool :=
  match s with
  | EmptyString => false
  | _ => true
  end.

(** [assemble_supply_transaction], as far as the lock and the UTXO id
    of the reserve go.  [reserve_utxo_id] is [reserve.utxo_id];
    [now] and [later] are the times of the two attempts to acquire;
    [broadcast] is the outcome of the broadcast (a transaction id,
    nothing, or an exception) and [commit] that of the commit which
    follows it.  Returns the lock registry afterwards,
    [reserve.utxo_id] afterwards and the value returned. *)
Definition assemble_supply_transaction (_locks : UTXOLock.locks)
    (now later : Z) (reserve_utxo_id asset_id : string)
    (broadcast : result (option string)) (commit : result unit)
  : UTXOLock.locks * string * option string :=
  let utxo_id :=
    if nonempty reserve_utxo_id then reserve_utxo_id
    else ("reserve_" ++ asset_id)%string in
  let '(_locks, acquired) := UTXOLock.acquire _locks now utxo_id in
  let '(_locks, acquired) :=
    if acquired then (_locks, true)
    else UTXOLock.acquire _locks later utxo_id in
  let '(reserve_utxo_id', returned) :=
    if acquired then
      match broadcast with
      | Ok (Some tx_id) =>
          if nonempty tx_id then
            match commit with
            | Ok _ => (("utxo_" ++ tx_id ++ "_0")%string, Some tx_id)
            | Raise _ => (("utxo_" ++ tx_id ++ "_0")%string, None)
            end
          else (reserve_utxo_id, Some tx_id)
      | Ok None => (reserve_utxo_id, None)
      | Raise _ => (reserve_utxo_id, None)
      end
    else (reserve_utxo_id, None) in
  (* finally *)
  (UTXOLock.release _locks utxo_id, reserve_utxo_id', returned).

End CoordinatorService.

(** ** services/oracle_service.py, the price cache *)

Module OraclePriceCache.

(** [PriceFeed]: the price and the time it was fetched at, a
    [datetime] counted in microseconds. *)
Record PriceFeed : Type := mkPriceFeed {
  price : Z;
  timestamp : Z
}.

(** [is_stale], called at time [now]: the age in seconds, a quotient
    by [10**6], exceeds [max_age_seconds]. *)
Definition is_stale (pf : PriceFeed) (now max_age_seconds : Z) : bool :=
  now - timestamp pf >? max_age_seconds * 1000000.

Definition _cache_ttl : Z := 60.

(** [_fetch_price] over a table of prices ([_SIMULATED_PRICES]). *)
Definition _fetch_price (table : PyDict.t Z) (now : Z) (asset_id : string)
  : option PriceFeed :=
  if PyDict.mem table asset_id then
    match PyDict.get table asset_id with
    | Some p => Some (mkPriceFeed p now)
    | None => None
    end
  else None.

(** [get_price]: the cache afterwards and the feed returned. *)
Definition get_price (table : PyDict.t Z) (_price_cache : PyDict.t PriceFeed)
    (now : Z) (asset_id : string) : PyDict.t PriceFeed * option PriceFeed :=
  let fetch (_ : unit) :=
    match _fetch_price table now asset_id with
    | Some price_feed => (PyDict.set _price_cache asset_id price_feed, Some price_feed)
    | None => (_price_cache, None)
    end in
  if PyDict.mem _price_cache asset_id then
    match PyDict.get _price_cache asset_id with
    | Some cached =>
        if negb (is_stale cached now _cache_ttl) then (_price_cache, Some cached)
        else fetch tt
    | None => fetch tt
    end
  else fetch tt.

(** [get_asset_value]: the cache afterwards and the value returned.
    [now] is the time of the lookup and [now'] the time at which the
    feed it returned is tested for staleness. *)
Definition get_asset_value (table : PyDict.t Z) (_price_cache : PyDict.t PriceFeed)
    (now now' : Z) (amount : Z) (asset_id : string)
  : PyDict.t PriceFeed * option Z :=
  let '(_price_cache, price_feed) := get_price table _price_cache now asset_id in
  match price_feed with
  | None => (_price_cache, None)
  | Some price_feed =>
      if is_stale price_feed now' 300 then (_price_cache, None)
      else (_price_cache, Some (OracleService.calculate_value amount (price price_feed)))
  end.

(** [_SIMULATED_PRICES] *)
Definition _SIMULATED_PRICES : PyDict.t Z :=
  [("btc_asset_id_placeholder"%string, 60000 * RAY);
   ("usdt_asset_id_placeholder"%string, 1 * RAY)].

(** Every cached feed carries the price the table has for its asset. *)
Definition coherent (table : PyDict.t Z) (_price_cache : PyDict.t PriceFeed) : Prop :=
  forall asset_id pf,
    PyDict.get _price_cache asset_id = Some pf ->
    PyDict.get table asset_id = Some (price pf).

End OraclePriceCache.

(** ** Auxiliary notions for the properties *)

(** The quotient [ray_div] computes, for a positive divisor. *)
Definition scaled_quotient (a b : Z) : Z := (a * RAY + b / 2) / b.

(** The rate curve over arbitrary parameters. *)
Definition curve (base s1 s2 u_opt u : Z) : Z :=
  if u <=? 0 then base
  else if u <=? u_opt then base + ray_mul s1 (scaled_quotient u u_opt)
  else base + s1 + ray_mul s2 (scaled_quotient (u - u_opt) (RAY - u_opt)).


(** What [UTXOLock.acquire] leaves of an entry at time [now]: a lock
    older than the timeout is dropped. *)
Definition unexpired (now : Z) (entry : option Z) : option Z :=
  match entry with
  | Some lock_time =>
      if now - lock_time >? UTXOLock._lock_timeout then None else Some lock_time
  | None => None
  end.

(** The UTXO id [assemble_supply_transaction] locks. *)
Definition lock_key (reserve_utxo_id asset_id : string) : string :=
  if CoordinatorService.nonempty reserve_utxo_id then reserve_utxo_id
  else ("reserve_" ++ asset_id)%string.

(** The entry [get_liquidatable_positions] makes for a position, given
    its current debt and health factor. *)
Definition listing (users : list User.t) (position : DebtPosition.t)
    (current_debt health_factor : Z) : DebtService_rest.Liquidatable :=
  DebtService_rest.mkLiquidatable
    (DebtPosition.id position)
    (match Db.user_by_id users (DebtPosition.user_id position) with
     | Some u => User.address u
     | None => EmptyString
     end)
    (DebtPosition.borrowed_asset_id position)
    (DebtPosition.collateral_asset_id position)
    current_debt
    (DebtPosition.collateral_amount position)
    health_factor.

(** A position is unhealthy, with the given debt and health factor:
    its reserve exists and [get_position_health_factor] finds a
    health factor below 1. *)
Definition unhealthy (oracle : OracleService.t) (now : Z)
    (reserves : list ReserveState.t) (position : DebtPosition.t)
    (current_debt health_factor : Z) : Prop :=
  exists reserve,
    DebtService._get_reserve_state reserves
      (DebtPosition.borrowed_asset_id position) = Some reserve
    /\ DebtPosition.calculate_current_debt position
         (ReserveState.variable_borrow_index reserve) = Ok current_debt
    /\ DebtService.get_position_health_factor oracle now reserves position
       = Ok (reserves, Some health_factor)
    /\ health_factor < RAY.

(** Every debt position has its owner among the users, and ids are
    primary keys. *)
Definition debts_wf (db : Db.t) : Prop :=
  NoDup (map DebtPosition.id (Db.debt_positions db))
  /\ Forall (fun p => Db.user_by_id (Db.users db) (DebtPosition.user_id p) <> None)
            (Db.debt_positions db).

(** No price of the feed is negative. *)
Definition prices_non_negative (oracle : OracleService.t) : Prop :=
  forall asset_id price_feed,
    oracle asset_id = Some price_feed -> 0 <= OracleService.price price_feed.

(** The feed has a fresh price for the asset, but the amount is so
    small that its value rounds to nothing. *)
Definition worthless (oracle : OracleService.t) (amount : Z) (asset_id : string)
  : Prop :=
  exists price_feed,
    oracle asset_id = Some price_feed
    /\ OracleService.age price_feed <= 300
    /\ 0 <= amount * OracleService.price price_feed + HALF_RAY < 100000000 * RAY.

(** A reserve in good order: indices and rates are not negative, the
    amount borrowed is not negative and the reserve factor is a
    fraction between 0 and 1. *)
Definition in_good_order (r : ReserveState.t) : Prop :=
  accruing r
  /\ 0 <= ReserveState.total_borrowed r
  /\ 0 <= ReserveState.reserve_factor r <= RAY.

(** * Properties *)

(** ** Rounding *)

Lemma RAY_pos : 0 < RAY.
Proof. reflexivity. Qed.

Lemma round_half_up_ratio (n d : Z) :
  d <> 0 -> round_half_up (ratio n d) = (2 * n + d) / (2 * d).
Proof.
  intros Hd. unfold round_half_up, ratio.
  rewrite Zdiv_Qdiv. apply Qfloor_comp.
  rewrite inject_Z_plus, !inject_Z_mult.
  field.
  intros H. apply Hd. apply (inject_Z_injective d 0). exact H.
Qed.

Lemma half_up_div_pos (n d : Z) :
  0 < d -> (n + d / 2) / d = (2 * n + d) / (2 * d).
Proof.
  intros Hd.
  pose proof (Z.div_mod d 2 ltac:(lia)) as E2.
  pose proof (Z.mod_pos_bound d 2 ltac:(lia)) as B2.
  pose proof (Z.div_mod (n + d / 2) d ltac:(lia)) as E.
  pose proof (Z.mod_pos_bound (n + d / 2) d Hd) as B.
  apply Z.div_unique with (r := 2 * ((n + d / 2) mod d) + d mod 2).
  - left. lia.
  - lia.
Qed.

Lemma ray_mul_eq (a b : Z) : ray_mul a b = (a * b + HALF_RAY) / RAY.
Proof.
  unfold ray_mul. destruct (a =? 0) eqn:Ea; simpl.
  - apply Z.eqb_eq in Ea. subst. reflexivity.
  - destruct (b =? 0) eqn:Eb; [|reflexivity].
    apply Z.eqb_eq in Eb. subst. rewrite Z.mul_0_r. reflexivity.
Qed.

Lemma ray_mul_round_half_up (a b : Z) :
  ray_mul a b = round_half_up (ratio (a * b) RAY).
Proof.
  rewrite ray_mul_eq, round_half_up_ratio by discriminate.
  replace HALF_RAY with (RAY / 2) by reflexivity.
  apply half_up_div_pos, RAY_pos.
Qed.

Lemma ray_div_round_half_up (a b : Z) :
  0 < b -> ray_div a b = Ok (round_half_up (ratio (a * RAY) b)).
Proof.
  intros Hb. unfold ray_div.
  destruct (b =? 0) eqn:E; [apply Z.eqb_eq in E; lia|].
  rewrite round_half_up_ratio by lia.
  f_equal. apply half_up_div_pos, Hb.
Qed.

Lemma ray_div_zero (a b : Z) :
  ray_div a b = Raise ZeroDivisionError <-> b = 0.
Proof.
  unfold ray_div. destruct (b =? 0) eqn:E.
  - apply Z.eqb_eq in E. tauto.
  - apply Z.eqb_neq in E. split; [discriminate | contradiction].
Qed.

Lemma ray_div_ok (a b : Z) :
  b <> 0 -> ray_div a b = Ok ((a * RAY + b / 2) / b).
Proof.
  intros Hb. unfold ray_div.
  destruct (b =? 0) eqn:E; [apply Z.eqb_eq in E; contradiction | reflexivity].
Qed.

(** ** Class constants *)

Set Warnings "-inexact-float".

(** The integers used for the class constants are the values of the
    float products of the source. *)
Lemma class_constants :
  InterestRateModel.BASE_BORROW_RATE = int_of_fraction 0.02
  /\ InterestRateModel.OPTIMAL_UTILIZATION = int_of_fraction 0.80
  /\ InterestRateModel.SLOPE1 = int_of_fraction 0.20
  /\ InterestRateModel.SLOPE2 = int_of_fraction 1.00
  /\ DebtService.LTV_BTC = int_of_fraction 0.75
  /\ DebtService.LIQUIDATION_THRESHOLD_BTC = int_of_fraction 0.80
  /\ DebtService.LIQUIDATION_BONUS = int_of_fraction 0.05.
Proof.
  repeat split; vm_compute; reflexivity.
Qed.

Set Warnings "inexact-float".

(** ** Fixed-point primitives *)

(** C3, as the code has it: [ray_mul a b] is [a*b / S] rounded half up
    for all integers; [ray_div a b] is [a*S / b] rounded half up for
    every positive [b]; [ray_div] raises, and then the division-by-zero
    error, exactly when [b = 0]; [ray_mul] is a total function. *)
Theorem ray_mul_div_round_half_up (a b : Z) :
  ray_mul a b = round_half_up (ratio (a * b) RAY)
  /\ (0 < b -> ray_div a b = Ok (round_half_up (ratio (a * RAY) b)))
  /\ (ray_div a b = Raise ZeroDivisionError <-> b = 0)
  /\ (forall e, ray_div a b = Raise e -> b = 0).
Proof.
  split; [apply ray_mul_round_half_up|].
  split; [apply ray_div_round_half_up|].
  split; [apply ray_div_zero|].
  intros e H. destruct (Z.eq_dec b 0) as [|Hb]; [assumption|].
  rewrite ray_div_ok in H by assumption. discriminate.
Qed.

Lemma ray_mul_div_round_half_up_witness :
  ray_mul (3 * RAY) (RAY / 2) = 1500000000000000000000000000
  /\ ray_div 1 3 = Ok 333333333333333333333333333
  /\ ray_div 2 3 = Ok 666666666666666666666666667.
Proof.
  destruct (ray_mul_div_round_half_up (3 * RAY) (RAY / 2)) as [Hm _].
  destruct (ray_mul_div_round_half_up 1 3) as [_ [H1 _]].
  destruct (ray_mul_div_round_half_up 2 3) as [_ [H2 _]].
  rewrite Hm, H1, H2 by lia.
  repeat split.
Defined.

(** C3 as stated fails for a negative divisor: [2 / -3] is about
    [-0.667], the nearest integer to [2*S / -3] is [-666...667], and
    [ray_div] returns [-666...666]. *)
Lemma ray_div_negative_divisor :
  ray_div 2 (-3) = Ok (-666666666666666666666666666)
  /\ round_half_up (ratio (2 * RAY) (-3)) = -666666666666666666666666667
  /\ ray_div 2 (-3) <> Ok (round_half_up (ratio (2 * RAY) (-3))).
Proof.
  repeat split. vm_compute. discriminate.
Qed.

(** ** Interest-rate model *)

Lemma to_per_second_value (rate_annual : Z) :
  InterestRateModel._to_per_second rate_annual
  = Ok (round_half_up (ratio (rate_annual * RAY) InterestRateModel.SECONDS_PER_YEAR)).
Proof.
  unfold InterestRateModel._to_per_second.
  apply ray_div_round_half_up. reflexivity.
Qed.

(** C2, the code at a reserve with no borrowing: the annual rate is the
    base rate, about 2% of [RAY]; divided by the seconds of a year it
    is [634195839675291788]; the rate model returns that figure
    multiplied by [10^27], because [ray_div] scales its numerator by
    [RAY] and the divisor is a plain number of seconds. *)
Theorem per_second_rate_scaled_by_RAY :
  InterestRateModel.calculate_borrow_rate_annual 0
    = Ok InterestRateModel.BASE_BORROW_RATE
  /\ round_half_up (ratio InterestRateModel.BASE_BORROW_RATE
                          InterestRateModel.SECONDS_PER_YEAR)
     = 634195839675291788
  /\ InterestRateModel.calculate_rates 1000 0 0
     = Ok (0, 634195839675291787542469812278031456113647894)
  /\ RAY < 634195839675291787542469812278031456113647894.
Proof.
  repeat split.
Qed.

(** ** Current debt *)

(** C10: the current debt of a position is defined for every position
    and every borrow index; with [borrow_index_at_open = 0] it is the
    stored principal. *)
Theorem calculate_current_debt_total (p : DebtPosition.t) (current_borrow_index : Z) :
  exists d,
    DebtPosition.calculate_current_debt p current_borrow_index = Ok d
    /\ (DebtPosition.borrow_index_at_open p = 0 -> d = DebtPosition.principal p).
Proof.
  unfold DebtPosition.calculate_current_debt.
  destruct (DebtPosition.borrow_index_at_open p =? 0) eqn:E.
  - exists (DebtPosition.principal p). split; [reflexivity | trivial].
  - apply Z.eqb_neq in E. rewrite ray_div_ok by assumption. simpl.
    eexists. split; [reflexivity | intros H; contradiction].
Qed.

Lemma calculate_current_debt_total_witness :
  DebtPosition.calculate_current_debt
    (DebtPosition.mk 1 1 "usdt" "btc" 1000000 0 2000000) (3 * RAY)
  = Ok 1000000.
Proof.
  destruct (calculate_current_debt_total
              (DebtPosition.mk 1 1 "usdt" "btc" 1000000 0 2000000) (3 * RAY))
    as [d [Hd Hp]].
  rewrite Hd. f_equal. apply Hp. reflexivity.
Defined.

(** ** Index accrual *)

Lemma ray_mul_growth (index growth : Z) :
  0 <= index -> RAY <= growth -> index <= ray_mul index growth.
Proof.
  intros Hi Hg. rewrite ray_mul_eq.
  apply Z.div_le_lower_bound; [apply RAY_pos|].
  assert (0 <= HALF_RAY) by (vm_compute; discriminate).
  nia.
Qed.

Lemma accrue_index_mono (index rate time_delta : Z) :
  0 <= index -> 0 <= rate -> 0 <= time_delta ->
  index <= accrue_index index rate time_delta.
Proof.
  intros Hi Hr Ht. unfold accrue_index.
  destruct (time_delta =? 0); [lia|].
  apply ray_mul_growth; nia.
Qed.

Lemma update_indices_mono (r : ReserveState.t) (now : Z) :
  accruing r ->
  ReserveState.liquidity_index r
    <= ReserveState.liquidity_index (ReserveService.update_indices r now)
  /\ ReserveState.variable_borrow_index r
    <= ReserveState.variable_borrow_index (ReserveService.update_indices r now)
  /\ accruing (ReserveService.update_indices r now).
Proof.
  intros (Hl & Hb & Hlr & Hbr).
  unfold ReserveService.update_indices, InterestCalculator.accrue_indices, accruing.
  destruct (now - ReserveState.last_update_timestamp r <=? 0) eqn:E; simpl.
  - lia.
  - apply Z.leb_gt in E.
    pose proof (accrue_index_mono (ReserveState.liquidity_index r)
                  (ReserveState.current_liquidity_rate r)
                  (now - ReserveState.last_update_timestamp r)).
    pose proof (accrue_index_mono (ReserveState.variable_borrow_index r)
                  (ReserveState.current_variable_borrow_rate r)
                  (now - ReserveState.last_update_timestamp r)).
    lia.
Qed.

Lemma accruals_mono (times : list Z) : forall r : ReserveState.t,
  accruing r ->
  ReserveState.liquidity_index r <= ReserveState.liquidity_index (accruals r times)
  /\ ReserveState.variable_borrow_index r
     <= ReserveState.variable_borrow_index (accruals r times)
  /\ accruing (accruals r times).
Proof.
  induction times as [|now times IH]; intros r Hr; simpl.
  - repeat split; try lia; apply Hr.
  - destruct (update_indices_mono r now Hr) as (H1 & H2 & H3).
    destruct (IH _ H3) as (H4 & H5 & H6).
    unfold accruals in *. simpl. repeat split; try lia; apply H6.
Qed.

(** C9: with indices and per-second rates that are not negative, both
    indices never decrease along a sequence of accruals (whatever the
    times, so in particular for time deltas that are not negative); an
    accrual whose time delta is zero or negative returns both indices
    as they are; a second accrual at the same timestamp changes
    nothing. *)
Theorem accrual_monotone_and_idempotent (r : ReserveState.t) :
  (accruing r ->
   forall earlier later : list Z,
     ReserveState.liquidity_index (accruals r earlier)
       <= ReserveState.liquidity_index (accruals r (earlier ++ later))
     /\ ReserveState.variable_borrow_index (accruals r earlier)
       <= ReserveState.variable_borrow_index (accruals r (earlier ++ later)))
  /\ (forall li bi lr br last now, now - last <= 0 ->
        InterestCalculator.accrue_indices li bi lr br last now = (li, bi))
  /\ (forall now,
        ReserveService.update_indices (ReserveService.update_indices r now) now
        = ReserveService.update_indices r now).
Proof.
  split; [|split].
  - intros Hr earlier later. unfold accruals. rewrite fold_left_app.
    destruct (accruals_mono earlier r Hr) as (_ & _ & Hacc).
    destruct (accruals_mono later _ Hacc) as (H1 & H2 & _).
    split; assumption.
  - intros li bi lr br last now Hd. unfold InterestCalculator.accrue_indices.
    destruct (now - last <=? 0) eqn:E; [reflexivity|].
    apply Z.leb_gt in E. lia.
  - intros now. unfold ReserveService.update_indices.
    destruct (InterestCalculator.accrue_indices
                (ReserveState.liquidity_index r) _ _ _ _ now) as [li bi].
    unfold InterestCalculator.accrue_indices. simpl.
    rewrite Z.sub_diag. reflexivity.
Qed.

Lemma accrual_monotone_and_idempotent_witness :
  let r := example_reserve 5000 1000 3 7 in
  ReserveState.liquidity_index (accruals r [1100])
    <= ReserveState.liquidity_index (accruals r ([1100] ++ [1100; 1300]))
  /\ ReserveState.variable_borrow_index (accruals r [1100])
    <= ReserveState.variable_borrow_index (accruals r ([1100] ++ [1100; 1300]))
  /\ InterestCalculator.accrue_indices RAY RAY 3 7 1000 1000 = (RAY, RAY).
Proof.
  intros r.
  destruct (accrual_monotone_and_idempotent r) as (Hmono & Hzero & _).
  assert (Hr : accruing r)
    by (unfold accruing; repeat split; apply Z.leb_le; reflexivity).
  destruct (Hmono Hr [1100] [1100; 1300]) as [H1 H2].
  split; [exact H1 | split; [exact H2 | apply Hzero; lia]].
Defined.

(** ** Tables *)

Lemma bind_Ok {A B : Type} (a : A) (k : A -> result B) : bind (Ok a) k = k a.
Proof. reflexivity. Qed.

Lemma bind_inv {A B : Type} (c : result A) (k : A -> result B) (b : B) :
  bind c k = Ok b -> exists a, c = Ok a /\ k a = Ok b.
Proof.
  destruct c as [a|e]; simpl; [eauto | discriminate].
Qed.

Lemma reserve_by_asset_key rs k r :
  Db.reserve_by_asset rs k = Some r -> ReserveState.asset_id r = k.
Proof.
  unfold Db.reserve_by_asset. intros H.
  apply find_some in H. destruct H as [_ H]. apply String.eqb_eq in H. exact H.
Qed.

Lemma reserve_by_asset_put rs k r r' :
  Db.reserve_by_asset rs k = Some r ->
  ReserveState.asset_id r' = ReserveState.asset_id r ->
  Db.reserve_by_asset (Db.put_reserve r' rs) k = Some r'.
Proof.
  intros Hf Hid. pose proof (reserve_by_asset_key _ _ _ Hf) as Hk.
  unfold Db.reserve_by_asset in *.
  induction rs as [|x rs IH]; simpl in *; [discriminate|].
  rewrite Hid, Hk.
  destruct (String.eqb (ReserveState.asset_id x) k) eqn:E.
  - simpl. rewrite Hid, Hk, String.eqb_refl. reflexivity.
  - simpl. rewrite E. apply IH. exact Hf.
Qed.

Lemma put_reserve_same rs k r :
  Db.reserve_by_asset rs k = Some r -> Db.put_reserve r rs = rs.
Proof.
  intros Hf. pose proof (reserve_by_asset_key _ _ _ Hf) as Hk.
  unfold Db.reserve_by_asset in *.
  induction rs as [|x rs IH]; simpl in *; [reflexivity|].
  rewrite Hk.
  destruct (String.eqb (ReserveState.asset_id x) k) eqn:E.
  - congruence.
  - f_equal. apply IH. exact Hf.
Qed.

(** ** The rate model never raises *)

Lemma calculate_borrow_rate_annual_ok (u : Z) :
  exists rate, InterestRateModel.calculate_borrow_rate_annual u = Ok rate.
Proof.
  unfold InterestRateModel.calculate_borrow_rate_annual.
  destruct (u <=? 0); [eauto|].
  destruct (u <=? InterestRateModel.OPTIMAL_UTILIZATION).
  - rewrite ray_div_ok by discriminate. rewrite bind_Ok. eauto.
  - rewrite ray_div_ok by (vm_compute; discriminate). rewrite bind_Ok. eauto.
Qed.

Lemma calculate_rates_ok (tl tb rf : Z) :
  exists lr br, InterestRateModel.calculate_rates tl tb rf = Ok (lr, br).
Proof.
  unfold InterestRateModel.calculate_rates.
  destruct (tl <=? 0); [eauto|].
  destruct (calculate_borrow_rate_annual_ok (tb * RAY / tl)) as [rate ->].
  rewrite bind_Ok. unfold InterestRateModel._to_per_second.
  rewrite ray_div_ok by discriminate. rewrite bind_Ok. eauto.
Qed.

Lemma update_current_rates_ok (r : ReserveState.t) :
  exists lr br,
    ReserveService._update_current_rates r = Ok (ReserveState.set_rates lr br r).
Proof.
  unfold ReserveService._update_current_rates.
  destruct (calculate_rates_ok (ReserveState.total_liquidity r)
              (ReserveState.total_borrowed r) (ReserveState.reserve_factor r))
    as (lr & br & ->).
  rewrite bind_Ok. eauto.
Qed.

Lemma update_indices_frame (r : ReserveState.t) (now : Z) :
  ReserveState.asset_id (ReserveService.update_indices r now) = ReserveState.asset_id r
  /\ ReserveState.total_liquidity (ReserveService.update_indices r now)
     = ReserveState.total_liquidity r
  /\ ReserveState.total_borrowed (ReserveService.update_indices r now)
     = ReserveState.total_borrowed r.
Proof.
  unfold ReserveService.update_indices.
  destruct (InterestCalculator.accrue_indices _ _ _ _ _ _). repeat split.
Qed.

(** ** Supply *)

Lemma supply_rejects_non_positive
    (db : Db.t) (now : Z) (user_address asset_id : string) (amount : Z) :
  amount <= 0 ->
  ReserveService.supply db now user_address asset_id amount
  = Raise (ValueError SupplyAmountMustBePositive).
Proof.
  intros Ha. unfold ReserveService.supply.
  apply Z.leb_le in Ha. rewrite Ha. reflexivity.
Qed.

(** What [supply] does when it returns, and that it returns. *)
Lemma supply_returns
    (db : Db.t) (now : Z) (user_address asset_id : string) (amount : Z)
    (reserve : ReserveState.t) :
  ReserveService.get_reserve_state db asset_id = Some reserve ->
  let index :=
    ReserveState.liquidity_index (ReserveService.update_indices reserve now) in
  0 < amount -> 0 < index ->
  exists db' position reserve',
    ReserveService.supply db now user_address asset_id amount = Ok (db', position)
    /\ SupplyPosition.atoken_amount position
       = round_half_up (ratio (amount * RAY * RAY) index) / RAY
    /\ SupplyPosition.liquidity_index_at_supply position = index
    /\ In position (Db.supply_positions db')
    /\ ReserveService.get_reserve_state db' asset_id = Some reserve'
    /\ ReserveState.total_liquidity reserve'
       = ReserveState.total_liquidity reserve + amount
    /\ ReserveState.total_borrowed reserve' = ReserveState.total_borrowed reserve.
Proof.
  intros Hres index Hamt Hidx.
  unfold ReserveService.supply.
  destruct (amount <=? 0) eqn:Ea; [apply Z.leb_le in Ea; lia|].
  cbn [raise_if bind].
  destruct (Db.get_or_create_user (Db.users db) user_address) as [users1 user].
  rewrite Hres. cbn [or_raise bind].
  unfold InterestCalculator.calculate_atoken_amount.
  fold index. rewrite (ray_div_round_half_up _ index Hidx). cbn [bind].
  match goal with
  | |- context [ReserveService._update_current_rates ?r] =>
      destruct (update_current_rates_ok r) as (lr & br & ->)
  end.
  cbn [bind].
  eexists _, _, _. split; [reflexivity|].
  split; [reflexivity|]. split; [reflexivity|].
  split; [cbn [Db.supply_positions]; apply in_or_app; right; left; reflexivity|].
  unfold ReserveState.set_rates, ReserveState.set_total_liquidity.
  destruct (update_indices_frame reserve now) as (Hid & Hliq & Hbor).
  split; [|split].
  - unfold ReserveService.get_reserve_state in *. cbn [Db.reserve_states].
    apply (reserve_by_asset_put _ _ _ _ Hres).
    cbn [ReserveState.asset_id]. exact Hid.
  - cbn [ReserveState.total_liquidity]. rewrite Hliq. reflexivity.
  - cbn [ReserveState.total_borrowed]. exact Hbor.
Qed.

(** C7, as the code has it: [supply] raises when [amount <= 0]; for a
    positive amount on an existing reserve whose liquidity index after
    accrual is positive it returns, and then the position holds
    [floor (round_half_up (amount * S * S / liquidity_index) / S)]
    shares (the scaled quotient is rounded half up and then truncated
    to whole units) and the liquidity index after accrual as
    [liquidity_index_at_supply], and the reserve's [total_liquidity] has
    grown by exactly [amount]. *)
Theorem supply_mints_truncated_shares
    (db : Db.t) (now : Z) (user_address asset_id : string) (amount : Z) :
  (amount <= 0 ->
   ReserveService.supply db now user_address asset_id amount
   = Raise (ValueError SupplyAmountMustBePositive))
  /\ (forall reserve,
        ReserveService.get_reserve_state db asset_id = Some reserve ->
        let index :=
          ReserveState.liquidity_index (ReserveService.update_indices reserve now) in
        0 < amount -> 0 < index ->
        exists db' position reserve',
          ReserveService.supply db now user_address asset_id amount
          = Ok (db', position)
          /\ SupplyPosition.atoken_amount position
             = round_half_up (ratio (amount * RAY * RAY) index) / RAY
          /\ SupplyPosition.liquidity_index_at_supply position = index
          /\ In position (Db.supply_positions db')
          /\ ReserveService.get_reserve_state db' asset_id = Some reserve'
          /\ ReserveState.total_liquidity reserve'
             = ReserveState.total_liquidity reserve + amount).
Proof.
  split; [apply supply_rejects_non_positive|].
  intros reserve Hres index Hamt Hidx.
  destruct (supply_returns db now user_address asset_id amount reserve
              Hres Hamt Hidx)
    as (db' & position & reserve' & H1 & H2 & H3 & H4 & H5 & H6 & _).
  exists db', position, reserve'. repeat (split; [assumption|]). assumption.
Qed.

Lemma supply_mints_truncated_shares_witness :
  returns
    (ReserveService.supply
       (example_db (example_reserve_at (3 * RAY / 2) 5000 1000 0 0) [] [])
       1000 "alice" "usdt_asset_id_placeholder" 100)
    (fun '(db', position) =>
       SupplyPosition.atoken_amount position = 66
       /\ SupplyPosition.liquidity_index_at_supply position = 3 * RAY / 2
       /\ option_map ReserveState.total_liquidity
            (ReserveService.get_reserve_state db' "usdt_asset_id_placeholder")
          = Some 5100).
Proof.
  pose (db := example_db (example_reserve_at (3 * RAY / 2) 5000 1000 0 0) [] []).
  destruct (supply_mints_truncated_shares db 1000 "alice"
              "usdt_asset_id_placeholder" 100) as [_ H].
  destruct (H (example_reserve_at (3 * RAY / 2) 5000 1000 0 0) eq_refl
              eq_refl eq_refl)
    as (db' & position & reserve' & Hs & Ha & Hi & _ & Hr & Ht).
  fold db. rewrite Hs. unfold returns.
  rewrite Ha, Hi, Hr. cbn [option_map]. rewrite Ht.
  repeat split.
Defined.

(** C7 as stated fails: supplying 1 unit at a liquidity index of 1.5
    mints 0 shares, while [1 * S / (1.5 * S)], about 0.667, rounded
    half up is 1. *)
Lemma supply_shares_not_rounded_half_up :
  returns
    (ReserveService.supply
       (example_db (example_reserve_at (3 * RAY / 2) 5000 1000 0 0) [] [])
       1000 "alice" "usdt_asset_id_placeholder" 1)
    (fun '(_, position) =>
       SupplyPosition.liquidity_index_at_supply position = 3 * RAY / 2
       /\ SupplyPosition.atoken_amount position = 0
       /\ round_half_up (ratio (1 * RAY) (3 * RAY / 2)) = 1).
Proof.
  vm_compute. repeat split.
Qed.

(** ** Withdraw *)

Lemma underlying_bound (p : SupplyPosition.t) (L : Z) :
  supplied p -> 0 <= L ->
  exists u,
    SupplyPosition.calculate_underlying_amount p L = Ok u
    /\ 0 <= u
    /\ u * RAY <= SupplyPosition.atoken_amount p * L.
Proof.
  intros [Ha Hi] HL. pose proof RAY_pos as HR.
  unfold SupplyPosition.calculate_underlying_amount.
  set (idx := SupplyPosition.liquidity_index_at_supply p) in *.
  set (a := SupplyPosition.atoken_amount p) in *.
  rewrite ray_div_ok by lia. rewrite bind_Ok.
  set (y := (L * RAY + idx / 2) / idx).
  assert (Hy0 : 0 <= y).
  { apply Z.div_pos; [|lia].
    pose proof (Z.div_pos idx 2 ltac:(lia) ltac:(lia)). nia. }
  assert (Hy : y <= L).
  { enough (y < L + 1) by lia.
    apply Z.div_lt_upper_bound; [lia|].
    pose proof (Z.div_lt idx 2 ltac:(lia) ltac:(lia)). nia. }
  rewrite ray_mul_eq.
  replace (a * RAY * y + HALF_RAY) with (a * y * RAY + HALF_RAY) by ring.
  rewrite Z.div_add_l by lia.
  replace (HALF_RAY / RAY) with 0 by reflexivity. rewrite Z.add_0_r.
  eexists. split; [reflexivity|].
  assert (0 <= a * y) by nia.
  split.
  - apply Z.div_pos; lia.
  - pose proof (Z.mul_div_le (a * y) RAY HR). nia.
Qed.

Lemma sum_positions_bound (L : Z) (positions : list SupplyPosition.t) :
  Forall supplied positions -> 0 <= L ->
  forall tu ta, exists tu' ta',
    ReserveService.sum_positions positions L tu ta = Ok (tu', ta')
    /\ tu <= tu'
    /\ ta' = ta + sum_atokens positions
    /\ 0 <= sum_atokens positions
    /\ (tu' - tu) * RAY <= sum_atokens positions * L.
Proof.
  intros Hwf HL. induction Hwf as [|p ps Hp Hps IH]; intros tu ta.
  - exists tu, ta. simpl. repeat split; lia.
  - destruct (underlying_bound p L Hp HL) as (u & Hu & Hu0 & Hub).
    cbn [ReserveService.sum_positions sum_atokens fold_right].
    rewrite Hu, bind_Ok.
    destruct (IH (tu + u) (ta + SupplyPosition.atoken_amount p))
      as (tu' & ta' & Hs & H1 & H2 & H3 & H4).
    fold (sum_atokens ps) in *.
    exists tu', ta'. destruct Hp as [Ha _].
    repeat split; try assumption; try lia.
Qed.

Lemma burn_atokens_covered (positions : list SupplyPosition.t) :
  Forall supplied positions ->
  forall n, n <= sum_atokens positions ->
  snd (ReserveService.burn_atokens positions n) <= 0.
Proof.
  intros Hwf. induction Hwf as [|p ps Hp Hps IH]; intros n Hn.
  - simpl in *. lia.
  - cbn [ReserveService.burn_atokens].
    destruct (n <=? 0) eqn:E; [apply Z.leb_le in E; exact E|].
    apply Z.leb_gt in E.
    cbn [sum_atokens fold_right] in Hn. fold (sum_atokens ps) in Hn.
    assert (Hps0 : 0 <= sum_atokens ps).
    { clear -Hps. induction Hps as [|q qs [Hq _] _ IHq]; simpl; [lia|].
      fold (sum_atokens qs). lia. }
    destruct Hp as [Ha _].
    specialize (IH (n - Z.min (SupplyPosition.atoken_amount p) n) ltac:(lia)).
    destruct (ReserveService.burn_atokens ps
                (n - Z.min (SupplyPosition.atoken_amount p) n)) as [rest' rem'].
    exact IH.
Qed.

Lemma atoken_to_burn_bound (w A L : Z) :
  0 < L -> w * RAY <= A * L ->
  exists burn,
    InterestCalculator.calculate_atoken_amount w L = Ok burn /\ burn <= A.
Proof.
  intros HL Hw. pose proof RAY_pos as HR.
  unfold InterestCalculator.calculate_atoken_amount.
  rewrite ray_div_ok by lia. rewrite bind_Ok.
  eexists. split; [reflexivity|].
  enough ((w * RAY * RAY + L / 2) / L / RAY < A + 1) by lia.
  apply Z.div_lt_upper_bound; [lia|].
  enough ((w * RAY * RAY + L / 2) / L < A * RAY + 1) by lia.
  apply Z.div_lt_upper_bound; [lia|].
  pose proof (Z.div_lt L 2 ltac:(lia) ltac:(lia)). nia.
Qed.

(** C8, as the code has it: for a user whose positions are well
    formed, on a reserve whose indices and rates are not negative, and
    a request [amount >= 0], let [available] be the sum of the
    positions' underlying values.  Without a balance ([available <= 0])
    every request, an amount of [0] included, fails with the
    no-positions or no-balance error.  With a balance, [withdraw]
    raises the insufficient-balance error exactly when [amount] exceeds
    [available]; it raises the insufficient-liquidity error exactly
    when the balance check passes and [total_liquidity] is below the
    amount to withdraw; an amount of [0] withdraws [available].  The
    consistency error of the burn loop is never raised. *)
Theorem withdraw_checks
    (db : Db.t) (now : Z) (user_address asset_id : string) (amount : Z)
    (user : User.t) (reserve : ReserveState.t) :
  Db.user_by_address (Db.users db) user_address = Some user ->
  ReserveService.get_reserve_state db asset_id = Some reserve ->
  accruing reserve ->
  Forall supplied (Db.supplies_of (Db.supply_positions db) (User.id user) asset_id) ->
  0 <= amount ->
  let positions := Db.supplies_of (Db.supply_positions db) (User.id user) asset_id in
  let index :=
    ReserveState.liquidity_index (ReserveService.update_indices reserve now) in
  let outcome := ReserveService.withdraw db now user_address asset_id amount in
  exists available total_atokens,
    ReserveService.sum_positions positions index 0 0 = Ok (available, total_atokens)
    /\ (available <= 0 ->
        outcome = Raise (ValueError NoSupplyPositions)
        \/ outcome = Raise (ValueError NoBalanceToWithdraw))
    /\ (0 < available ->
        let amount_to_withdraw := if amount =? 0 then available else amount in
        (outcome = Raise (ValueError InsufficientBalance) <-> available < amount)
        /\ (outcome = Raise (ValueError InsufficientReserveLiquidity)
            <-> amount <= available
                /\ ReserveState.total_liquidity reserve < amount_to_withdraw)
        /\ (forall db' withdrawn burned idx,
              outcome = Ok (db', (withdrawn, burned, idx)) ->
              withdrawn = amount_to_withdraw /\ idx = index))
    /\ outcome <> Raise (ValueError NotEnoughATokensToBurn).
Proof.
  intros Huser Hres Hacc Hwf Hamt positions index outcome.
  pose proof RAY_pos as HR.
  assert (HL : 0 <= index).
  { destruct (update_indices_mono reserve now Hacc) as (H1 & _ & _).
    destruct Hacc as (H0 & _). unfold index. lia. }
  destruct (sum_positions_bound index positions Hwf HL 0 0)
    as (available & total_atokens & Hsum & Hav & Hta & HA & Hbound).
  exists available, total_atokens. split; [exact Hsum|].
  assert (Hout : outcome = ReserveService.withdraw db now user_address asset_id amount)
    by reflexivity.
  clearbody outcome.
  unfold ReserveService.withdraw in Hout.
  rewrite Huser, Hres in Hout.
  destruct (amount <? 0) eqn:Eneg; [apply Z.ltb_lt in Eneg; lia|].
  cbn [raise_if bind or_raise] in Hout.
  fold positions in Hout. fold index in Hout.
  rewrite (proj1 (proj2 (update_indices_frame reserve now))) in Hout.
  assert (Hret : ReserveState.liquidity_index
                   (ReserveService.update_indices reserve now) = index)
    by reflexivity.
  fold positions in Hwf. clearbody positions index.
  destruct positions as [|p0 ps].
  { cbn [ReserveService.sum_positions] in Hsum.
    injection Hsum as <- <-. cbn [raise_if bind] in Hout.
    split; [intros _; left; exact Hout|].
    split; [lia | rewrite Hout; discriminate]. }
  cbn [raise_if bind] in Hout. rewrite Hsum in Hout. cbn [bind] in Hout.
  set (w := if amount =? 0 then available else amount) in *.
  assert (Hw : amount = 0 /\ w = available \/ amount <> 0 /\ w = amount).
  { unfold w. destruct (amount =? 0) eqn:E;
      [apply Z.eqb_eq in E | apply Z.eqb_neq in E]; lia. }
  clearbody w.
  destruct ((available <=? 0) || (total_atokens <=? 0)) eqn:Enb;
    cbn [raise_if bind] in Hout.
  { split; [intros _; right; exact Hout|].
    split; [|rewrite Hout; discriminate].
    intros Hpos. exfalso.
    apply orb_true_iff in Enb. destruct Enb as [E|E]; apply Z.leb_le in E; nia. }
  apply orb_false_iff in Enb. destruct Enb as [E1 E2].
  apply Z.leb_gt in E1, E2.
  split; [lia|].
  destruct (w >? available) eqn:Ebal; cbn [raise_if bind] in Hout.
  { apply Z.gtb_lt in Ebal.
    split; [|rewrite Hout; discriminate].
    intros _. rewrite Hout. repeat split; try discriminate; try lia. }
  assert (Hwa : w <= available)
    by (destruct (Z.gtb_spec w available); [discriminate | lia]).
  clear Ebal.
  destruct (ReserveState.total_liquidity reserve <? w) eqn:Eliq;
    cbn [raise_if bind] in Hout.
  { apply Z.ltb_lt in Eliq.
    split; [|rewrite Hout; discriminate].
    intros _. rewrite Hout. repeat split; try discriminate; try lia. }
  apply Z.ltb_ge in Eliq.
  assert (Hidx : 0 < index) by nia.
  destruct (atoken_to_burn_bound w (sum_atokens (p0 :: ps)) index Hidx ltac:(nia))
    as (burn & Hburn & Hle).
  rewrite Hburn in Hout. cbn [bind] in Hout.
  destruct (burn <=? 0) eqn:Ezero; cbn [raise_if bind] in Hout.
  { split; [|rewrite Hout; discriminate].
    intros _. rewrite Hout. repeat split; try discriminate; try lia. }
  pose proof (burn_atokens_covered (p0 :: ps) Hwf burn Hle) as Hrem.
  destruct (ReserveService.burn_atokens (p0 :: ps) burn) as [burned remaining].
  cbn [snd] in Hrem.
  destruct (remaining >? 0) eqn:Erem;
    [apply Z.gtb_lt in Erem; lia|].
  cbn [raise_if bind] in Hout.
  match type of Hout with
  | context [ReserveService._update_current_rates ?r] =>
      destruct (update_current_rates_ok r) as (lr & br & Hrates)
  end.
  rewrite Hrates in Hout. cbn [bind] in Hout.
  split; [|rewrite Hout; discriminate].
  intros _. rewrite Hout. repeat split; try discriminate; try lia;
    match goal with
    | H : Ok _ = Ok _ |- _ => injection H; intros; subst
    end; reflexivity.
Qed.

Lemma withdraw_checks_witness :
  let db :=
    example_db (example_reserve 5000 1000 0 0)
      [SupplyPosition.mk 1 1 "usdt_asset_id_placeholder" 100 RAY;
       SupplyPosition.mk 2 1 "usdt_asset_id_placeholder" 50 RAY] [] in
  ReserveService.withdraw db 1000 "alice" "usdt_asset_id_placeholder" 200
    = Raise (ValueError InsufficientBalance)
  /\ returns (ReserveService.withdraw db 1000 "alice" "usdt_asset_id_placeholder" 0)
       (fun '(_, (withdrawn, _, _)) => withdrawn = 150)
  /\ ReserveService.withdraw db 1000 "alice" "usdt_asset_id_placeholder" 120
     <> Raise (ValueError NotEnoughATokensToBurn).
Proof.
  intros db.
  assert (Hacc : accruing (example_reserve 5000 1000 0 0))
    by (unfold accruing; repeat split; apply Z.leb_le; reflexivity).
  assert (Hwf : Forall supplied
                  (Db.supplies_of (Db.supply_positions db) 1
                     "usdt_asset_id_placeholder"))
    by (repeat constructor; apply Z.leb_le; reflexivity).
  pose proof (withdraw_checks db 1000 "alice" "usdt_asset_id_placeholder" 200
                (User.mk 1 "alice" None) (example_reserve 5000 1000 0 0)
                eq_refl eq_refl Hacc Hwf ltac:(lia)) as H200.
  pose proof (withdraw_checks db 1000 "alice" "usdt_asset_id_placeholder" 0
                (User.mk 1 "alice" None) (example_reserve 5000 1000 0 0)
                eq_refl eq_refl Hacc Hwf ltac:(lia)) as H0.
  pose proof (withdraw_checks db 1000 "alice" "usdt_asset_id_placeholder" 120
                (User.mk 1 "alice" None) (example_reserve 5000 1000 0 0)
                eq_refl eq_refl Hacc Hwf ltac:(lia)) as H120.
  cbv zeta in H200, H0, H120.
  destruct H200 as (av & ta & Hsum & _ & Hbal & _).
  destruct H0 as (av0 & ta0 & Hsum0 & _ & Hbal0 & _).
  destruct H120 as (_ & _ & _ & _ & _ & Hburn).
  vm_compute in Hsum, Hsum0.
  injection Hsum as <- <-. injection Hsum0 as <- <-.
  split; [|split].
  - apply (proj1 (Hbal ltac:(lia))). lia.
  - destruct (Hbal0 ltac:(lia)) as (_ & _ & Hok).
    destruct (ReserveService.withdraw db 1000 "alice" "usdt_asset_id_placeholder" 0)
      as [[db' [[w b] i]]|e] eqn:E.
    + apply (Hok db' w b i eq_refl).
    + vm_compute in E. discriminate E.
  - exact Hburn.
Defined.

(** C8 as stated fails for a user without a balance (here a position
    emptied by an earlier withdrawal): a request of 5 exceeds the
    available 0 and is answered with the no-balance error, not the
    insufficient-balance error; a request of 0 does not exceed the
    available 0 and fails all the same. *)
Lemma withdraw_without_balance :
  let db :=
    example_db (example_reserve 5000 1000 0 0)
      [SupplyPosition.mk 1 1 "usdt_asset_id_placeholder" 0 RAY] [] in
  ReserveService.sum_positions
    (Db.supplies_of (Db.supply_positions db) 1 "usdt_asset_id_placeholder")
    RAY 0 0 = Ok (0, 0)
  /\ ReserveService.withdraw db 1000 "alice" "usdt_asset_id_placeholder" 5
     = Raise (ValueError NoBalanceToWithdraw)
  /\ ReserveService.withdraw db 1000 "alice" "usdt_asset_id_placeholder" 5
     <> Raise (ValueError InsufficientBalance)
  /\ ReserveService.withdraw db 1000 "alice" "usdt_asset_id_placeholder" 0
     = Raise (ValueError NoBalanceToWithdraw).
Proof.
  repeat split. vm_compute. discriminate.
Qed.

(** ** Debt service: what the operations leave untouched *)

Lemma update_borrow_index_inv (r r' : ReserveState.t) (now : Z) :
  DebtService._update_borrow_index r now = Ok r' ->
  r' = r /\ now <= ReserveState.last_update_timestamp r.
Proof.
  unfold DebtService._update_borrow_index.
  destruct (now - ReserveState.last_update_timestamp r >? 0) eqn:E.
  - discriminate.
  - intros H. injection H as <-.
    destruct (Z.gtb_spec (now - ReserveState.last_update_timestamp r) 0);
      [discriminate | split; [reflexivity | lia]].
Qed.

Lemma update_borrow_index_now (r : ReserveState.t) (now : Z) :
  now <= ReserveState.last_update_timestamp r ->
  DebtService._update_borrow_index r now = Ok r.
Proof.
  intros H. unfold DebtService._update_borrow_index.
  destruct (Z.gtb_spec (now - ReserveState.last_update_timestamp r) 0);
    [lia | reflexivity].
Qed.

(** Once a second has passed since the reserve was updated, the index
    update raises: the accrual method it calls does not exist. *)
Lemma update_borrow_index_raises (r : ReserveState.t) (now : Z) :
  ReserveState.last_update_timestamp r < now ->
  DebtService._update_borrow_index r now = Raise AttributeError.
Proof.
  intros H. unfold DebtService._update_borrow_index.
  destruct (Z.gtb_spec (now - ReserveState.last_update_timestamp r) 0);
    [reflexivity | lia].
Qed.

Lemma total_debt_frame oracle now ps : forall rs t rs' t',
  DebtService.total_debt oracle now ps rs t = Ok (rs', t') -> rs' = rs.
Proof.
  induction ps as [|p ps IH]; intros rs t rs' t' H; cbn [DebtService.total_debt] in H.
  - congruence.
  - unfold DebtService._get_reserve_state in H.
    destruct (Db.reserve_by_asset rs (DebtPosition.borrowed_asset_id p))
      as [r|] eqn:Er; [|eauto].
    apply bind_inv in H. destruct H as (r' & Hu & H).
    apply update_borrow_index_inv in Hu. destruct Hu as [-> _].
    rewrite (put_reserve_same _ _ _ Er) in H.
    apply bind_inv in H. destruct H as (d & _ & H). eauto.
Qed.

Lemma get_position_health_factor_frame oracle now rs p rs' hf :
  DebtService.get_position_health_factor oracle now rs p = Ok (rs', hf) ->
  rs' = rs.
Proof.
  unfold DebtService.get_position_health_factor, DebtService._get_reserve_state.
  destruct (Db.reserve_by_asset rs (DebtPosition.borrowed_asset_id p))
    as [r|] eqn:Er; [|congruence].
  intros H. apply bind_inv in H. destruct H as (r' & Hu & H).
  apply update_borrow_index_inv in Hu. destruct Hu as [-> _].
  rewrite (put_reserve_same _ _ _ Er) in H.
  apply bind_inv in H. destruct H as (d & _ & H).
  destruct (d <=? 0); [congruence|].
  match type of H with
  | (if ?c then _ else _) = _ => destruct c; [congruence|]
  end.
  apply bind_inv in H. destruct H as (h & _ & H). congruence.
Qed.

Lemma calculate_health_factor_frame oracle now db address rs' hf :
  DebtService.calculate_health_factor oracle now db address = Ok (rs', hf) ->
  rs' = Db.reserve_states db.
Proof.
  unfold DebtService.calculate_health_factor.
  destruct (Db.user_by_address (Db.users db) address) as [u|]; [|congruence].
  destruct (Db.debts_of_user (Db.debt_positions db) (User.id u)) as [|p ps];
    [congruence|].
  intros H. apply bind_inv in H. destruct H as ([rs t] & Ht & H).
  apply total_debt_frame in Ht. subst rs.
  destruct (t =? 0); [congruence|].
  apply bind_inv in H. destruct H as (h & _ & H). congruence.
Qed.

Lemma update_user_health_factor_frame oracle now db user db' :
  DebtService._update_user_health_factor oracle now db user = Ok db' ->
  Db.reserve_states db' = Db.reserve_states db
  /\ Db.debt_positions db' = Db.debt_positions db
  /\ Db.supply_positions db' = Db.supply_positions db.
Proof.
  unfold DebtService._update_user_health_factor.
  intros H. apply bind_inv in H. destruct H as ([rs hf] & Hc & H).
  apply calculate_health_factor_frame in Hc. subst rs.
  injection H as <-. repeat split.
Qed.

Lemma debt_by_id_key ps pid p :
  Db.debt_by_id ps pid = Some p -> DebtPosition.id p = pid.
Proof.
  unfold Db.debt_by_id. intros H. apply find_some in H.
  destruct H as [_ H]. apply Z.eqb_eq in H. exact H.
Qed.

Lemma debt_by_id_put ps pid p p' :
  Db.debt_by_id ps pid = Some p ->
  DebtPosition.id p' = pid ->
  Db.debt_by_id (Db.put_debt p' ps) pid = Some p'.
Proof.
  intros Hf Hid. unfold Db.debt_by_id in *.
  induction ps as [|x ps IH]; simpl in *; [discriminate|].
  rewrite Hid.
  destruct (DebtPosition.id x =? pid) eqn:E.
  - simpl. rewrite Hid, Z.eqb_refl. reflexivity.
  - simpl. rewrite E. apply IH. exact Hf.
Qed.

Lemma debt_by_id_delete ps pid :
  Db.debt_by_id (Db.delete_debt pid ps) pid = None.
Proof.
  unfold Db.debt_by_id, Db.delete_debt.
  induction ps as [|x ps IH]; simpl; [reflexivity|].
  destruct (DebtPosition.id x =? pid) eqn:E; simpl; [exact IH|].
  rewrite E. exact IH.
Qed.

(** ** Liquidation *)

Lemma or_raise_inv {A : Type} (o : option A) (e : exn) (a : A) :
  or_raise o e = Ok a -> o = Some a.
Proof. destruct o; simpl; congruence. Qed.

Lemma raise_if_inv (c : bool) (e : exn) (u : unit) :
  raise_if c e = Ok u -> c = false.
Proof. destruct c; simpl; congruence. Qed.

(** Inversion of a computation that returned: every step returned. *)
Ltac bind_step H x Hx :=
  apply bind_inv in H; destruct H as (x & Hx & H).

(** What a liquidation that got as far as its commit has done. *)
Lemma liquidate_to_commit_inv oracle now db liquidator pid repay db' user
    repaid seized_amount :
  DebtService.liquidate_to_commit oracle now db liquidator pid repay
  = Ok (db', user, repaid, seized_amount) ->
  exists position reserve current_debt health_factor,
    Db.debt_by_id (Db.debt_positions db) pid = Some position
    /\ Db.user_by_id (Db.users db) (DebtPosition.user_id position) = Some user
    /\ DebtService._get_reserve_state (Db.reserve_states db)
         (DebtPosition.borrowed_asset_id position) = Some reserve
    /\ DebtService._update_borrow_index reserve now = Ok reserve
    /\ DebtPosition.calculate_current_debt position
         (ReserveState.variable_borrow_index reserve) = Ok current_debt
    /\ 0 < current_debt
    /\ DebtService.get_position_health_factor oracle now (Db.reserve_states db) position
       = Ok (Db.reserve_states db, Some health_factor)
    /\ health_factor < RAY
    /\ let repay_amount := DebtService.effective_repay repay current_debt in
       let collateral_base :=
         DebtPosition.collateral_amount position * repay_amount / current_debt in
       let bonus_collateral :=
         collateral_base * DebtService.LIQUIDATION_BONUS / RAY in
       let seized :=
         if current_debt - repay_amount <=? 0
         then DebtPosition.collateral_amount position
         else Z.min (DebtPosition.collateral_amount position)
                    (collateral_base + bonus_collateral) in
       repaid = repay_amount
       /\ seized_amount = seized
       /\ Db.debt_positions db'
          = (if current_debt - repay_amount <=? 0
             then Db.delete_debt (DebtPosition.id position) (Db.debt_positions db)
             else Db.put_debt
                    (DebtPosition.mk
                       (DebtPosition.id position) (DebtPosition.user_id position)
                       (DebtPosition.borrowed_asset_id position)
                       (DebtPosition.collateral_asset_id position)
                       (current_debt - repay_amount)
                       (ReserveState.variable_borrow_index reserve)
                       (DebtPosition.collateral_amount position - seized))
                    (Db.debt_positions db))
       /\ Db.reserve_states db'
          = Db.put_reserve
              (ReserveState.set_total_liquidity
                 (ReserveState.total_liquidity reserve + repay_amount)
                 (ReserveState.set_total_borrowed
                    (Z.max 0 (ReserveState.total_borrowed reserve - repay_amount))
                    reserve))
              (Db.reserve_states db).
Proof.
  intros H. unfold DebtService.liquidate_to_commit in H.
  bind_step H position Hp. apply or_raise_inv in Hp.
  bind_step H user0 Hu. apply or_raise_inv in Hu.
  bind_step H reserve Hr. apply or_raise_inv in Hr.
  bind_step H reserve' Hi.
  destruct (update_borrow_index_inv _ _ _ Hi) as [-> _].
  unfold DebtService._get_reserve_state in Hr.
  rewrite (put_reserve_same _ _ _ Hr) in H.
  bind_step H current_debt Hd.
  bind_step H u0 Hpos. apply raise_if_inv in Hpos. apply Z.leb_gt in Hpos.
  bind_step H rh Hh. destruct rh as [rs hf].
  pose proof (get_position_health_factor_frame _ _ _ _ _ _ Hh) as ->.
  bind_step H health_factor Hsome. apply or_raise_inv in Hsome. subst hf.
  bind_step H u1 Hunhealthy. apply raise_if_inv in Hunhealthy.
  unfold DebtService._get_reserve_state in H. rewrite Hr in H.
  bind_step H u2 Hrepay.
  bind_step H db2 Hupd.
  apply update_user_health_factor_frame in Hupd.
  destruct Hupd as (Hrs & Hdp & _).
  injection H as <- <- <- <-.
  exists position, reserve, current_debt, health_factor.
  rewrite Z.geb_leb in Hunhealthy. apply Z.leb_gt in Hunhealthy.
  split; [exact Hp|]. split; [exact Hu|]. split; [exact Hr|].
  split; [exact Hi|]. split; [exact Hd|]. split; [exact Hpos|].
  split; [exact Hh|]. split; [exact Hunhealthy|].
  cbv zeta. rewrite Hdp, Hrs.
  cbn [Db.debt_positions Db.reserve_states].
  repeat split.
Qed.

(** A liquidation that returned got as far as its commit, and the
    health factor it then found for the owner was neither [None] nor
    [0]. *)
Lemma liquidate_commits oracle now db liquidator pid repay db' res :
  DebtService.liquidate oracle now db liquidator pid repay = Ok (db', res) ->
  exists user new_health_factor,
    DebtService.liquidate_to_commit oracle now db liquidator pid repay
    = Ok (db', user, DebtService.repaid_amount res, DebtService.collateral_seized res)
    /\ truthy new_health_factor = true
    /\ DebtService.health_factor_after res = or_zero new_health_factor.
Proof.
  intros H. unfold DebtService.liquidate in H.
  bind_step H c Hc. destruct c as [[[db2 user] repaid] seized_amount].
  bind_step H nh Hnew. destruct nh as [rs2 new_hf].
  bind_step H u Hfmt. apply raise_if_inv in Hfmt.
  injection H as <- <-.
  exists user, new_hf.
  cbn [DebtService.repaid_amount DebtService.collateral_seized
       DebtService.health_factor_after].
  split; [exact Hc|]. split; [|reflexivity].
  destruct (truthy new_hf); [reflexivity | discriminate].
Qed.

(** What a liquidation that returned has done. *)
Lemma liquidate_inv oracle now db liquidator pid repay db' res :
  DebtService.liquidate oracle now db liquidator pid repay = Ok (db', res) ->
  exists position user reserve current_debt health_factor,
    Db.debt_by_id (Db.debt_positions db) pid = Some position
    /\ Db.user_by_id (Db.users db) (DebtPosition.user_id position) = Some user
    /\ DebtService._get_reserve_state (Db.reserve_states db)
         (DebtPosition.borrowed_asset_id position) = Some reserve
    /\ DebtService._update_borrow_index reserve now = Ok reserve
    /\ DebtPosition.calculate_current_debt position
         (ReserveState.variable_borrow_index reserve) = Ok current_debt
    /\ 0 < current_debt
    /\ DebtService.get_position_health_factor oracle now (Db.reserve_states db) position
       = Ok (Db.reserve_states db, Some health_factor)
    /\ health_factor < RAY
    /\ let repay_amount := DebtService.effective_repay repay current_debt in
       let collateral_base :=
         DebtPosition.collateral_amount position * repay_amount / current_debt in
       let bonus_collateral :=
         collateral_base * DebtService.LIQUIDATION_BONUS / RAY in
       let seized :=
         if current_debt - repay_amount <=? 0
         then DebtPosition.collateral_amount position
         else Z.min (DebtPosition.collateral_amount position)
                    (collateral_base + bonus_collateral) in
       DebtService.repaid_amount res = repay_amount
       /\ DebtService.collateral_seized res = seized
       /\ Db.debt_positions db'
          = (if current_debt - repay_amount <=? 0
             then Db.delete_debt (DebtPosition.id position) (Db.debt_positions db)
             else Db.put_debt
                    (DebtPosition.mk
                       (DebtPosition.id position) (DebtPosition.user_id position)
                       (DebtPosition.borrowed_asset_id position)
                       (DebtPosition.collateral_asset_id position)
                       (current_debt - repay_amount)
                       (ReserveState.variable_borrow_index reserve)
                       (DebtPosition.collateral_amount position - seized))
                    (Db.debt_positions db))
       /\ Db.reserve_states db'
          = Db.put_reserve
              (ReserveState.set_total_liquidity
                 (ReserveState.total_liquidity reserve + repay_amount)
                 (ReserveState.set_total_borrowed
                    (Z.max 0 (ReserveState.total_borrowed reserve - repay_amount))
                    reserve))
              (Db.reserve_states db).
Proof.
  intros H. destruct (liquidate_commits _ _ _ _ _ _ _ _ H) as (user & nh & Hc & _).
  destruct (liquidate_to_commit_inv _ _ _ _ _ _ _ _ _ _ Hc)
    as (position & reserve & current_debt & health_factor & Hinv).
  exists position, user, reserve, current_debt, health_factor. exact Hinv.
Qed.

Lemma up_to_date_lookup now rs k r :
  up_to_date now rs -> Db.reserve_by_asset rs k = Some r ->
  now <= ReserveState.last_update_timestamp r.
Proof.
  intros Hall Hf. unfold Db.reserve_by_asset in Hf. apply find_some in Hf.
  destruct Hf as [Hin _]. unfold up_to_date in Hall.
  rewrite Forall_forall in Hall. apply Hall. exact Hin.
Qed.

Lemma up_to_date_put now rs r :
  up_to_date now rs -> now <= ReserveState.last_update_timestamp r ->
  up_to_date now (Db.put_reserve r rs).
Proof.
  intros Hall Hr. induction Hall as [|x rs Hx Hrs IH]; simpl.
  - constructor.
  - destruct (String.eqb (ReserveState.asset_id x) (ReserveState.asset_id r)).
    + constructor; assumption.
    + constructor; assumption.
Qed.

Lemma current_debt_returns (p : DebtPosition.t) (index : Z) :
  exists d, DebtPosition.calculate_current_debt p index = Ok d.
Proof.
  unfold DebtPosition.calculate_current_debt.
  destruct (DebtPosition.borrow_index_at_open p =? 0) eqn:E; [eauto|].
  apply Z.eqb_neq in E. rewrite ray_div_ok by assumption.
  rewrite bind_Ok. eauto.
Qed.

Lemma total_debt_returns oracle now ps : forall rs t,
  up_to_date now rs ->
  exists t', DebtService.total_debt oracle now ps rs t = Ok (rs, t').
Proof.
  induction ps as [|p ps IH]; intros rs t Hall; cbn [DebtService.total_debt].
  - eauto.
  - unfold DebtService._get_reserve_state.
    destruct (Db.reserve_by_asset rs (DebtPosition.borrowed_asset_id p))
      as [r|] eqn:Er; [|apply IH; exact Hall].
    rewrite (update_borrow_index_now r now (up_to_date_lookup _ _ _ _ Hall Er)).
    rewrite bind_Ok, (put_reserve_same _ _ _ Er).
    destruct (current_debt_returns p (ReserveState.variable_borrow_index r))
      as [d ->].
    rewrite bind_Ok. apply IH. exact Hall.
Qed.

Lemma calculate_health_factor_returns oracle now db address :
  up_to_date now (Db.reserve_states db) ->
  exists hf,
    DebtService.calculate_health_factor oracle now db address
    = Ok (Db.reserve_states db, hf).
Proof.
  intros Hall. unfold DebtService.calculate_health_factor.
  destruct (Db.user_by_address (Db.users db) address) as [u|]; [|eauto].
  destruct (Db.debts_of_user (Db.debt_positions db) (User.id u)) as [|p ps] eqn:E;
    [eauto|].
  destruct (total_debt_returns oracle now (p :: ps) (Db.reserve_states db) 0 Hall)
    as [t Ht].
  rewrite Ht, bind_Ok.
  destruct (t =? 0) eqn:Et; [eauto|].
  apply Z.eqb_neq in Et. rewrite ray_div_ok by assumption.
  rewrite bind_Ok. eauto.
Qed.

(** A liquidation gets as far as its commit for every position that
    exists with its owner and its reserve, owes something and is found
    liquidatable, provided no reserve has a timestamp in the past. *)
Lemma liquidate_to_commit_returns
    oracle now db liquidator pid repay position user reserve current_debt
    health_factor :
  Db.debt_by_id (Db.debt_positions db) pid = Some position ->
  Db.user_by_id (Db.users db) (DebtPosition.user_id position) = Some user ->
  DebtService._get_reserve_state (Db.reserve_states db)
    (DebtPosition.borrowed_asset_id position) = Some reserve ->
  up_to_date now (Db.reserve_states db) ->
  DebtPosition.calculate_current_debt position
    (ReserveState.variable_borrow_index reserve) = Ok current_debt ->
  0 < current_debt ->
  DebtService.get_position_health_factor oracle now (Db.reserve_states db) position
  = Ok (Db.reserve_states db, Some health_factor) ->
  health_factor < RAY ->
  exists db2 repaid seized hf1,
    DebtService.liquidate_to_commit oracle now db liquidator pid repay
    = Ok (db2, user, repaid, seized)
    /\ up_to_date now (Db.reserve_states db2)
    /\ Db.users db2 = Db.put_user (User.set_health_factor hf1 user) (Db.users db).
Proof.
  intros Hp Hu Hr Hall Hd Hpos Hh Hlt.
  unfold DebtService._get_reserve_state in Hr.
  pose proof (up_to_date_lookup _ _ _ _ Hall Hr) as Hnow.
  unfold DebtService.liquidate_to_commit.
  rewrite Hp. cbn [or_raise bind]. rewrite Hu. cbn [or_raise bind].
  unfold DebtService._get_reserve_state at 1. rewrite Hr. cbn [or_raise bind].
  rewrite (update_borrow_index_now _ _ Hnow). cbn [bind].
  rewrite (put_reserve_same _ _ _ Hr), Hd. cbn [bind].
  destruct (Z.leb_spec current_debt 0); [lia|]. cbn [raise_if bind].
  rewrite Hh. cbn [or_raise bind].
  rewrite Z.geb_leb. destruct (Z.leb_spec RAY health_factor); [lia|].
  cbn [raise_if bind].
  unfold DebtService._get_reserve_state. rewrite Hr.
  assert (Hrepay : 0 < DebtService.effective_repay repay current_debt).
  { unfold DebtService.effective_repay. destruct repay as [r|]; [|lia].
    destruct (Z.leb_spec r 0); [simpl; lia|].
    destruct (Z.gtb_spec r current_debt); simpl; lia. }
  destruct (Z.leb_spec (DebtService.effective_repay repay current_debt) 0); [lia|].
  cbn [raise_if bind].
  match goal with
  | |- context [DebtService._update_user_health_factor _ _ ?d _] => set (db1 := d)
  end.
  assert (Hall1 : up_to_date now (Db.reserve_states db1)).
  { apply up_to_date_put; [exact Hall | exact Hnow]. }
  unfold DebtService._update_user_health_factor.
  destruct (calculate_health_factor_returns oracle now db1 (User.address user) Hall1)
    as [hf1 ->].
  cbn [bind].
  eexists _, _, _, hf1. split; [reflexivity|]. split; [exact Hall1 | reflexivity].
Qed.

(** After its commit a liquidation either returns or fails on its last
    log line. *)
Lemma liquidate_outcome oracle now db liquidator pid repay db2 user repaid seized :
  DebtService.liquidate_to_commit oracle now db liquidator pid repay
  = Ok (db2, user, repaid, seized) ->
  up_to_date now (Db.reserve_states db2) ->
  (exists res, DebtService.liquidate oracle now db liquidator pid repay = Ok (db2, res))
  \/ DebtService.liquidate oracle now db liquidator pid repay
     = Raise (ValueError UnknownFormatCode).
Proof.
  intros Hc Hall. unfold DebtService.liquidate. rewrite Hc, bind_Ok.
  destruct (calculate_health_factor_returns oracle now db2 (User.address user) Hall)
    as [hf2 ->].
  rewrite bind_Ok.
  destruct (truthy hf2); cbn [negb raise_if bind]; [left; eauto | right; reflexivity].
Qed.



Lemma effective_repay_full (requested : option Z) (current_debt : Z) :
  match requested with
  | None => True
  | Some r => r <= 0 \/ current_debt < r
  end ->
  DebtService.effective_repay requested current_debt = current_debt.
Proof.
  destruct requested as [r|]; [|reflexivity].
  intros H. unfold DebtService.effective_repay.
  destruct (Z.leb_spec r 0); [reflexivity|].
  destruct (Z.gtb_spec r current_debt); [reflexivity | lia].
Qed.



(** ** Liquidation: where the code stops *)

(** C4: a liquidation needs the borrowed reserve to have been updated
    in the very second of the call.  For every debt position that is
    there with its owner and its reserve, whatever its health, once
    [last_update_timestamp] lies in the past a liquidation with a
    requested amount raises [AttributeError]
    ([InterestCalculator] has no [accrue_index]); it does so before
    its commit, so nothing is repaid and nothing is seized. *)
Theorem partial_liquidation_needs_reserve_of_this_second
    (oracle : OracleService.t) (now : Z) (db : Db.t) (liquidator_address : string)
    (position_id repay : Z) (position : DebtPosition.t) (user : User.t)
    (reserve : ReserveState.t) :
  Db.debt_by_id (Db.debt_positions db) position_id = Some position ->
  Db.user_by_id (Db.users db) (DebtPosition.user_id position) = Some user ->
  DebtService._get_reserve_state (Db.reserve_states db)
    (DebtPosition.borrowed_asset_id position) = Some reserve ->
  ReserveState.last_update_timestamp reserve < now ->
  DebtService.liquidate_to_commit oracle now db liquidator_address position_id
    (Some repay) = Raise AttributeError
  /\ DebtService.liquidate oracle now db liquidator_address position_id
       (Some repay) = Raise AttributeError.
Proof.
  intros Hp Hu Hr Hstale.
  assert (Hcommit :
    DebtService.liquidate_to_commit oracle now db liquidator_address position_id
      (Some repay) = Raise AttributeError).
  { unfold DebtService.liquidate_to_commit.
    rewrite Hp. cbn [or_raise]. rewrite bind_Ok.
    rewrite Hu. cbn [or_raise]. rewrite bind_Ok.
    rewrite Hr. cbn [or_raise]. rewrite bind_Ok.
    rewrite (update_borrow_index_raises reserve now Hstale). reflexivity. }
  split; [exact Hcommit|].
  unfold DebtService.liquidate. rewrite Hcommit. reflexivity.
Qed.

Lemma partial_liquidation_needs_reserve_of_this_second_witness :
  DebtService.liquidate underwater 1001 liquidation_db "carol" 1 (Some 400000)
  = Raise AttributeError.
Proof.
  apply (partial_liquidation_needs_reserve_of_this_second underwater 1001
           liquidation_db "carol" 1 400000 unhealthy_position
           (User.mk 2 "bob" None) (example_reserve 5000000 2000000 0 0)).
  - reflexivity.
  - reflexivity.
  - reflexivity.
  - apply Z.ltb_lt. reflexivity.
Defined.

Lemma user_by_address_put (us : list User.t) (u u' : User.t) :
  Db.user_by_address us (User.address u) = Some u ->
  Db.user_by_id us (User.id u) = Some u ->
  User.id u' = User.id u -> User.address u' = User.address u ->
  Db.user_by_address (Db.put_user u' us) (User.address u) = Some u'.
Proof.
  unfold Db.user_by_address, Db.user_by_id. intros Ha Hi Hid Haddr.
  induction us as [|x us IH]; [discriminate|].
  cbn [Db.put_user]. cbn [find] in Ha, Hi. rewrite Hid.
  destruct (Z.eqb_spec (User.id x) (User.id u)) as [E|E].
  - cbn [find]. rewrite Haddr, String.eqb_refl. reflexivity.
  - cbn [find].
    destruct (String.eqb_spec (User.address x) (User.address u)) as [Ea|Ea].
    + injection Ha as ->. contradiction.
    + apply IH; assumption.
Qed.

Lemma debts_of_user_delete (ps : list DebtPosition.t) (pid uid : Z) :
  Db.debts_of_user (Db.delete_debt pid ps) uid
  = filter (fun p => negb (DebtPosition.id p =? pid)) (Db.debts_of_user ps uid).
Proof.
  unfold Db.debts_of_user, Db.delete_debt.
  induction ps as [|x ps IH]; [reflexivity|].
  cbn [filter].
  destruct (DebtPosition.id x =? pid) eqn:E1;
    destruct (DebtPosition.user_id x =? uid) eqn:E2;
    cbn [negb filter]; rewrite ?E1, ?E2; cbn [negb]; rewrite IH; reflexivity.
Qed.

(** C5: the full liquidation of the only position of its owner is
    committed and then fails.  With the reserves updated in the second
    of the call and the position liquidatable, a request that is
    omitted, zero, negative or above the current debt gets as far as
    the commit, having repaid the whole current debt, seized all the
    collateral and deleted the position; the owner is then without
    debt, the health factor read for the last log line is [None], and
    formatting ['N/A'] with [.4f] raises [ValueError]: the caller gets
    an exception for a liquidation that has taken place. *)
Theorem full_liquidation_of_only_position_raises
    (oracle : OracleService.t) (now : Z) (db : Db.t) (liquidator_address : string)
    (position_id : Z) (requested : option Z) (position : DebtPosition.t)
    (user : User.t) (reserve : ReserveState.t) (current_debt health_factor : Z) :
  Db.debt_by_id (Db.debt_positions db) position_id = Some position ->
  Db.user_by_id (Db.users db) (DebtPosition.user_id position) = Some user ->
  Db.user_by_address (Db.users db) (User.address user) = Some user ->
  Db.debts_of_user (Db.debt_positions db) (User.id user) = [position] ->
  DebtService._get_reserve_state (Db.reserve_states db)
    (DebtPosition.borrowed_asset_id position) = Some reserve ->
  up_to_date now (Db.reserve_states db) ->
  DebtPosition.calculate_current_debt position
    (ReserveState.variable_borrow_index reserve) = Ok current_debt ->
  0 < current_debt ->
  DebtService.get_position_health_factor oracle now (Db.reserve_states db) position
  = Ok (Db.reserve_states db, Some health_factor) ->
  health_factor < RAY ->
  match requested with
  | None => True
  | Some r => r <= 0 \/ current_debt < r
  end ->
  exists db2,
    DebtService.liquidate_to_commit oracle now db liquidator_address position_id
      requested
    = Ok (db2, user, current_debt, DebtPosition.collateral_amount position)
    /\ Db.debt_by_id (Db.debt_positions db2) position_id = None
    /\ DebtService.liquidate oracle now db liquidator_address position_id requested
       = Raise (ValueError UnknownFormatCode).
Proof.
  intros Hp Hu Ha Honly Hr Hall Hd Hpos Hh Hlt Hreq.
  destruct (liquidate_to_commit_returns oracle now db liquidator_address
              position_id requested _ _ _ _ _ Hp Hu Hr Hall Hd Hpos Hh Hlt)
    as (db2 & repaid & seized & hf1 & Hc & Hall2 & Husers).
  destruct (liquidate_to_commit_inv _ _ _ _ _ _ _ _ _ _ Hc)
    as (p' & r' & d' & hf' & Hp' & _ & Hr' & _ & Hd' & _ & _ & _ & Hres).
  rewrite Hp in Hp'. injection Hp' as <-.
  rewrite Hr in Hr'. injection Hr' as <-.
  rewrite Hd in Hd'. injection Hd' as <-.
  cbv zeta in Hres.
  rewrite (effective_repay_full requested current_debt Hreq) in Hres.
  rewrite Z.sub_diag in Hres. cbn [Z.leb Z.compare] in Hres.
  destruct Hres as (-> & -> & Hdebts & _).
  pose proof (debt_by_id_key _ _ _ Hp) as Hid.
  assert (Huid : User.id user = DebtPosition.user_id position).
  { unfold Db.user_by_id in Hu. apply find_some in Hu.
    apply Z.eqb_eq, Hu. }
  exists db2. split; [exact Hc|]. split.
  { rewrite Hdebts, Hid. apply debt_by_id_delete. }
  unfold DebtService.liquidate. rewrite Hc, bind_Ok.
  unfold DebtService.calculate_health_factor.
  rewrite Husers.
  rewrite (user_by_address_put (Db.users db) user (User.set_health_factor hf1 user));
    [| exact Ha | rewrite Huid; exact Hu | reflexivity | reflexivity].
  cbn [User.set_health_factor User.id].
  rewrite Hdebts, debts_of_user_delete, Honly.
  cbn [filter]. rewrite Hid, Z.eqb_refl. cbn [negb].
  reflexivity.
Qed.

Lemma full_liquidation_of_only_position_raises_witness :
  let db := example_db (example_reserve 5000000 1000000 0 0) [] [unhealthy_position] in
  exists db2,
    DebtService.liquidate_to_commit underwater 1000 db "carol" 1 None
    = Ok (db2, User.mk 2 "bob" None, 1000000, 2000000)
    /\ Db.debt_by_id (Db.debt_positions db2) 1 = None
    /\ DebtService.liquidate underwater 1000 db "carol" 1 None
       = Raise (ValueError UnknownFormatCode).
Proof.
  intros db.
  apply (full_liquidation_of_only_position_raises underwater 1000 db "carol" 1 None
           unhealthy_position (User.mk 2 "bob" None)
           (example_reserve 5000000 1000000 0 0) 1000000
           960000000000000000000000000).
  - reflexivity.
  - reflexivity.
  - reflexivity.
  - reflexivity.
  - reflexivity.
  - constructor; [apply Z.leb_le; reflexivity | constructor].
  - vm_compute. reflexivity.
  - lia.
  - vm_compute. reflexivity.
  - vm_compute. reflexivity.
  - exact I.
Defined.

(** ** Solvency: sequences of operations *)

Lemma reserve_by_asset_In rs k r :
  Db.reserve_by_asset rs k = Some r -> In r rs.
Proof.
  unfold Db.reserve_by_asset. intros H. apply find_some in H. tauto.
Qed.

Lemma put_reserve_Forall (P : ReserveState.t -> Prop) r rs :
  Forall P rs -> P r -> Forall P (Db.put_reserve r rs).
Proof.
  intros Hall Hr. induction Hall as [|x rs Hx Hrs IH]; simpl.
  - constructor.
  - destruct (String.eqb (ReserveState.asset_id x) (ReserveState.asset_id r));
      constructor; assumption.
Qed.









(** C1: solvency is not kept.  On a solvent reserve holding 100,000,000 with
    nothing borrowed, borrowing all of it against sufficient collateral
    completes and commits [total_borrowed = 100,000,000] against
    [total_liquidity = 0]; a withdrawal of 500 from a reserve holding
    1,000 with 600 borrowed completes and leaves 500 against 600. *)
Lemma borrow_and_withdraw_break_solvency :
  Forall solvent (Db.reserve_states (example_db (example_reserve 100000000 0 0 0) [] []))
  /\ returns
       (perform_all (example_db (example_reserve 100000000 0 0 0) [] [])
          [Borrow OracleService.simulated 1000
             "alice" "btc_asset_id_placeholder" 100000000
             "usdt_asset_id_placeholder" 100000000])
       (fun db' =>
          returns
            (or_raise (ReserveService.get_reserve_state db' "usdt_asset_id_placeholder")
                      (ValueError ReserveNotFound))
            (fun r =>
               ReserveState.total_borrowed r = 100000000
               /\ ReserveState.total_liquidity r = 0
               /\ ~ solvent r))
  /\ solvent (example_reserve 1000 600 0 0)
  /\ returns
       (perform_all
          (example_db (example_reserve 1000 600 0 0)
             [SupplyPosition.mk 1 1 "usdt_asset_id_placeholder" 1000 RAY] [])
          [Withdraw 1000 "alice" "usdt_asset_id_placeholder" 500])
       (fun db' =>
          returns
            (or_raise (ReserveService.get_reserve_state db' "usdt_asset_id_placeholder")
                      (ValueError ReserveNotFound))
            (fun r =>
               ReserveState.total_borrowed r = 600
               /\ ReserveState.total_liquidity r = 500
               /\ ~ solvent r)).
Proof.
  split; [repeat constructor; unfold solvent; simpl; lia|].
  split; [vm_compute; repeat split; intros H; apply H; reflexivity|].
  split; [unfold solvent; simpl; lia|].
  vm_compute; repeat split; intros H; apply H; reflexivity.
Qed.

(** ** Unavailable prices *)

Lemma borrow_needs_collateral_price
    oracle now db user_address collateral_asset_id collateral_amount
    borrow_asset_id borrow_amount :
  0 < collateral_amount -> 0 < borrow_amount ->
  OracleService.get_asset_value oracle collateral_amount collateral_asset_id = None ->
  DebtService.borrow oracle now db user_address collateral_asset_id
    collateral_amount borrow_asset_id borrow_amount
  = Raise (ValueError CannotGetCollateralPrice).
Proof.
  intros Hc Hb Hv. unfold DebtService.borrow.
  destruct (Z.leb_spec collateral_amount 0); [lia|].
  destruct (Z.leb_spec borrow_amount 0); [lia|].
  cbn [raise_if bind].
  destruct (Db.get_or_create_user (Db.users db) user_address) as [users1 user].
  rewrite Hv. reflexivity.
Qed.

Lemma liquidate_needs_collateral_price
    oracle now db liquidator pid repay position :
  Db.debt_by_id (Db.debt_positions db) pid = Some position ->
  OracleService.get_asset_value oracle
    (DebtPosition.collateral_amount position)
    (DebtPosition.collateral_asset_id position) = None ->
  exists e, DebtService.liquidate oracle now db liquidator pid repay = Raise e.
Proof.
  intros Hp Hv.
  destruct (DebtService.liquidate oracle now db liquidator pid repay)
    as [[db' res]|e] eqn:E; [|eauto].
  exfalso. apply liquidate_inv in E.
  destruct E as (position' & user & reserve & current_debt & health_factor
                 & Hp' & _ & Hr & Hi & Hd & Hpos & Hh & _).
  rewrite Hp in Hp'. injection Hp' as <-.
  unfold DebtService.get_position_health_factor in Hh.
  rewrite Hr in Hh. rewrite Hi in Hh. cbn [bind] in Hh.
  rewrite Hd in Hh. cbn [bind] in Hh.
  destruct (Z.leb_spec current_debt 0); [lia|].
  rewrite Hv in Hh. cbn [truthy negb] in Hh. rewrite orb_true_r in Hh.
  discriminate.
Qed.

(** C6, the code on a user with one debt position while the price of
    the collateral is stale: the lookup of the collateral value reports
    unavailable, [calculate_health_factor] skips the collateral and
    returns the health factor [0] of a position without collateral,
    where [get_position_health_factor] on the same position returns
    [None]; with a fresh price the health factor is 4800. *)
Theorem health_factor_with_stale_collateral_price :
  OracleService.get_asset_value stale_btc
    (DebtPosition.collateral_amount bobs_position)
    (DebtPosition.collateral_asset_id bobs_position) = None
  /\ DebtService.calculate_health_factor stale_btc 1000 bobs_db "bob"
     = Ok (Db.reserve_states bobs_db, Some 0)
  /\ DebtService.get_position_health_factor stale_btc 1000
       (Db.reserve_states bobs_db) bobs_position
     = Ok (Db.reserve_states bobs_db, None)
  /\ DebtService.calculate_health_factor OracleService.simulated 1000 bobs_db "bob"
     = Ok (Db.reserve_states bobs_db, Some (4800 * RAY)).
Proof.
  repeat split.
Qed.

(** * Further properties of the code *)

(** ** Decimal conversion and interest *)

Lemma pow10_pos (k : Z) : 0 <= k -> 0 < 10 ^ k.
Proof. intros H. apply Z.pow_pos_nonneg; lia. Qed.

(** X1: Converting a token amount to RAY and back is exact for tokens
    with fewer than 27 decimals, and converting a RAY value to a token
    amount and back is exact for tokens with at least 27 decimals; in
    the other direction the value is rounded down to a multiple of the
    power of ten between the two precisions. *)
Theorem decimal_round_trip (value decimals : Z) :
  (decimals < 27 ->
   ray_math_rest.ray_to_decimal (ray_math_rest.decimal_to_ray value decimals) decimals
   = value
   /\ value - 10 ^ (27 - decimals)
      < ray_math_rest.decimal_to_ray
          (ray_math_rest.ray_to_decimal value decimals) decimals
      <= value)
  /\ (27 <= decimals ->
      ray_math_rest.decimal_to_ray (ray_math_rest.ray_to_decimal value decimals) decimals
      = value
      /\ value - 10 ^ (decimals - 27)
         < ray_math_rest.ray_to_decimal
             (ray_math_rest.decimal_to_ray value decimals) decimals
         <= value).
Proof.
  unfold ray_math_rest.ray_to_decimal, ray_math_rest.decimal_to_ray.
  split; intros Hd.
  - destruct (Z.geb_spec decimals 27) as [|_]; [lia|].
    pose proof (pow10_pos (27 - decimals) ltac:(lia)) as Hk.
    set (k := 10 ^ (27 - decimals)) in *. split.
    + apply Z.div_mul. lia.
    + pose proof (Z.div_mod value k ltac:(lia)).
      pose proof (Z.mod_pos_bound value k Hk). nia.
  - destruct (Z.geb_spec decimals 27) as [_|]; [|lia].
    pose proof (pow10_pos (decimals - 27) ltac:(lia)) as Hk.
    set (k := 10 ^ (decimals - 27)) in *. split.
    + apply Z.div_mul. lia.
    + pose proof (Z.div_mod value k ltac:(lia)).
      pose proof (Z.mod_pos_bound value k Hk). nia.
Qed.

Lemma decimal_round_trip_witness :
  ray_math_rest.ray_to_decimal
    (ray_math_rest.decimal_to_ray 1234567 18) 18 = 1234567
  /\ ray_math_rest.decimal_to_ray
       (ray_math_rest.ray_to_decimal (RAY + 1) 30) 30 = RAY + 1.
Proof.
  destruct (decimal_round_trip 1234567 18) as [H18 _].
  destruct (decimal_round_trip (RAY + 1) 30) as [_ H30].
  split; [apply (H18 ltac:(lia)) | apply (H30 ltac:(lia))].
Defined.

Lemma ray_mul_RAY (a : Z) : ray_mul a RAY = a.
Proof.
  rewrite ray_mul_eq, Z.div_add_l by (pose proof RAY_pos; lia).
  replace (HALF_RAY / RAY) with 0 by reflexivity. lia.
Qed.

Lemma ray_mul_add_RAY (a x : Z) : ray_mul a (RAY + x) = a + ray_mul a x.
Proof.
  rewrite !ray_mul_eq.
  replace (a * (RAY + x) + HALF_RAY) with (a * RAY + (a * x + HALF_RAY)) by ring.
  apply Z.div_add_l. pose proof RAY_pos. lia.
Qed.

(** X2: An accrued index is the index plus the linear interest on it, for
    all integers; the function named compound interest computes the
    same linear interest. *)
Theorem accrue_index_is_linear_interest (index rate time_delta : Z) :
  accrue_index index rate time_delta
  = index + ray_math_rest.calculate_linear_interest index rate time_delta
  /\ ray_math_rest.calculate_compound_interest index rate time_delta
     = ray_math_rest.calculate_linear_interest index rate time_delta.
Proof.
  split; [|reflexivity].
  unfold accrue_index, ray_math_rest.calculate_linear_interest.
  destruct (time_delta =? 0) eqn:Et; [simpl; lia|].
  rewrite ray_mul_add_RAY. cbn [orb].
  destruct (rate =? 0) eqn:Er; [|reflexivity].
  apply Z.eqb_eq in Er. subst. rewrite Z.mul_0_l.
  unfold ray_mul. rewrite orb_true_r. reflexivity.
Qed.

(** ** The rate curve *)

Lemma HALF_RAY_bounds : 0 <= HALF_RAY < RAY.
Proof. split; [apply Z.leb_le | apply Z.ltb_lt]; reflexivity. Qed.

Lemma ray_mul_mono_r (a x y : Z) :
  0 <= a -> x <= y -> ray_mul a x <= ray_mul a y.
Proof.
  intros Ha Hxy. rewrite !ray_mul_eq.
  apply Z.div_le_mono; [apply RAY_pos | nia].
Qed.

Lemma ray_mul_mono_l (a b x : Z) :
  0 <= x -> a <= b -> ray_mul a x <= ray_mul b x.
Proof.
  intros Hx Hab. rewrite !ray_mul_eq.
  apply Z.div_le_mono; [apply RAY_pos | nia].
Qed.

Lemma ray_mul_nonneg (a x : Z) : 0 <= a -> 0 <= x -> 0 <= ray_mul a x.
Proof.
  intros Ha Hx. rewrite ray_mul_eq. pose proof HALF_RAY_bounds.
  apply Z.div_pos; [nia | apply RAY_pos].
Qed.

Lemma scaled_quotient_mono (a a' b : Z) :
  0 < b -> a <= a' -> scaled_quotient a b <= scaled_quotient a' b.
Proof.
  intros Hb Ha. unfold scaled_quotient. pose proof RAY_pos.
  apply Z.div_le_mono; [exact Hb | nia].
Qed.

Lemma scaled_quotient_nonneg (a b : Z) :
  0 < b -> 0 <= a -> 0 <= scaled_quotient a b.
Proof.
  intros Hb Ha. unfold scaled_quotient. pose proof RAY_pos.
  pose proof (Z.div_pos b 2 ltac:(lia) ltac:(lia)).
  apply Z.div_pos; [nia | exact Hb].
Qed.

Lemma scaled_quotient_same (b : Z) : 0 < b -> scaled_quotient b b = RAY.
Proof.
  intros Hb. unfold scaled_quotient.
  rewrite Z.mul_comm, Z.div_add_l by lia.
  rewrite (Z.div_small (b / 2) b); [lia|].
  pose proof (Z.div_lt b 2 ltac:(lia) ltac:(lia)).
  pose proof (Z.div_pos b 2 ltac:(lia) ltac:(lia)). lia.
Qed.

Lemma ray_div_scaled_quotient (a b : Z) :
  0 < b -> ray_div a b = Ok (scaled_quotient a b).
Proof. intros Hb. apply ray_div_ok. lia. Qed.

Lemma curve_mono (base s1 s2 u_opt u v : Z) :
  0 <= s1 -> 0 <= s2 -> 0 < u_opt < RAY -> u <= v ->
  curve base s1 s2 u_opt u <= curve base s1 s2 u_opt v.
Proof.
  intros H1 H2 Hopt Huv. unfold curve.
  assert (Hlow : forall w, 0 < w <= u_opt ->
            0 <= ray_mul s1 (scaled_quotient w u_opt) <= s1).
  { intros w Hw. split.
    - apply ray_mul_nonneg; [lia | apply scaled_quotient_nonneg; lia].
    - rewrite <- (ray_mul_RAY s1) at 2. apply ray_mul_mono_r; [lia|].
      rewrite <- (scaled_quotient_same u_opt) by lia.
      apply scaled_quotient_mono; lia. }
  assert (Hhigh : forall w, u_opt < w ->
            0 <= ray_mul s2 (scaled_quotient (w - u_opt) (RAY - u_opt))).
  { intros w Hw. apply ray_mul_nonneg; [lia|].
    apply scaled_quotient_nonneg; lia. }
  destruct (Z.leb_spec u 0), (Z.leb_spec v 0); try lia;
    destruct (Z.leb_spec v u_opt); try (destruct (Z.leb_spec u u_opt)); try lia.
  - specialize (Hlow v ltac:(lia)). lia.
  - specialize (Hhigh v ltac:(lia)). lia.
  - enough (ray_mul s1 (scaled_quotient u u_opt)
            <= ray_mul s1 (scaled_quotient v u_opt)) by lia.
    apply ray_mul_mono_r; [lia | apply scaled_quotient_mono; lia].
  - specialize (Hlow u ltac:(lia)). specialize (Hhigh v ltac:(lia)). lia.
  - enough (ray_mul s2 (scaled_quotient (u - u_opt) (RAY - u_opt))
            <= ray_mul s2 (scaled_quotient (v - u_opt) (RAY - u_opt))) by lia.
    apply ray_mul_mono_r; [lia | apply scaled_quotient_mono; lia].
Qed.

Lemma curve_bounds (base s1 s2 u_opt u : Z) :
  0 <= s1 -> 0 <= s2 -> 0 < u_opt < RAY ->
  base <= curve base s1 s2 u_opt u
  /\ (u <= RAY -> curve base s1 s2 u_opt u <= base + s1 + s2).
Proof.
  intros H1 H2 Hopt. split.
  - destruct (Z.le_ge_cases u 0) as [Hu|Hu].
    + unfold curve. destruct (Z.leb_spec u 0); lia.
    + pose proof (curve_mono base s1 s2 u_opt 0 u H1 H2 Hopt Hu) as H.
      unfold curve at 1 in H. simpl in H. exact H.
  - intros Hu.
    pose proof (curve_mono base s1 s2 u_opt u RAY H1 H2 Hopt Hu) as H.
    enough (curve base s1 s2 u_opt RAY = base + s1 + s2) by lia.
    unfold curve. pose proof RAY_pos.
    destruct (Z.leb_spec RAY 0); [lia|].
    destruct (Z.leb_spec RAY u_opt); [lia|].
    rewrite scaled_quotient_same by lia. rewrite ray_mul_RAY. reflexivity.
Qed.

Lemma calculate_borrow_rate_annual_curve (u : Z) :
  InterestRateModel.calculate_borrow_rate_annual u
  = Ok (curve InterestRateModel.BASE_BORROW_RATE InterestRateModel.SLOPE1
              InterestRateModel.SLOPE2 InterestRateModel.OPTIMAL_UTILIZATION u).
Proof.
  unfold InterestRateModel.calculate_borrow_rate_annual, curve.
  destruct (u <=? 0); [reflexivity|].
  destruct (u <=? InterestRateModel.OPTIMAL_UTILIZATION).
  - rewrite ray_div_scaled_quotient by reflexivity. reflexivity.
  - rewrite ray_div_scaled_quotient by reflexivity. reflexivity.
Qed.

Lemma curve_parameters :
  0 <= InterestRateModel.BASE_BORROW_RATE
  /\ 0 <= InterestRateModel.SLOPE1
  /\ 0 <= InterestRateModel.SLOPE2
  /\ 0 < InterestRateModel.OPTIMAL_UTILIZATION < RAY.
Proof.
  repeat split; try (apply Z.leb_le; reflexivity); apply Z.ltb_lt; reflexivity.
Qed.

(** X3: The annual borrow rate never decreases when utilization grows, is
    never below the base rate and, for utilization up to 100%, never
    above base + slope1 + slope2. *)
Theorem borrow_rate_monotone_and_bounded (u v : Z) :
  exists ru rv,
    InterestRateModel.calculate_borrow_rate_annual u = Ok ru
    /\ InterestRateModel.calculate_borrow_rate_annual v = Ok rv
    /\ (u <= v -> ru <= rv)
    /\ InterestRateModel.BASE_BORROW_RATE <= ru
    /\ (u <= RAY ->
        ru <= InterestRateModel.BASE_BORROW_RATE + InterestRateModel.SLOPE1
              + InterestRateModel.SLOPE2).
Proof.
  destruct curve_parameters as (_ & H1 & H2 & Hopt).
  rewrite !calculate_borrow_rate_annual_curve.
  eexists _, _. split; [reflexivity|]. split; [reflexivity|].
  split; [apply curve_mono; assumption|].
  apply curve_bounds; assumption.
Qed.

Lemma borrow_rate_monotone_and_bounded_witness :
  exists ru rv,
    InterestRateModel.calculate_borrow_rate_annual (RAY / 2) = Ok ru
    /\ InterestRateModel.calculate_borrow_rate_annual (9 * RAY / 10) = Ok rv
    /\ ru <= rv
    /\ rv <= InterestRateModel.BASE_BORROW_RATE + InterestRateModel.SLOPE1
             + InterestRateModel.SLOPE2.
Proof.
  destruct (borrow_rate_monotone_and_bounded (RAY / 2) (9 * RAY / 10))
    as (ru & rv & Hu & Hv & Hmono & _ & _).
  destruct (borrow_rate_monotone_and_bounded (9 * RAY / 10) 0)
    as (rv' & r0 & Hv' & _ & _ & _ & Hup).
  rewrite Hv in Hv'. injection Hv' as <-.
  exists ru, rv. split; [exact Hu|]. split; [exact Hv|].
  split; [apply Hmono | apply Hup]; apply Z.leb_le; reflexivity.
Defined.

Lemma to_per_second_scaled_quotient (rate_annual : Z) :
  InterestRateModel._to_per_second rate_annual
  = Ok (scaled_quotient rate_annual InterestRateModel.SECONDS_PER_YEAR).
Proof.
  unfold InterestRateModel._to_per_second.
  apply ray_div_scaled_quotient. reflexivity.
Qed.

Lemma calculate_rates_range (total_liquidity total_borrowed reserve_factor : Z) :
  0 <= total_borrowed ->
  0 <= reserve_factor <= RAY ->
  exists liquidity_rate borrow_rate,
    InterestRateModel.calculate_rates total_liquidity total_borrowed reserve_factor
    = Ok (liquidity_rate, borrow_rate)
    /\ 0 <= liquidity_rate
    /\ 0 <= borrow_rate
    /\ (total_borrowed <= total_liquidity -> liquidity_rate <= borrow_rate)
    /\ (total_liquidity <= 0 -> liquidity_rate = 0 /\ borrow_rate = 0).
Proof.
  intros Htb Hrf. unfold InterestRateModel.calculate_rates.
  destruct (Z.leb_spec total_liquidity 0) as [Hl|Hl].
  { exists 0, 0. repeat split; lia. }
  rewrite calculate_borrow_rate_annual_curve, bind_Ok.
  rewrite to_per_second_scaled_quotient, bind_Ok.
  set (u := total_borrowed * RAY / total_liquidity).
  set (annual := curve _ _ _ _ u).
  set (br := scaled_quotient annual InterestRateModel.SECONDS_PER_YEAR).
  pose proof RAY_pos as HR.
  destruct curve_parameters as (H0 & H1 & H2 & Hopt).
  assert (Hu : 0 <= u) by (apply Z.div_pos; nia).
  assert (Hannual : 0 <= annual).
  { pose proof (proj1 (curve_bounds InterestRateModel.BASE_BORROW_RATE
      InterestRateModel.SLOPE1 InterestRateModel.SLOPE2
      InterestRateModel.OPTIMAL_UTILIZATION u H1 H2 Hopt)).
    unfold annual. lia. }
  assert (Hbr : 0 <= br).
  { apply scaled_quotient_nonneg; [reflexivity | exact Hannual]. }
  assert (Hbu : 0 <= ray_mul br u) by (apply ray_mul_nonneg; assumption).
  eexists _, _. split; [reflexivity|].
  split; [apply ray_mul_nonneg; lia|].
  split; [exact Hbr|].
  split; [|lia].
  intros Hle.
  assert (Hu1 : u <= RAY).
  { unfold u. apply Z.div_le_upper_bound; [lia | nia]. }
  transitivity (ray_mul br u).
  - rewrite <- (ray_mul_RAY (ray_mul br u)) at 2.
    apply ray_mul_mono_r; lia.
  - rewrite <- (ray_mul_RAY br) at 2. apply ray_mul_mono_r; lia.
Qed.

(** X4: [calculate_rates] always returns a pair of rates.  With a
    non-negative amount borrowed and a reserve factor between 0 and
    100% neither rate is negative; while the amount borrowed does not
    exceed the liquidity, suppliers never earn a higher rate than
    borrowers pay; and an empty reserve has both rates zero. *)
Theorem calculate_rates_bounds (total_liquidity total_borrowed reserve_factor : Z) :
  0 <= total_borrowed ->
  0 <= reserve_factor <= RAY ->
  exists liquidity_rate borrow_rate,
    InterestRateModel.calculate_rates total_liquidity total_borrowed reserve_factor
    = Ok (liquidity_rate, borrow_rate)
    /\ 0 <= liquidity_rate
    /\ 0 <= borrow_rate
    /\ (total_borrowed <= total_liquidity -> liquidity_rate <= borrow_rate)
    /\ (total_liquidity <= 0 -> liquidity_rate = 0 /\ borrow_rate = 0).
Proof. apply calculate_rates_range. Qed.

Lemma calculate_rates_bounds_witness :
  exists liquidity_rate borrow_rate,
    InterestRateModel.calculate_rates 1000 500 (RAY / 10)
    = Ok (liquidity_rate, borrow_rate)
    /\ 0 <= liquidity_rate <= borrow_rate.
Proof.
  destruct (calculate_rates_bounds 1000 500 (RAY / 10))
    as (lr & br & H & Hlr & _ & Hle & _).
  - lia.
  - split; apply Z.leb_le; reflexivity.
  - exists lr, br. split; [exact H|]. split; [exact Hlr | apply Hle; lia].
Defined.

(** ** Positions and their index *)

Lemma ray_mul_scaled (a x : Z) : ray_mul (a * RAY) x = a * x.
Proof.
  rewrite ray_mul_eq. pose proof RAY_pos as HR.
  replace (a * RAY * x) with (a * x * RAY) by ring.
  rewrite Z.div_add_l by lia.
  replace (HALF_RAY / RAY) with 0 by reflexivity. lia.
Qed.

(** X5: A debt position valued at the index it was opened at owes exactly
    its principal, and its debt never decreases when the index grows:
    from the opening index on, the accrued interest is never negative. *)
Theorem debt_grows_with_index (self : DebtPosition.t) (index index' : Z) :
  0 <= DebtPosition.principal self ->
  0 < DebtPosition.borrow_index_at_open self ->
  DebtPosition.borrow_index_at_open self <= index <= index' ->
  exists debt debt',
    DebtPosition.calculate_current_debt self
      (DebtPosition.borrow_index_at_open self)
    = Ok (DebtPosition.principal self)
    /\ DebtPosition.calculate_current_debt self index = Ok debt
    /\ DebtPosition.calculate_current_debt self index' = Ok debt'
    /\ DebtPosition.principal self <= debt <= debt'
    /\ DebtPosition.calculate_accrued_interest self index
       = Ok (debt - DebtPosition.principal self).
Proof.
  intros Hp Hopen Hidx.
  unfold DebtPosition.calculate_accrued_interest,
    DebtPosition.calculate_current_debt.
  set (p := DebtPosition.principal self) in *.
  set (b := DebtPosition.borrow_index_at_open self) in *.
  destruct (Z.eqb_spec b 0) as [E|_]; [lia|].
  rewrite !ray_div_scaled_quotient by lia. rewrite !bind_Ok.
  rewrite scaled_quotient_same by lia. rewrite ray_mul_RAY.
  eexists _, _. split; [reflexivity|]. split; [reflexivity|].
  split; [reflexivity|]. split; [|reflexivity].
  split.
  - rewrite <- (ray_mul_RAY p) at 1. apply ray_mul_mono_r; [lia|].
    rewrite <- (scaled_quotient_same b) by lia.
    apply scaled_quotient_mono; lia.
  - apply ray_mul_mono_r; [lia|]. apply scaled_quotient_mono; lia.
Qed.

Lemma debt_grows_with_index_witness :
  exists debt debt',
    DebtPosition.calculate_current_debt bobs_position RAY
    = Ok (DebtPosition.principal bobs_position)
    /\ DebtPosition.calculate_current_debt bobs_position (RAY + RAY / 10) = Ok debt
    /\ DebtPosition.calculate_current_debt bobs_position (2 * RAY) = Ok debt'
    /\ DebtPosition.principal bobs_position <= debt <= debt'.
Proof.
  destruct (debt_grows_with_index bobs_position (RAY + RAY / 10) (2 * RAY))
    as (d & d' & H0 & H1 & H2 & H3 & _).
  - apply Z.leb_le; reflexivity.
  - reflexivity.
  - split; apply Z.leb_le; reflexivity.
  - exists d, d'. repeat split; try assumption; apply H3.
Defined.

(** X6: A supply position valued at the index it was minted at is worth
    exactly its shares, and its value never decreases when the
    liquidity index grows; a position whose recorded index is 0 cannot
    be valued at all. *)
Theorem underlying_grows_with_index (self : SupplyPosition.t) (index index' : Z) :
  0 <= SupplyPosition.atoken_amount self ->
  0 < SupplyPosition.liquidity_index_at_supply self ->
  SupplyPosition.liquidity_index_at_supply self <= index <= index' ->
  exists underlying underlying',
    SupplyPosition.calculate_underlying_amount self
      (SupplyPosition.liquidity_index_at_supply self)
    = Ok (SupplyPosition.atoken_amount self)
    /\ SupplyPosition.calculate_underlying_amount self index = Ok underlying
    /\ SupplyPosition.calculate_underlying_amount self index' = Ok underlying'
    /\ SupplyPosition.atoken_amount self <= underlying <= underlying'.
Proof.
  intros Ha Hopen Hidx. pose proof RAY_pos as HR.
  unfold SupplyPosition.calculate_underlying_amount.
  set (a := SupplyPosition.atoken_amount self) in *.
  set (b := SupplyPosition.liquidity_index_at_supply self) in *.
  rewrite !ray_div_scaled_quotient by lia. rewrite !bind_Ok.
  rewrite !ray_mul_scaled.
  rewrite scaled_quotient_same by lia. rewrite Z.div_mul by lia.
  eexists _, _. split; [reflexivity|]. split; [reflexivity|].
  split; [reflexivity|].
  pose proof (scaled_quotient_mono b index b Hopen (proj1 Hidx)) as H1.
  pose proof (scaled_quotient_mono index index' b Hopen (proj2 Hidx)) as H2.
  rewrite scaled_quotient_same in H1 by lia.
  split.
  - apply Z.div_le_lower_bound; [lia | nia].
  - apply Z.div_le_mono; [lia | nia].
Qed.

Lemma underlying_grows_with_index_witness :
  exists underlying underlying',
    SupplyPosition.calculate_underlying_amount
      (SupplyPosition.mk 1 1 "usdt_asset_id_placeholder" 1000 RAY) (RAY + RAY / 10)
    = Ok underlying
    /\ SupplyPosition.calculate_underlying_amount
         (SupplyPosition.mk 1 1 "usdt_asset_id_placeholder" 1000 RAY) (2 * RAY)
       = Ok underlying'
    /\ 1000 <= underlying <= underlying'.
Proof.
  destruct (underlying_grows_with_index
              (SupplyPosition.mk 1 1 "usdt_asset_id_placeholder" 1000 RAY)
              (RAY + RAY / 10) (2 * RAY))
    as (u & u' & _ & H1 & H2 & H3).
  - apply Z.leb_le; reflexivity.
  - reflexivity.
  - split; apply Z.leb_le; reflexivity.
  - exists u, u'. split; [exact H1|]. split; [exact H2 | exact H3].
Defined.

(** X7: [InterestCalculator.calculate_accrued_interest] is 0 while the
    index has not grown; for a non-negative principal and a positive
    initial index it returns a non-negative amount that never decreases
    with the current index; with a zero initial index and a positive
    current index it raises [ZeroDivisionError]. *)
Theorem calculate_accrued_interest_non_negative
    (principal initial_index current_index current_index' : Z) :
  0 <= principal ->
  0 < initial_index ->
  current_index <= current_index' ->
  exists interest interest',
    InterestCalculator_rest.calculate_accrued_interest
      principal initial_index current_index = Ok interest
    /\ InterestCalculator_rest.calculate_accrued_interest
         principal initial_index current_index' = Ok interest'
    /\ 0 <= interest <= interest'
    /\ (current_index <= initial_index -> interest = 0)
    /\ InterestCalculator_rest.calculate_accrued_interest
         principal 0 initial_index = Raise ZeroDivisionError.
Proof.
  intros Hp Hinit Hidx. pose proof RAY_pos as HR.
  assert (Hval : forall c,
    exists i, InterestCalculator_rest.calculate_accrued_interest
                principal initial_index c = Ok i
      /\ i = (if c <=? initial_index then 0
              else principal * scaled_quotient c initial_index / RAY - principal)).
  { intros c. unfold InterestCalculator_rest.calculate_accrued_interest.
    destruct (c <=? initial_index); [eauto|].
    rewrite ray_div_scaled_quotient by lia. rewrite bind_Ok, ray_mul_scaled.
    eauto. }
  assert (Hge : forall c, initial_index <= c ->
    principal <= principal * scaled_quotient c initial_index / RAY).
  { intros c Hc.
    pose proof (scaled_quotient_mono initial_index c initial_index Hinit Hc) as H.
    rewrite scaled_quotient_same in H by lia.
    apply Z.div_le_lower_bound; [lia | nia]. }
  destruct (Hval current_index) as (i & Hi & Ei).
  destruct (Hval current_index') as (i' & Hi' & Ei').
  exists i, i'. split; [exact Hi|]. split; [exact Hi'|].
  split; [|split].
  - subst i i'.
    destruct (Z.leb_spec current_index initial_index) as [H1|H1];
      destruct (Z.leb_spec current_index' initial_index) as [H2|H2]; try lia.
    + specialize (Hge current_index' ltac:(lia)). lia.
    + pose proof (Hge current_index ltac:(lia)).
      pose proof (scaled_quotient_mono current_index current_index'
                    initial_index Hinit Hidx).
      assert (principal * scaled_quotient current_index initial_index / RAY
              <= principal * scaled_quotient current_index' initial_index / RAY).
      { apply Z.div_le_mono; [lia | nia]. }
      lia.
  - intros H. subst i. destruct (Z.leb_spec current_index initial_index); lia.
  - unfold InterestCalculator_rest.calculate_accrued_interest.
    destruct (Z.leb_spec initial_index 0); [lia|].
    reflexivity.
Qed.

Lemma calculate_accrued_interest_non_negative_witness :
  exists interest,
    InterestCalculator_rest.calculate_accrued_interest 1000 RAY (2 * RAY)
    = Ok interest
    /\ 0 <= interest.
Proof.
  destruct (calculate_accrued_interest_non_negative 1000 RAY (2 * RAY) (2 * RAY))
    as (i & i' & H & _ & Hi & _).
  - lia.
  - reflexivity.
  - lia.
  - exists i. split; [exact H | apply Hi].
Defined.

(** ** Dictionaries *)

Lemma get_set_same {V : Type} (d : PyDict.t V) (k : string) (v : V) :
  PyDict.get (PyDict.set d k v) k = Some v.
Proof.
  induction d as [|[k' v'] d IH]; simpl.
  - rewrite String.eqb_refl. reflexivity.
  - destruct (String.eqb k' k) eqn:E; simpl; rewrite E; [reflexivity | exact IH].
Qed.

Lemma get_set_other {V : Type} (d : PyDict.t V) (k k0 : string) (v : V) :
  k0 <> k -> PyDict.get (PyDict.set d k v) k0 = PyDict.get d k0.
Proof.
  intros Hne. induction d as [|[k' v'] d IH]; simpl.
  - destruct (String.eqb_spec k k0); [congruence | reflexivity].
  - destruct (String.eqb_spec k' k) as [->|Hk]; simpl.
    + destruct (String.eqb_spec k k0); [congruence | reflexivity].
    + destruct (String.eqb k' k0); [reflexivity | exact IH].
Qed.

Lemma get_None_keys {V : Type} (d : PyDict.t V) (k : string) :
  PyDict.get d k = None <-> ~ In k (PyDict.keys d).
Proof.
  induction d as [|[k' v'] d IH]; simpl.
  - tauto.
  - destruct (String.eqb_spec k' k) as [->|Hk].
    + split; [discriminate | tauto].
    + rewrite IH. tauto.
Qed.

Lemma get_In {V : Type} (d : PyDict.t V) (k : string) (v : V) :
  PyDict.wf d -> (PyDict.get d k = Some v <-> In (k, v) d).
Proof.
  unfold PyDict.wf. induction d as [|[k' v'] d IH]; simpl; intros Hwf.
  - split; [discriminate | tauto].
  - inversion Hwf as [|? ? Hnotin Hwf']; subst.
    destruct (String.eqb_spec k' k) as [->|Hk].
    + split.
      * intros [= ->]. left. reflexivity.
      * intros [[= ->]|Hin]; [reflexivity|].
        exfalso. apply Hnotin. apply (in_map fst) in Hin. exact Hin.
    + rewrite (IH Hwf'). split; [tauto|].
      intros [[= -> ->]|Hin]; [contradiction | exact Hin].
Qed.

Lemma keys_pop_incl {V : Type} (d : PyDict.t V) (k k0 : string) :
  In k0 (PyDict.keys (PyDict.pop d k)) -> In k0 (PyDict.keys d).
Proof.
  induction d as [|[k' v'] d IH]; simpl; [tauto|].
  destruct (String.eqb k' k); simpl; tauto.
Qed.

Lemma wf_pop {V : Type} (d : PyDict.t V) (k : string) :
  PyDict.wf d -> PyDict.wf (PyDict.pop d k).
Proof.
  unfold PyDict.wf. induction d as [|[k' v'] d IH]; simpl; intros Hwf.
  - constructor.
  - inversion Hwf as [|? ? Hnotin Hwf']; subst.
    destruct (String.eqb k' k); [exact Hwf'|].
    simpl. constructor; [|apply IH; exact Hwf'].
    intros Hin. apply Hnotin. eapply keys_pop_incl. exact Hin.
Qed.

Lemma get_pop_same {V : Type} (d : PyDict.t V) (k : string) :
  PyDict.wf d -> PyDict.get (PyDict.pop d k) k = None.
Proof.
  unfold PyDict.wf. induction d as [|[k' v'] d IH]; simpl; intros Hwf.
  - reflexivity.
  - inversion Hwf as [|? ? Hnotin Hwf']; subst.
    destruct (String.eqb_spec k' k) as [->|Hk].
    + apply get_None_keys. exact Hnotin.
    + simpl. destruct (String.eqb_spec k' k); [contradiction|].
      apply IH. exact Hwf'.
Qed.

Lemma get_pop_other {V : Type} (d : PyDict.t V) (k k0 : string) :
  k0 <> k -> PyDict.get (PyDict.pop d k) k0 = PyDict.get d k0.
Proof.
  intros Hne. induction d as [|[k' v'] d IH]; simpl; [reflexivity|].
  destruct (String.eqb_spec k' k) as [->|Hk]; simpl.
  - destruct (String.eqb_spec k k0); [congruence | reflexivity].
  - destruct (String.eqb k' k0); [reflexivity | exact IH].
Qed.

Lemma pop_absent {V : Type} (d : PyDict.t V) (k : string) :
  PyDict.get d k = None -> PyDict.pop d k = d.
Proof.
  induction d as [|[k' v'] d IH]; simpl; [reflexivity|].
  destruct (String.eqb k' k); [discriminate|].
  intros H. rewrite IH by exact H. reflexivity.
Qed.

Lemma keys_set {V : Type} (d : PyDict.t V) (k k0 : string) (v : V) :
  In k0 (PyDict.keys (PyDict.set d k v)) -> k0 = k \/ In k0 (PyDict.keys d).
Proof.
  induction d as [|[k' v'] d IH]; simpl.
  - intros [<-|[]]. left. reflexivity.
  - destruct (String.eqb k' k); simpl; tauto.
Qed.

Lemma wf_set {V : Type} (d : PyDict.t V) (k : string) (v : V) :
  PyDict.wf d -> PyDict.wf (PyDict.set d k v).
Proof.
  unfold PyDict.wf. induction d as [|[k' v'] d IH]; simpl; intros Hwf.
  - constructor; [simpl; tauto | constructor].
  - inversion Hwf as [|? ? Hnotin Hwf']; subst.
    destruct (String.eqb_spec k' k) as [->|Hk]; simpl.
    + constructor; assumption.
    + constructor; [|apply IH; exact Hwf'].
      intros Hin. apply keys_set in Hin. destruct Hin; [congruence | contradiction].
Qed.

Lemma wf_pop_all {V : Type} (ks : list string) : forall d : PyDict.t V,
  PyDict.wf d -> PyDict.wf (fold_left (fun d uid => PyDict.pop d uid) ks d).
Proof.
  induction ks as [|k ks IH]; simpl; intros d Hwf; [exact Hwf|].
  apply IH, wf_pop, Hwf.
Qed.

Lemma get_pop_all_other {V : Type} (ks : list string) (k0 : string) :
  forall d : PyDict.t V,
  ~ In k0 ks ->
  PyDict.get (fold_left (fun d uid => PyDict.pop d uid) ks d) k0 = PyDict.get d k0.
Proof.
  induction ks as [|k ks IH]; simpl; intros d Hnotin; [reflexivity|].
  rewrite IH by tauto. apply get_pop_other. intros ->. tauto.
Qed.

Lemma get_pop_all_in {V : Type} (ks : list string) (k0 : string) :
  forall d : PyDict.t V,
  PyDict.wf d -> In k0 ks ->
  PyDict.get (fold_left (fun d uid => PyDict.pop d uid) ks d) k0 = None.
Proof.
  induction ks as [|k ks IH]; simpl; intros d Hwf Hin; [contradiction|].
  destruct (in_dec string_dec k0 ks) as [Hin'|Hnotin].
  - apply IH; [apply wf_pop, Hwf | exact Hin'].
  - destruct Hin as [->|Hin]; [|contradiction].
    rewrite get_pop_all_other by exact Hnotin.
    apply get_pop_same, Hwf.
Qed.

(** ** The UTXO lock *)

Lemma expired_In (l : UTXOLock.locks) (now : Z) (k : string) :
  In k (map fst (filter (fun '(uid, lock_time) =>
                           now - lock_time >? UTXOLock._lock_timeout) l))
  <-> exists t, In (k, t) l /\ (now - t >? UTXOLock._lock_timeout) = true.
Proof.
  rewrite in_map_iff. split.
  - intros [[k' t] [Hk Hin]]. simpl in Hk. subst k'.
    apply filter_In in Hin. exists t. exact Hin.
  - intros [t [Hin Ht]]. exists (k, t). split; [reflexivity|].
    apply filter_In. split; assumption.
Qed.

Lemma acquire_cleans (l : UTXOLock.locks) (now : Z) (k : string) :
  PyDict.wf l ->
  PyDict.get
    (fold_left (fun d uid => PyDict.pop d uid)
       (map fst (filter (fun '(uid, lock_time) =>
                           now - lock_time >? UTXOLock._lock_timeout) l)) l) k
  = unexpired now (PyDict.get l k).
Proof.
  intros Hwf. unfold unexpired.
  destruct (PyDict.get l k) as [t|] eqn:Hget.
  - destruct (now - t >? UTXOLock._lock_timeout) eqn:Ht.
    + apply get_pop_all_in; [exact Hwf|].
      apply expired_In. exists t. split; [|exact Ht].
      apply get_In; assumption.
    + rewrite get_pop_all_other; [exact Hget|].
      intros Hin. apply expired_In in Hin. destruct Hin as [t' [Hin Ht']].
      apply get_In in Hin; [|exact Hwf]. congruence.
  - rewrite get_pop_all_other; [exact Hget|].
    intros Hin. apply expired_In in Hin. destruct Hin as [t' [Hin _]].
    apply get_In in Hin; [|exact Hwf]. congruence.
Qed.

Lemma acquire_get (l : UTXOLock.locks) (now : Z) (utxo_id k : string) :
  PyDict.wf l ->
  PyDict.get (fst (UTXOLock.acquire l now utxo_id)) k
  = if String.eqb utxo_id k
    then match unexpired now (PyDict.get l k) with
         | Some t => Some t
         | None => Some now
         end
    else unexpired now (PyDict.get l k).
Proof.
  intros Hwf. unfold UTXOLock.acquire, PyDict.mem.
  pose proof (acquire_cleans l now utxo_id Hwf) as Hid.
  pose proof (acquire_cleans l now k Hwf) as Hk.
  match goal with
  | |- context [fold_left ?f ?ks l] => set (cleaned := fold_left f ks l) in *
  end.
  destruct (String.eqb_spec utxo_id k) as [->|Hne].
  - rewrite <- Hk.
    destruct (PyDict.get cleaned k) as [t|] eqn:E; simpl.
    + exact E.
    + apply get_set_same.
  - rewrite <- Hk.
    destruct (PyDict.get cleaned utxo_id) as [t|]; simpl; [reflexivity|].
    apply get_set_other. congruence.
Qed.

Lemma acquire_result (l : UTXOLock.locks) (now : Z) (utxo_id : string) :
  PyDict.wf l ->
  snd (UTXOLock.acquire l now utxo_id)
  = match unexpired now (PyDict.get l utxo_id) with
    | Some _ => false
    | None => true
    end.
Proof.
  intros Hwf. unfold UTXOLock.acquire, PyDict.mem.
  rewrite (acquire_cleans l now utxo_id Hwf).
  destruct (unexpired now (PyDict.get l utxo_id)); reflexivity.
Qed.

Lemma acquire_wf (l : UTXOLock.locks) (now : Z) (utxo_id : string) :
  PyDict.wf l -> PyDict.wf (fst (UTXOLock.acquire l now utxo_id)).
Proof.
  intros Hwf. unfold UTXOLock.acquire.
  match goal with
  | |- context [fold_left ?f ?ks l] => set (cleaned := fold_left f ks l)
  end.
  assert (PyDict.wf cleaned) by (apply wf_pop_all, Hwf).
  destruct (PyDict.mem cleaned utxo_id); simpl; [assumption | apply wf_set; assumption].
Qed.

(** X8: Mutual exclusion and its limit: once a UTXO has been locked, a
    second attempt to lock it (no release in between) fails for the
    next 30 seconds and succeeds as soon as more than 30 seconds have
    passed, whether or not the first holder is done. *)
Theorem acquire_twice (_locks : UTXOLock.locks) (now later : Z) (utxo_id : string) :
  PyDict.wf _locks ->
  snd (UTXOLock.acquire _locks now utxo_id) = true ->
  snd (UTXOLock.acquire (fst (UTXOLock.acquire _locks now utxo_id)) later utxo_id)
  = (later - now >? 30 * 1000000).
Proof.
  intros Hwf Hfirst.
  rewrite acquire_result by (apply acquire_wf, Hwf).
  rewrite acquire_get by exact Hwf. rewrite String.eqb_refl.
  rewrite acquire_result in Hfirst by exact Hwf.
  destruct (unexpired now (PyDict.get _locks utxo_id)); [discriminate|].
  unfold unexpired, UTXOLock._lock_timeout.
  destruct (later - now >? 30 * 1000000); reflexivity.
Qed.

Lemma acquire_twice_witness :
  snd (UTXOLock.acquire (fst (UTXOLock.acquire [] 0 "reserve_btc")) 29000000
         "reserve_btc") = false
  /\ snd (UTXOLock.acquire (fst (UTXOLock.acquire [] 0 "reserve_btc")) 31000000
            "reserve_btc") = true.
Proof.
  split.
  - rewrite (acquire_twice [] 0 29000000 "reserve_btc");
      [reflexivity | constructor | reflexivity].
  - rewrite (acquire_twice [] 0 31000000 "reserve_btc");
      [reflexivity | constructor | reflexivity].
Defined.

(** X9: Acquiring a lock keeps the registry a dictionary, drops exactly
    the locks of other UTXOs that are older than 30 seconds and keeps
    the younger ones with their times; a failed attempt does not
    refresh the time of the lock it ran into. *)
Theorem acquire_frame (_locks : UTXOLock.locks) (now : Z) (utxo_id other : string) :
  PyDict.wf _locks ->
  PyDict.wf (fst (UTXOLock.acquire _locks now utxo_id))
  /\ (other <> utxo_id ->
      PyDict.get (fst (UTXOLock.acquire _locks now utxo_id)) other
      = unexpired now (PyDict.get _locks other))
  /\ (snd (UTXOLock.acquire _locks now utxo_id) = false ->
      PyDict.get (fst (UTXOLock.acquire _locks now utxo_id)) utxo_id
      = PyDict.get _locks utxo_id)
  /\ (snd (UTXOLock.acquire _locks now utxo_id) = true ->
      PyDict.get (fst (UTXOLock.acquire _locks now utxo_id)) utxo_id = Some now).
Proof.
  intros Hwf. split; [apply acquire_wf, Hwf|].
  rewrite acquire_result by exact Hwf.
  rewrite !acquire_get by exact Hwf. rewrite String.eqb_refl.
  split; [|split].
  - intros Hne. destruct (String.eqb_spec utxo_id other); [congruence | reflexivity].
  - unfold unexpired. destruct (PyDict.get _locks utxo_id) as [t|]; [|discriminate].
    destruct (now - t >? UTXOLock._lock_timeout); [discriminate | reflexivity].
  - destruct (unexpired now (PyDict.get _locks utxo_id)); [discriminate | reflexivity].
Qed.

Lemma acquire_frame_witness :
  PyDict.get (fst (UTXOLock.acquire [("a"%string, 0); ("b"%string, 20000000)]
                     40000000 "c")) "a" = None
  /\ PyDict.get (fst (UTXOLock.acquire [("a"%string, 0); ("b"%string, 20000000)]
                        40000000 "c")) "b" = Some 20000000.
Proof.
  assert (Hwf : PyDict.wf [("a"%string, 0); ("b"%string, 20000000)]).
  { repeat constructor; simpl; intuition discriminate. }
  pose proof (acquire_frame [("a"%string, 0); ("b"%string, 20000000)] 40000000
                "c" "a" Hwf) as (_ & Ha & _).
  pose proof (acquire_frame [("a"%string, 0); ("b"%string, 20000000)] 40000000
                "c" "b" Hwf) as (_ & Hb & _).
  split; [rewrite Ha | rewrite Hb]; try discriminate; reflexivity.
Defined.

(** X10: Releasing a lock makes the UTXO immediately available again and
    touches no other lock; releasing a UTXO that is not locked changes
    nothing. *)
Theorem release_then_acquire (_locks : UTXOLock.locks) (now : Z)
    (utxo_id other : string) :
  PyDict.wf _locks ->
  snd (UTXOLock.acquire (UTXOLock.release _locks utxo_id) now utxo_id) = true
  /\ (other <> utxo_id ->
      PyDict.get (UTXOLock.release _locks utxo_id) other = PyDict.get _locks other)
  /\ (PyDict.get _locks utxo_id = None -> UTXOLock.release _locks utxo_id = _locks).
Proof.
  intros Hwf. unfold UTXOLock.release. split; [|split].
  - rewrite acquire_result by (apply wf_pop, Hwf).
    rewrite get_pop_same by exact Hwf. reflexivity.
  - intros Hne. apply get_pop_other. exact Hne.
  - apply pop_absent.
Qed.

Lemma release_then_acquire_witness :
  snd (UTXOLock.acquire (UTXOLock.release [("a"%string, 0)] "a") 1 "a") = true.
Proof.
  apply (release_then_acquire [("a"%string, 0)] 1 "a" "a").
  repeat constructor. simpl. tauto.
Defined.

(** ** The coordinator *)

(** X11: [assemble_supply_transaction] always ends with the reserve's UTXO
    unlocked, and a transaction id is returned only if the lock was
    taken.  In particular, when the UTXO is locked by someone else and
    the lock is still young at both attempts, the call returns nothing,
    leaves [reserve.utxo_id] alone and nevertheless removes that other
    holder's lock on its way out. *)
Theorem assemble_supply_transaction_unlocks (_locks : UTXOLock.locks)
    (now later : Z) (reserve_utxo_id asset_id : string)
    (broadcast : result (option string)) (commit : result unit) :
  PyDict.wf _locks ->
  let outcome :=
    CoordinatorService.assemble_supply_transaction
      _locks now later reserve_utxo_id asset_id broadcast commit in
  let utxo_id := lock_key reserve_utxo_id asset_id in
  PyDict.wf (fst (fst outcome))
  /\ PyDict.get (fst (fst outcome)) utxo_id = None
  /\ (forall lock_time,
        PyDict.get _locks utxo_id = Some lock_time ->
        now - lock_time <= 30 * 1000000 ->
        later - lock_time <= 30 * 1000000 ->
        snd outcome = None /\ snd (fst outcome) = reserve_utxo_id).
Proof.
  intros Hwf outcome utxo_id. subst outcome.
  unfold CoordinatorService.assemble_supply_transaction.
  fold (lock_key reserve_utxo_id asset_id). fold utxo_id.
  pose proof (acquire_wf _locks now utxo_id Hwf) as Hwf1.
  pose proof (acquire_result _locks now utxo_id Hwf) as Hr1.
  pose proof (acquire_get _locks now utxo_id utxo_id Hwf) as Hg1.
  rewrite String.eqb_refl in Hg1.
  destruct (UTXOLock.acquire _locks now utxo_id) as [l1 a1].
  simpl in Hwf1, Hr1, Hg1.
  pose proof (acquire_wf l1 later utxo_id Hwf1) as Hwf2.
  pose proof (acquire_result l1 later utxo_id Hwf1) as Hr2.
  destruct (UTXOLock.acquire l1 later utxo_id) as [l2 a2].
  simpl in Hwf2, Hr2.
  assert (Hfinal : forall l, PyDict.wf l ->
            PyDict.wf (UTXOLock.release l utxo_id)
            /\ PyDict.get (UTXOLock.release l utxo_id) utxo_id = None).
  { intros l Hl. split; [apply wf_pop, Hl | apply get_pop_same, Hl]. }
  assert (Hheld : forall lock_time,
            PyDict.get _locks utxo_id = Some lock_time ->
            now - lock_time <= 30 * 1000000 ->
            later - lock_time <= 30 * 1000000 ->
            a1 = false /\ a2 = false).
  { intros t Hget Hnow Hlater. rewrite Hget in Hr1, Hg1.
    unfold unexpired, UTXOLock._lock_timeout in Hr1, Hg1, Hr2.
    destruct (Z.gtb_spec (now - t) (30 * 1000000)) as [|_]; [lia|].
    rewrite Hg1 in Hr2.
    destruct (Z.gtb_spec (later - t) (30 * 1000000)) as [|_]; [lia|].
    split; assumption. }
  destruct a1.
  - destruct broadcast as [[tx_id|]|e];
      [destruct (CoordinatorService.nonempty tx_id); [destruct commit|]| |];
      cbn [fst snd]; (split; [apply Hfinal, Hwf1|]);
      (split; [apply Hfinal, Hwf1|]);
      intros t H1 H2 H3; destruct (Hheld t H1 H2 H3); discriminate.
  - destruct a2.
    + destruct broadcast as [[tx_id|]|e];
        [destruct (CoordinatorService.nonempty tx_id); [destruct commit|]| |];
        cbn [fst snd]; (split; [apply Hfinal, Hwf2|]);
        (split; [apply Hfinal, Hwf2|]);
        intros t H1 H2 H3; destruct (Hheld t H1 H2 H3); discriminate.
    + cbn [fst snd]. split; [apply Hfinal, Hwf2|].
      split; [apply Hfinal, Hwf2|]. intros; split; reflexivity.
Qed.

Lemma assemble_supply_transaction_unlocks_witness :
  let outcome :=
    CoordinatorService.assemble_supply_transaction
      [("utxo_ab_0"%string, 0)] 1000000 1500000 "utxo_ab_0"
      "btc_asset_id_placeholder" (Ok (Some "cd"%string)) (Ok tt) in
  PyDict.get (fst (fst outcome)) "utxo_ab_0" = None
  /\ snd outcome = None.
Proof.
  pose proof (assemble_supply_transaction_unlocks
                [("utxo_ab_0"%string, 0)] 1000000 1500000 "utxo_ab_0"
                "btc_asset_id_placeholder" (Ok (Some "cd"%string)) (Ok tt)) as H.
  destruct H as (_ & Hget & Hheld).
  - repeat constructor. simpl. tauto.
  - split; [exact Hget|].
    apply (Hheld 0); [reflexivity | lia | lia].
Defined.

(** ** The price cache *)

Lemma get_price_cases (table : PyDict.t Z)
    (_price_cache : PyDict.t OraclePriceCache.PriceFeed) (now : Z) (asset_id : string) :
  (exists cached,
     PyDict.get _price_cache asset_id = Some cached
     /\ now - OraclePriceCache.timestamp cached <= 60 * 1000000
     /\ OraclePriceCache.get_price table _price_cache now asset_id
        = (_price_cache, Some cached))
  \/ (exists p,
        PyDict.get table asset_id = Some p
        /\ OraclePriceCache.get_price table _price_cache now asset_id
           = (PyDict.set _price_cache asset_id (OraclePriceCache.mkPriceFeed p now),
              Some (OraclePriceCache.mkPriceFeed p now)))
  \/ (PyDict.get table asset_id = None
      /\ OraclePriceCache.get_price table _price_cache now asset_id
         = (_price_cache, None)).
Proof.
  unfold OraclePriceCache.get_price, OraclePriceCache._fetch_price, PyDict.mem,
    OraclePriceCache.is_stale, OraclePriceCache._cache_ttl.
  assert (Hfetch :
    (exists p, PyDict.get table asset_id = Some p
       /\ match match PyDict.get table asset_id with
                | Some p => Some (OraclePriceCache.mkPriceFeed p now)
                | None => None
                end with
          | Some price_feed =>
              (PyDict.set _price_cache asset_id price_feed, Some price_feed)
          | None => (_price_cache, None)
          end
          = (PyDict.set _price_cache asset_id (OraclePriceCache.mkPriceFeed p now),
             Some (OraclePriceCache.mkPriceFeed p now)))
    \/ (PyDict.get table asset_id = None
        /\ match match PyDict.get table asset_id with
                 | Some p => Some (OraclePriceCache.mkPriceFeed p now)
                 | None => None
                 end with
           | Some price_feed =>
               (PyDict.set _price_cache asset_id price_feed, Some price_feed)
           | None => (_price_cache, None)
           end = (_price_cache, None))).
  { destruct (PyDict.get table asset_id) as [p|]; [left; eauto | right; eauto]. }
  destruct (PyDict.get _price_cache asset_id) as [cached|] eqn:Ec.
  - destruct (Z.gtb_spec (now - OraclePriceCache.timestamp cached) (60 * 1000000))
      as [Hstale|Hfresh]; cbn [negb].
    + right. destruct (PyDict.get table asset_id) as [p|]; [left; eauto | right; eauto].
    + left. exists cached. repeat split; [lia].
  - right. destruct (PyDict.get table asset_id) as [p|]; [left; eauto | right; eauto].
Qed.

Lemma get_asset_value_coherent (table : PyDict.t Z)
    (_price_cache : PyDict.t OraclePriceCache.PriceFeed)
    (now now' amount : Z) (asset_id : string) :
  OraclePriceCache.coherent table _price_cache ->
  now' - now <= 240 * 1000000 ->
  snd (OraclePriceCache.get_asset_value table _price_cache now now' amount asset_id)
  = option_map (OracleService.calculate_value amount) (PyDict.get table asset_id)
  /\ OraclePriceCache.coherent table
       (fst (OraclePriceCache.get_asset_value table _price_cache now now'
               amount asset_id)).
Proof.
  intros Hcoh Hsoon. unfold OraclePriceCache.get_asset_value.
  destruct (get_price_cases table _price_cache now asset_id)
    as [(cached & Hc & Hfresh & ->) | [(p & Hp & ->) | (Hnone & ->)]];
    unfold OraclePriceCache.is_stale.
  - destruct (Z.gtb_spec (now' - OraclePriceCache.timestamp cached) (300 * 1000000));
      [lia|].
    cbn [fst snd]. rewrite (Hcoh _ _ Hc). split; [reflexivity | exact Hcoh].
  - cbn [OraclePriceCache.timestamp OraclePriceCache.price].
    destruct (Z.gtb_spec (now' - now) (300 * 1000000)); [lia|].
    cbn [fst snd]. rewrite Hp. split; [reflexivity|].
    intros k pf. destruct (String.eqb_spec k asset_id) as [->|Hne].
    + rewrite get_set_same. intros [= <-]. exact Hp.
    + rewrite get_set_other by exact Hne. apply Hcoh.
  - cbn [fst snd]. rewrite Hnone. split; [reflexivity | exact Hcoh].
Qed.

(** X12: Behind the cache the price of an asset is always the table's: if
    every cached feed carries the table's price, then, provided the
    staleness test follows the lookup within 240 seconds, the value of
    an amount is computed from the table's price whenever the table
    lists the asset, whatever the age of the cached entries: the
    five-minute staleness guard of [get_asset_value] never fires.  The
    cache stays coherent. *)
Theorem cached_value_is_table_value (table : PyDict.t Z)
    (_price_cache : PyDict.t OraclePriceCache.PriceFeed)
    (now now' amount : Z) (asset_id : string) :
  OraclePriceCache.coherent table _price_cache ->
  now' - now <= 240 * 1000000 ->
  snd (OraclePriceCache.get_asset_value table _price_cache now now' amount asset_id)
  = option_map (OracleService.calculate_value amount) (PyDict.get table asset_id)
  /\ OraclePriceCache.coherent table
       (fst (OraclePriceCache.get_asset_value table _price_cache now now'
               amount asset_id)).
Proof. apply get_asset_value_coherent. Qed.

Lemma cached_value_is_table_value_witness :
  snd (OraclePriceCache.get_asset_value OraclePriceCache._SIMULATED_PRICES []
         50000000 50000001 100000000 "btc_asset_id_placeholder")
  = option_map (OracleService.calculate_value 100000000)
      (PyDict.get OraclePriceCache._SIMULATED_PRICES "btc_asset_id_placeholder").
Proof.
  apply (cached_value_is_table_value OraclePriceCache._SIMULATED_PRICES []
           50000000 50000001 100000000 "btc_asset_id_placeholder").
  - intros k pf H. discriminate H.
  - lia.
Defined.

(** X13: A feed handed out by [get_price] is at most 60 seconds old, is the
    one the cache holds afterwards, and is served again, with the
    cache untouched, by every lookup until it is more than 60 seconds
    old. *)
Theorem get_price_serves_from_cache (table : PyDict.t Z)
    (_price_cache : PyDict.t OraclePriceCache.PriceFeed)
    (now now2 : Z) (asset_id : string) (price_feed : OraclePriceCache.PriceFeed) :
  snd (OraclePriceCache.get_price table _price_cache now asset_id) = Some price_feed ->
  let _price_cache' := fst (OraclePriceCache.get_price table _price_cache now asset_id) in
  now - OraclePriceCache.timestamp price_feed <= 60 * 1000000
  /\ PyDict.get _price_cache' asset_id = Some price_feed
  /\ (now2 - OraclePriceCache.timestamp price_feed <= 60 * 1000000 ->
      OraclePriceCache.get_price table _price_cache' now2 asset_id
      = (_price_cache', Some price_feed)).
Proof.
  intros Hret cache'. subst cache'.
  assert (Hhit : forall c, PyDict.get c asset_id = Some price_feed ->
            now2 - OraclePriceCache.timestamp price_feed <= 60 * 1000000 ->
            OraclePriceCache.get_price table c now2 asset_id = (c, Some price_feed)).
  { intros c Hc Hfresh.
    destruct (get_price_cases table c now2 asset_id)
      as [(cached & Hc' & _ & ->) | [(p & Hp & Heq) | (Hnone & Heq)]].
    - congruence.
    - revert Heq. unfold OraclePriceCache.get_price, PyDict.mem,
        OraclePriceCache.is_stale, OraclePriceCache._cache_ttl.
      rewrite Hc.
      destruct (Z.gtb_spec (now2 - OraclePriceCache.timestamp price_feed)
                  (60 * 1000000)); [lia | reflexivity].
    - revert Heq. unfold OraclePriceCache.get_price, PyDict.mem,
        OraclePriceCache.is_stale, OraclePriceCache._cache_ttl.
      rewrite Hc.
      destruct (Z.gtb_spec (now2 - OraclePriceCache.timestamp price_feed)
                  (60 * 1000000)); [lia | reflexivity]. }
  destruct (get_price_cases table _price_cache now asset_id)
    as [(cached & Hc & Hfresh & Heq) | [(p & Hp & Heq) | (Hnone & Heq)]];
    rewrite Heq in *; cbn [fst snd] in *.
  - injection Hret as <-. split; [exact Hfresh|]. split; [exact Hc|].
    apply Hhit. exact Hc.
  - injection Hret as <-. cbn [OraclePriceCache.timestamp].
    split; [lia|]. split; [apply get_set_same|].
    intros H. apply Hhit; [apply get_set_same | exact H].
  - discriminate.
Qed.

Lemma get_price_serves_from_cache_witness :
  OraclePriceCache.get_price OraclePriceCache._SIMULATED_PRICES
    (fst (OraclePriceCache.get_price OraclePriceCache._SIMULATED_PRICES [] 5
            "usdt_asset_id_placeholder"))
    59000000 "usdt_asset_id_placeholder"
  = (fst (OraclePriceCache.get_price OraclePriceCache._SIMULATED_PRICES [] 5
            "usdt_asset_id_placeholder"),
     Some (OraclePriceCache.mkPriceFeed (1 * RAY) 5)).
Proof.
  apply (get_price_serves_from_cache OraclePriceCache._SIMULATED_PRICES [] 5
           59000000 "usdt_asset_id_placeholder"
           (OraclePriceCache.mkPriceFeed (1 * RAY) 5)).
  - vm_compute. reflexivity.
  - cbn [OraclePriceCache.timestamp]. lia.
Defined.

Lemma simulated_table (amount : Z) (asset_id : string) :
  OracleService.get_asset_value OracleService.simulated amount asset_id
  = option_map (OracleService.calculate_value amount)
      (PyDict.get OraclePriceCache._SIMULATED_PRICES asset_id).
Proof.
  unfold OracleService.get_asset_value, OracleService.simulated,
    OraclePriceCache._SIMULATED_PRICES. cbn [PyDict.get].
  rewrite (String.eqb_sym "btc_asset_id_placeholder" asset_id).
  rewrite (String.eqb_sym "usdt_asset_id_placeholder" asset_id).
  destruct (String.eqb asset_id "btc_asset_id_placeholder"); [reflexivity|].
  destruct (String.eqb asset_id "usdt_asset_id_placeholder"); reflexivity.
Qed.

(** X14: The always-fresh simulated oracle is what the cached oracle of the
    code computes over [_SIMULATED_PRICES]: from any coherent cache,
    with the staleness test within 240 seconds of the lookup, both
    give the same value for every amount and asset. *)
Theorem simulated_oracle_is_cached_oracle
    (_price_cache : PyDict.t OraclePriceCache.PriceFeed)
    (now now' amount : Z) (asset_id : string) :
  OraclePriceCache.coherent OraclePriceCache._SIMULATED_PRICES _price_cache ->
  now' - now <= 240 * 1000000 ->
  snd (OraclePriceCache.get_asset_value OraclePriceCache._SIMULATED_PRICES
         _price_cache now now' amount asset_id)
  = OracleService.get_asset_value OracleService.simulated amount asset_id.
Proof.
  intros Hcoh Hsoon. rewrite simulated_table.
  apply get_asset_value_coherent; assumption.
Qed.

Lemma simulated_oracle_is_cached_oracle_witness :
  snd (OraclePriceCache.get_asset_value OraclePriceCache._SIMULATED_PRICES []
         0 1000000 5000 "usdt_asset_id_placeholder")
  = OracleService.get_asset_value OracleService.simulated 5000
      "usdt_asset_id_placeholder".
Proof.
  apply (simulated_oracle_is_cached_oracle [] 0 1000000 5000
           "usdt_asset_id_placeholder").
  - intros k pf H. discriminate H.
  - lia.
Defined.

(** ** Shares and underlying amounts *)

(** X15: Minting shares for an amount and valuing them at the same index
    never gives more than the amount, and loses at most
    [index / RAY + 2] units of it. *)
Theorem atoken_round_trip (underlying_amount liquidity_index : Z) :
  0 <= underlying_amount ->
  0 < liquidity_index <= RAY * RAY ->
  exists atoken_amount,
    InterestCalculator.calculate_atoken_amount underlying_amount liquidity_index
    = Ok atoken_amount
    /\ 0 <= atoken_amount
    /\ InterestCalculator.calculate_underlying_amount atoken_amount liquidity_index
       <= underlying_amount
    /\ underlying_amount
       - InterestCalculator.calculate_underlying_amount atoken_amount liquidity_index
       <= liquidity_index / RAY + 2.
Proof.
  intros Hx [HL HLmax]. pose proof RAY_pos as HR.
  unfold InterestCalculator.calculate_atoken_amount,
    InterestCalculator.calculate_underlying_amount.
  rewrite ray_div_scaled_quotient by exact HL. rewrite bind_Ok.
  unfold scaled_quotient.
  set (x := underlying_amount) in *. set (L := liquidity_index) in *.
  set (q := (x * RAY * RAY + L / 2) / L).
  set (a := q / RAY).
  eexists. split; [reflexivity|].
  rewrite ray_mul_scaled.
  set (u := a * L / RAY).
  assert (Hhalf : 0 <= L / 2 < L).
  { split; [apply Z.div_pos; lia | apply Z.div_lt; lia]. }
  assert (Hq : q * L <= x * RAY * RAY + L / 2 < q * L + L).
  { pose proof (Z.div_mod (x * RAY * RAY + L / 2) L ltac:(lia)) as Hdm.
    pose proof (Z.mod_pos_bound (x * RAY * RAY + L / 2) L HL) as Hm.
    fold q in Hdm. lia. }
  assert (Hq0 : 0 <= q).
  { apply Z.div_pos; [|lia]. nia. }
  assert (Ha : a * RAY <= q < a * RAY + RAY).
  { pose proof (Z.div_mod q RAY ltac:(lia)) as Hdm.
    pose proof (Z.mod_pos_bound q RAY HR) as Hm.
    fold a in Hdm. lia. }
  assert (Ha0 : 0 <= a) by (apply Z.div_pos; lia).
  assert (Hu : u * RAY <= a * L < u * RAY + RAY).
  { pose proof (Z.div_mod (a * L) RAY ltac:(lia)) as Hdm.
    pose proof (Z.mod_pos_bound (a * L) RAY HR) as Hm.
    fold u in Hdm. lia. }
  split; [exact Ha0|]. split.
  - assert (a * L * RAY < (x + 1) * RAY * RAY) by nia.
    assert (a * L < (x + 1) * RAY) by nia.
    nia.
  - assert (H1 : x * RAY * RAY < a * L * RAY + RAY * L + L) by nia.
    assert (H2 : (x - u) * RAY * RAY < RAY * L + L + RAY * RAY) by nia.
    assert (H3 : (x - u - 2) * RAY < L) by nia.
    assert (x - u - 2 <= L / RAY); [|lia].
    apply Z.div_le_lower_bound; [lia|]. nia.
Qed.

Lemma atoken_round_trip_witness :
  exists atoken_amount,
    InterestCalculator.calculate_atoken_amount 1000 (RAY + RAY / 3) = Ok atoken_amount
    /\ InterestCalculator.calculate_underlying_amount atoken_amount (RAY + RAY / 3)
       <= 1000.
Proof.
  destruct (atoken_round_trip 1000 (RAY + RAY / 3)) as (a & H & _ & Hle & _).
  - lia.
  - split; [reflexivity | apply Z.leb_le; reflexivity].
  - exists a. split; assumption.
Defined.

(** ** Users *)

Lemma next_id_above (ids : list Z) : forall i, In i ids -> i < Db.next_id ids.
Proof.
  unfold Db.next_id. induction ids as [|j ids IH]; intros i Hin.
  - contradiction.
  - cbn [fold_right].
    pose proof (Z.le_max_l j (fold_right Z.max 0 ids)).
    pose proof (Z.le_max_r j (fold_right Z.max 0 ids)).
    destruct Hin as [->|Hin]; [lia|]. specialize (IH i Hin). lia.
Qed.

Lemma next_id_fresh (ids : list Z) : ~ In (Db.next_id ids) ids.
Proof. intros Hin. apply next_id_above in Hin. lia. Qed.

Lemma find_app_last {A : Type} (f : A -> bool) (l : list A) (x : A) :
  find f (l ++ [x])
  = match find f l with
    | Some y => Some y
    | None => if f x then Some x else None
    end.
Proof.
  induction l as [|y l IH]; simpl; [reflexivity|].
  destruct (f y); [reflexivity | exact IH].
Qed.

Lemma get_or_create_user_address (us : list User.t) (address : string) :
  User.address (snd (Db.get_or_create_user us address)) = address.
Proof.
  unfold Db.get_or_create_user.
  destruct (Db.user_by_address us address) as [u|] eqn:E; cbn [fst snd].
  - unfold Db.user_by_address in E. apply find_some in E.
    apply String.eqb_eq, E.
  - reflexivity.
Qed.

(** X16: One address, one user: [_get_or_create_user] returns a user of the
    given address that the table holds afterwards, a second call
    returns the same user and adds nothing, users of other addresses
    are found as before, and a user that had to be created has an id
    no other user has. *)
Theorem get_or_create_user_idempotent (us : list User.t) (address : string) :
  let us1 := fst (Db.get_or_create_user us address) in
  let user := snd (Db.get_or_create_user us address) in
  User.address user = address
  /\ Db.user_by_address us1 address = Some user
  /\ Db.get_or_create_user us1 address = (us1, user)
  /\ (forall other, other <> address ->
        Db.user_by_address us1 other = Db.user_by_address us other)
  /\ (Db.user_by_address us address = None ->
      ~ In (User.id user) (map User.id us) /\ us1 = us ++ [user]).
Proof.
  unfold Db.get_or_create_user.
  destruct (Db.user_by_address us address) as [u|] eqn:E; cbn [fst snd].
  - split.
    { unfold Db.user_by_address in E. apply find_some in E.
      apply String.eqb_eq, E. }
    split; [exact E|]. rewrite E.
    split; [reflexivity|]. split; [reflexivity | discriminate].
  - assert (Hfound :
      Db.user_by_address
        (us ++ [User.mk (Db.next_id (map User.id us)) address None]) address
      = Some (User.mk (Db.next_id (map User.id us)) address None)).
    { unfold Db.user_by_address in *. rewrite find_app_last, E.
      cbn [User.address]. rewrite String.eqb_refl. reflexivity. }
    split; [reflexivity|]. split; [exact Hfound|]. rewrite Hfound.
    split; [reflexivity|]. split.
    + intros other Hne. unfold Db.user_by_address. rewrite find_app_last.
      destruct (find _ us); [reflexivity|].
      cbn [User.address]. destruct (String.eqb_spec address other); congruence.
    + intros _. split; [apply next_id_fresh | reflexivity].
Qed.

Lemma get_or_create_user_idempotent_witness :
  ~ In (User.id (snd (Db.get_or_create_user [User.mk 1 "alice" None] "bob")))
       (map User.id [User.mk 1 "alice" None]).
Proof.
  apply (get_or_create_user_idempotent [User.mk 1 "alice" None] "bob").
  reflexivity.
Defined.

(** ** The sweep for liquidatable positions *)

Lemma update_borrow_index_cases (r : ReserveState.t) (now : Z) :
  (now <= ReserveState.last_update_timestamp r
   /\ DebtService._update_borrow_index r now = Ok r)
  \/ (ReserveState.last_update_timestamp r < now
      /\ DebtService._update_borrow_index r now = Raise AttributeError).
Proof.
  destruct (Z_le_gt_dec now (ReserveState.last_update_timestamp r)) as [H|H].
  - left. split; [exact H | apply update_borrow_index_now, H].
  - right. split; [lia | apply update_borrow_index_raises; lia].
Qed.

Lemma ray_div_truthy (a : Z) (v : option Z) :
  truthy v = true -> ray_div a (or_zero v) = Ok (scaled_quotient a (or_zero v)).
Proof.
  destruct v as [x|]; cbn [truthy or_zero]; [|discriminate].
  intros H. apply ray_div_ok. intros ->. discriminate.
Qed.

Lemma unhealthy_functional oracle now rs p d hf d' hf' :
  unhealthy oracle now rs p d hf -> unhealthy oracle now rs p d' hf' ->
  d' = d /\ hf' = hf.
Proof.
  intros (r & Hr & Hd & Hhf & _) (r' & Hr' & Hd' & Hhf' & _).
  rewrite Hr in Hr'. injection Hr' as <-.
  rewrite Hd in Hd'. rewrite Hhf in Hhf'.
  split; congruence.
Qed.

Lemma sweep_cons oracle now users rs p rest acc :
  up_to_date now rs ->
  (exists d hf,
     unhealthy oracle now rs p d hf
     /\ DebtService_rest.sweep oracle now users (p :: rest) rs acc
        = DebtService_rest.sweep oracle now users rest rs
            (acc ++ [listing users p d hf]))
  \/ ((forall d hf, ~ unhealthy oracle now rs p d hf)
      /\ DebtService_rest.sweep oracle now users (p :: rest) rs acc
         = DebtService_rest.sweep oracle now users rest rs acc).
Proof.
  intros Hup. cbn [DebtService_rest.sweep]. unfold unhealthy.
  unfold DebtService.get_position_health_factor.
  destruct (DebtService._get_reserve_state rs (DebtPosition.borrowed_asset_id p))
    as [r|] eqn:Hr.
  2:{ right. split; [|reflexivity]. intros d hf (r & Hr' & _). discriminate. }
  pose proof (up_to_date_lookup _ _ _ _ Hup Hr) as Hts.
  rewrite (update_borrow_index_now r now Hts), !bind_Ok.
  rewrite (put_reserve_same rs _ r Hr).
  destruct (current_debt_returns p (ReserveState.variable_borrow_index r))
    as [d Hd].
  rewrite Hd, !bind_Ok.
  destruct (d <=? 0) eqn:Hd0.
  { right. split; [|reflexivity].
    intros d' hf' (r' & Hr' & Hd' & Hhf & _). discriminate. }
  set (debt_value := OracleService.get_asset_value oracle d
                       (DebtPosition.borrowed_asset_id p)).
  set (collateral_value := OracleService.get_asset_value oracle
                             (DebtPosition.collateral_amount p)
                             (DebtPosition.collateral_asset_id p)).
  destruct (truthy debt_value) eqn:Htd; cbn [negb orb].
  2:{ right. split; [|reflexivity].
      intros d' hf' (r' & Hr' & Hd' & Hhf & _). discriminate. }
  destruct (truthy collateral_value) eqn:Htc; cbn [negb].
  2:{ right. split; [|reflexivity].
      intros d' hf' (r' & Hr' & Hd' & Hhf & _). discriminate. }
  rewrite (ray_div_truthy _ debt_value Htd), !bind_Ok.
  set (hf := scaled_quotient _ (or_zero debt_value)).
  destruct (Z.ltb_spec hf RAY) as [Hlt|Hge].
  - left. exists d, hf. split; [|reflexivity].
    exists r. repeat split; try reflexivity; assumption.
  - right. split; [|reflexivity].
    intros d' hf' (r' & Hr' & Hd' & Hhf & Hlt).
    injection Hhf as <-. lia.
Qed.

Lemma sweep_spec oracle now users rs :
  up_to_date now rs ->
  forall positions acc,
  exists l,
    DebtService_rest.sweep oracle now users positions rs acc = Ok (rs, acc ++ l)
    /\ forall e,
         In e l <->
         exists p d hf,
           In p positions /\ unhealthy oracle now rs p d hf
           /\ e = listing users p d hf.
Proof.
  intros Hup. induction positions as [|p rest IH]; intros acc.
  - exists []. rewrite app_nil_r. split; [reflexivity|].
    intros e. split; [intros [] | intros (p & d & hf & [] & _)].
  - destruct (sweep_cons oracle now users rs p rest acc Hup)
      as [(d & hf & Hun & ->) | (Hnot & ->)].
    + destruct (IH (acc ++ [listing users p d hf])) as (l & -> & Hl).
      exists (listing users p d hf :: l).
      rewrite <- app_assoc. split; [reflexivity|].
      intros e. split.
      * intros [<-|Hin].
        -- exists p, d, hf. split; [left; reflexivity|]. split; [exact Hun | reflexivity].
        -- apply Hl in Hin. destruct Hin as (p' & d' & hf' & Hin & Hrest).
           exists p', d', hf'. split; [right; exact Hin | exact Hrest].
      * intros (p' & d' & hf' & [<-|Hin] & Hun' & ->).
        -- destruct (unhealthy_functional _ _ _ _ _ _ _ _ Hun Hun') as [-> ->].
           left. reflexivity.
        -- right. apply Hl. exists p', d', hf'. repeat split; assumption.
    + destruct (IH acc) as (l & -> & Hl).
      exists l. split; [reflexivity|].
      intros e. rewrite Hl. split.
      * intros (p' & d' & hf' & Hin & Hrest).
        exists p', d', hf'. split; [right; exact Hin | exact Hrest].
      * intros (p' & d' & hf' & [<-|Hin] & Hun' & ->).
        -- exfalso. exact (Hnot _ _ Hun').
        -- exists p', d', hf'. repeat split; assumption.
Qed.

(** X17: While no reserve has a timestamp in the past, the sweep returns,
    leaves the reserves as they are, and lists exactly the positions
    whose reserve exists and whose health factor
    [get_position_health_factor] finds below 1, each with its current
    debt and that health factor. *)
Theorem sweep_lists_the_unhealthy (oracle : OracleService.t) (now : Z) (db : Db.t) :
  up_to_date now (Db.reserve_states db) ->
  exists liquidatable,
    DebtService_rest.get_liquidatable_positions oracle now db
    = Ok (Db.reserve_states db, liquidatable)
    /\ forall entry,
         In entry liquidatable <->
         exists position current_debt health_factor,
           In position (Db.debt_positions db)
           /\ unhealthy oracle now (Db.reserve_states db) position
                current_debt health_factor
           /\ entry = listing (Db.users db) position current_debt health_factor.
Proof.
  intros Hup. unfold DebtService_rest.get_liquidatable_positions.
  destruct (sweep_spec oracle now (Db.users db) (Db.reserve_states db) Hup
              (Db.debt_positions db) []) as (l & H & Hl).
  exists l. split; [exact H | exact Hl].
Qed.

Lemma sweep_lists_the_unhealthy_witness :
  exists liquidatable,
    DebtService_rest.get_liquidatable_positions underwater 1000 liquidation_db
    = Ok (Db.reserve_states liquidation_db, liquidatable).
Proof.
  destruct (sweep_lists_the_unhealthy underwater 1000 liquidation_db)
    as (l & H & _).
  - constructor; [apply Z.leb_le; reflexivity | constructor].
  - exists l. exact H.
Defined.

Lemma debt_by_id_NoDup (ps : list DebtPosition.t) (p : DebtPosition.t) :
  NoDup (map DebtPosition.id ps) -> In p ps ->
  Db.debt_by_id ps (DebtPosition.id p) = Some p.
Proof.
  unfold Db.debt_by_id. induction ps as [|x ps IH]; intros Hnd Hin.
  - contradiction.
  - cbn [map] in Hnd. inversion Hnd as [|? ? Hnotin Hnd']; subst.
    cbn [find]. destruct Hin as [->|Hin].
    + rewrite Z.eqb_refl. reflexivity.
    + destruct (Z.eqb_spec (DebtPosition.id x) (DebtPosition.id p)) as [E|_].
      * exfalso. apply Hnotin. rewrite E. apply in_map. exact Hin.
      * apply IH; assumption.
Qed.

Lemma unhealthy_debt_positive oracle now rs p d hf :
  up_to_date now rs -> unhealthy oracle now rs p d hf -> 0 < d.
Proof.
  intros Hup (r & Hr & Hd & Hhf & _).
  unfold DebtService.get_position_health_factor in Hhf.
  rewrite Hr in Hhf.
  rewrite (update_borrow_index_now r now (up_to_date_lookup _ _ _ _ Hup Hr)),
    bind_Ok in Hhf.
  rewrite Hd, bind_Ok in Hhf.
  destruct (Z.leb_spec d 0); [discriminate | assumption].
Qed.

(** X18: the sweep and [liquidate] agree.  While no reserve has a
    timestamp in the past, ids are unique and every position has its
    owner, the positions the sweep lists are exactly those on which
    [liquidate] gets as far as its commit, whoever liquidates and
    whatever amount is offered; on each of them [liquidate] then
    either returns or raises the [ValueError] of its last log line. *)
Theorem sweep_agrees_with_liquidate (oracle : OracleService.t) (now : Z)
    (db : Db.t) (liquidator_address : string) (repay_amount : option Z) :
  up_to_date now (Db.reserve_states db) ->
  debts_wf db ->
  exists liquidatable,
    DebtService_rest.get_liquidatable_positions oracle now db
    = Ok (Db.reserve_states db, liquidatable)
    /\ (forall position_id,
          In position_id (map DebtService_rest.position_id liquidatable) <->
          exists db2 user repaid seized,
            DebtService.liquidate_to_commit oracle now db liquidator_address
              position_id repay_amount = Ok (db2, user, repaid, seized))
    /\ (forall position_id,
          In position_id (map DebtService_rest.position_id liquidatable) ->
          (exists db2 res,
             DebtService.liquidate oracle now db liquidator_address position_id
               repay_amount = Ok (db2, res))
          \/ DebtService.liquidate oracle now db liquidator_address position_id
               repay_amount = Raise (ValueError UnknownFormatCode)).
Proof.
  intros Hup [Hnd Howners]. unfold DebtService_rest.get_liquidatable_positions.
  destruct (sweep_spec oracle now (Db.users db) (Db.reserve_states db) Hup
              (Db.debt_positions db) []) as (l & H & Hl).
  exists l. split; [exact H|].
  assert (Hcommits : forall pid,
            In pid (map DebtService_rest.position_id l) ->
            exists db2 user repaid seized,
              DebtService.liquidate_to_commit oracle now db liquidator_address
                pid repay_amount = Ok (db2, user, repaid, seized)
              /\ up_to_date now (Db.reserve_states db2)).
  { intros pid Hin. apply in_map_iff in Hin. destruct Hin as (e & <- & Hin).
    apply Hl in Hin. destruct Hin as (p & d & hf & Hin & Hun & ->).
    cbn [listing DebtService_rest.position_id].
    pose proof (unhealthy_debt_positive _ _ _ _ _ _ Hup Hun) as Hd.
    destruct Hun as (r & Hr & Hdebt & Hhf & Hlt).
    rewrite Forall_forall in Howners. specialize (Howners p Hin).
    destruct (Db.user_by_id (Db.users db) (DebtPosition.user_id p)) as [u|] eqn:Hu;
      [|contradiction].
    destruct (liquidate_to_commit_returns oracle now db liquidator_address
                (DebtPosition.id p) repay_amount p u r d hf
                (debt_by_id_NoDup _ _ Hnd Hin) Hu Hr Hup Hdebt Hd Hhf Hlt)
      as (db2 & repaid & seized & hf1 & Hc & Hall2 & _).
    exists db2, u, repaid, seized. split; assumption. }
  split.
  - intros pid. split.
    + intros Hin. destruct (Hcommits pid Hin) as (db2 & u & rp & sz & Hc & _).
      exists db2, u, rp, sz. exact Hc.
    + intros (db2 & u & rp & sz & Hc).
      destruct (liquidate_to_commit_inv _ _ _ _ _ _ _ _ _ _ Hc)
        as (p & r & d & hf & Hp & Hu & Hr & _ & Hd & Hd0 & Hhf & Hlt & _).
      apply in_map_iff.
      exists (listing (Db.users db) p d hf). split.
      * cbn [listing DebtService_rest.position_id].
        apply debt_by_id_key in Hp. exact Hp.
      * apply Hl. exists p, d, hf. split; [|split; [|reflexivity]].
        -- unfold Db.debt_by_id in Hp. apply find_some in Hp. apply Hp.
        -- exists r. repeat split; assumption.
  - intros pid Hin. destruct (Hcommits pid Hin) as (db2 & u & rp & sz & Hc & Hall2).
    destruct (liquidate_outcome _ _ _ _ _ _ _ _ _ _ Hc Hall2) as [[res Hres]|Hraise].
    + left. exists db2, res. exact Hres.
    + right. exact Hraise.
Qed.

Lemma sweep_agrees_with_liquidate_witness :
  exists liquidatable,
    DebtService_rest.get_liquidatable_positions underwater 1000 liquidation_db
    = Ok (Db.reserve_states liquidation_db, liquidatable)
    /\ forall position_id,
         In position_id (map DebtService_rest.position_id liquidatable) <->
         exists db2 user repaid seized,
           DebtService.liquidate_to_commit underwater 1000 liquidation_db "carol"
             position_id None = Ok (db2, user, repaid, seized).
Proof.
  destruct (sweep_agrees_with_liquidate underwater 1000 liquidation_db "carol" None)
    as (l & H & Hiff & _).
  - constructor; [apply Z.leb_le; reflexivity | constructor].
  - split.
    + repeat constructor; simpl; intuition discriminate.
    + repeat constructor; discriminate.
  - exists l. split; [exact H | exact Hiff].
Defined.

(** X19: Once a second has passed since a borrowed reserve was last
    updated, nothing in the debt service gets past it: the health
    factor of a position on that reserve, its liquidation and the
    sweep over all positions raise [AttributeError]. *)
Theorem debt_service_needs_fresh_reserve (oracle : OracleService.t) (now : Z)
    (db : Db.t) (position : DebtPosition.t) (reserve : ReserveState.t) :
  In position (Db.debt_positions db) ->
  DebtService._get_reserve_state (Db.reserve_states db)
    (DebtPosition.borrowed_asset_id position) = Some reserve ->
  ReserveState.last_update_timestamp reserve < now ->
  DebtService.get_position_health_factor oracle now (Db.reserve_states db) position
  = Raise AttributeError
  /\ DebtService_rest.get_liquidatable_positions oracle now db = Raise AttributeError
  /\ (forall liquidator_address repay_amount user,
        Db.debt_by_id (Db.debt_positions db) (DebtPosition.id position)
        = Some position ->
        Db.user_by_id (Db.users db) (DebtPosition.user_id position) = Some user ->
        DebtService.liquidate oracle now db liquidator_address
          (DebtPosition.id position) repay_amount
        = Raise AttributeError).
Proof.
  intros Hin Hr Hstale.
  pose proof (update_borrow_index_raises reserve now Hstale) as Hraise.
  split; [|split].
  - unfold DebtService.get_position_health_factor. rewrite Hr, Hraise. reflexivity.
  - unfold DebtService_rest.get_liquidatable_positions.
    generalize (@nil DebtService_rest.Liquidatable).
    revert Hin. generalize (Db.debt_positions db) as positions.
    induction positions as [|p rest IH]; intros Hin acc; [contradiction|].
    cbn [DebtService_rest.sweep].
    destruct Hin as [->|Hin].
    + rewrite Hr, Hraise. reflexivity.
    + destruct (DebtService._get_reserve_state (Db.reserve_states db)
                  (DebtPosition.borrowed_asset_id p)) as [r|] eqn:Hrp.
      2:{ apply IH, Hin. }
      destruct (update_borrow_index_cases r now) as [[_ ->]|[_ ->]];
        [|reflexivity].
      rewrite bind_Ok, (put_reserve_same _ _ r Hrp).
      destruct (current_debt_returns p (ReserveState.variable_borrow_index r))
        as [d ->].
      rewrite bind_Ok.
      destruct (d <=? 0); [apply IH, Hin|].
      destruct (truthy (OracleService.get_asset_value oracle d
                          (DebtPosition.borrowed_asset_id p))) eqn:Htd;
        cbn [negb orb]; [|apply IH, Hin].
      destruct (truthy (OracleService.get_asset_value oracle
                          (DebtPosition.collateral_amount p)
                          (DebtPosition.collateral_asset_id p)));
        cbn [negb]; [|apply IH, Hin].
      rewrite (ray_div_truthy _ _ Htd), bind_Ok.
      destruct (_ <? RAY); apply IH, Hin.
  - intros liquidator repay user Hp Hu.
    unfold DebtService.liquidate, DebtService.liquidate_to_commit.
    rewrite Hp. cbn [or_raise]. rewrite bind_Ok.
    rewrite Hu. cbn [or_raise]. rewrite bind_Ok.
    rewrite Hr. cbn [or_raise]. rewrite bind_Ok.
    rewrite Hraise. reflexivity.
Qed.

Lemma debt_service_needs_fresh_reserve_witness :
  DebtService_rest.get_liquidatable_positions underwater 1001 liquidation_db
  = Raise AttributeError.
Proof.
  apply (debt_service_needs_fresh_reserve underwater 1001 liquidation_db
           unhealthy_position (example_reserve 5000000 2000000 0 0)).
  - left. reflexivity.
  - reflexivity.
  - apply Z.ltb_lt. reflexivity.
Defined.

(** ** Borrowing and liquidation *)

Lemma truthy_inv (v : option Z) :
  truthy v = true -> exists x, v = Some x /\ x <> 0.
Proof.
  destruct v as [x|]; cbn [truthy]; [|discriminate].
  intros H. exists x. split; [reflexivity|]. intros ->. discriminate.
Qed.

Lemma raise_if_negb_truthy_inv (v : option Z) (e : exn) (u : unit) :
  raise_if (negb (truthy v)) e = Ok u -> exists x, v = Some x /\ x <> 0.
Proof.
  intros H. apply raise_if_inv in H. apply truthy_inv.
  destruct (truthy v); [reflexivity | discriminate].
Qed.

Lemma get_or_create_user_In (us : list User.t) (address : string) :
  In (snd (Db.get_or_create_user us address)) (fst (Db.get_or_create_user us address)).
Proof.
  unfold Db.get_or_create_user.
  destruct (Db.user_by_address us address) as [u|] eqn:E; cbn [fst snd].
  - unfold Db.user_by_address in E. apply find_some in E. apply E.
  - apply in_or_app. right. left. reflexivity.
Qed.

Lemma user_by_id_put (us : list User.t) (u u' : User.t) :
  In u us -> User.id u' = User.id u ->
  Db.user_by_id (Db.put_user u' us) (User.id u) = Some u'.
Proof.
  unfold Db.user_by_id. intros Hin Hid.
  induction us as [|x us IH]; [contradiction|].
  cbn [Db.put_user]. rewrite Hid.
  destruct (Z.eqb_spec (User.id x) (User.id u)) as [E|E].
  - cbn [find]. rewrite Hid, Z.eqb_refl. reflexivity.
  - cbn [find]. destruct (Z.eqb_spec (User.id x) (User.id u)); [contradiction|].
    apply IH. destruct Hin as [->|Hin]; [contradiction | exact Hin].
Qed.

Lemma update_user_health_factor_users oracle now db user db' :
  DebtService._update_user_health_factor oracle now db user = Ok db' ->
  exists hf,
    Db.users db' = Db.put_user (User.set_health_factor hf user) (Db.users db).
Proof.
  unfold DebtService._update_user_health_factor.
  intros H. apply bind_inv in H. destruct H as ([rs hf] & _ & H).
  injection H as <-. exists hf. reflexivity.
Qed.

Lemma debt_by_id_fresh (ps : list DebtPosition.t) (p : DebtPosition.t) :
  DebtPosition.id p = Db.next_id (map DebtPosition.id ps) ->
  Db.debt_by_id (ps ++ [p]) (DebtPosition.id p) = Some p.
Proof.
  intros Hid. unfold Db.debt_by_id. rewrite find_app_last.
  destruct (find _ ps) as [y|] eqn:E.
  - apply find_some in E. destruct E as [Hin E]. apply Z.eqb_eq in E.
    exfalso. apply (next_id_fresh (map DebtPosition.id ps)).
    rewrite <- Hid, <- E. apply in_map. exact Hin.
  - rewrite Z.eqb_refl. reflexivity.
Qed.

Lemma borrow_inv_full oracle now db user_address collateral_asset_id
    collateral_amount borrow_asset_id borrow_amount db' position :
  DebtService.borrow oracle now db user_address collateral_asset_id
    collateral_amount borrow_asset_id borrow_amount = Ok (db', position) ->
  exists user reserve collateral_value borrow_value,
    0 < collateral_amount /\ 0 < borrow_amount
    /\ OracleService.get_asset_value oracle collateral_amount collateral_asset_id
       = Some collateral_value
    /\ collateral_value <> 0
    /\ OracleService.get_asset_value oracle borrow_amount borrow_asset_id
       = Some borrow_value
    /\ borrow_value <> 0
    /\ borrow_value <= ray_mul collateral_value DebtService.LTV_BTC
    /\ DebtService._get_reserve_state (Db.reserve_states db) borrow_asset_id
       = Some reserve
    /\ borrow_amount <= ReserveState.total_liquidity reserve
    /\ now <= ReserveState.last_update_timestamp reserve
    /\ position
       = DebtPosition.mk (Db.next_id (map DebtPosition.id (Db.debt_positions db)))
           (User.id user) borrow_asset_id collateral_asset_id borrow_amount
           (ReserveState.variable_borrow_index reserve) collateral_amount
    /\ Db.reserve_states db'
       = Db.put_reserve
           (ReserveState.set_total_liquidity
              (ReserveState.total_liquidity reserve - borrow_amount)
              (ReserveState.set_total_borrowed
                 (ReserveState.total_borrowed reserve + borrow_amount) reserve))
           (Db.reserve_states db)
    /\ Db.debt_positions db' = Db.debt_positions db ++ [position]
    /\ Db.supply_positions db' = Db.supply_positions db
    /\ (exists user', Db.user_by_id (Db.users db') (User.id user) = Some user'
                      /\ User.address user' = user_address).
Proof.
  intros H. unfold DebtService.borrow in H.
  bind_step H u0 Hc. apply raise_if_inv in Hc. apply Z.leb_gt in Hc.
  bind_step H u1 Hb. apply raise_if_inv in Hb. apply Z.leb_gt in Hb.
  pose proof (get_or_create_user_In (Db.users db) user_address) as Huin.
  pose proof (get_or_create_user_address (Db.users db) user_address) as Haddr.
  destruct (Db.get_or_create_user (Db.users db) user_address) as [users1 user].
  cbn [fst snd] in Huin, Haddr.
  bind_step H u2 Hcv. apply raise_if_negb_truthy_inv in Hcv.
  destruct Hcv as (cv & Hcv & Hcv0).
  bind_step H u3 Hbv. apply raise_if_negb_truthy_inv in Hbv.
  destruct Hbv as (bv & Hbv & Hbv0).
  bind_step H u4 Hltv. apply raise_if_inv in Hltv.
  rewrite Hcv, Hbv in Hltv. cbn [or_zero] in Hltv.
  bind_step H reserve Hr. apply or_raise_inv in Hr.
  bind_step H u5 Hliq. apply raise_if_inv in Hliq. apply Z.ltb_ge in Hliq.
  bind_step H reserve' Hi.
  destruct (update_borrow_index_inv _ _ _ Hi) as [-> Hts].
  bind_step H db2 Hupd.
  destruct (update_user_health_factor_users _ _ _ _ _ Hupd) as [hf Husers].
  apply update_user_health_factor_frame in Hupd.
  destruct Hupd as (Hrs & Hdebts & Hsup).
  injection H as <- <-.
  exists user, reserve, cv, bv.
  assert (Hmax : bv <= ray_mul cv DebtService.LTV_BTC).
  { destruct (Z.gtb_spec bv (ray_mul cv DebtService.LTV_BTC)); [discriminate | lia]. }
  do 14 (split; [first [assumption | lia | reflexivity]|]).
  exists (User.set_health_factor hf user). split; [|exact Haddr].
  rewrite Husers. cbn [Db.users].
  apply user_by_id_put; [exact Huin | reflexivity].
Qed.

Lemma get_asset_value_nonneg oracle amount asset_id v :
  prices_non_negative oracle -> 0 <= amount ->
  OracleService.get_asset_value oracle amount asset_id = Some v -> 0 <= v.
Proof.
  intros Hp Ha. unfold OracleService.get_asset_value.
  destruct (oracle asset_id) as [pf|] eqn:E; [|discriminate].
  destruct (OracleService.is_stale pf 300); [discriminate|].
  intros [= <-]. unfold OracleService.calculate_value.
  apply Z.div_pos; [|lia].
  apply ray_mul_nonneg; [exact Ha | exact (Hp _ _ E)].
Qed.

Lemma current_debt_at_open (p : DebtPosition.t) :
  0 <= DebtPosition.borrow_index_at_open p ->
  DebtPosition.calculate_current_debt p (DebtPosition.borrow_index_at_open p)
  = Ok (DebtPosition.principal p).
Proof.
  intros H. unfold DebtPosition.calculate_current_debt.
  destruct (Z.eqb_spec (DebtPosition.borrow_index_at_open p) 0); [reflexivity|].
  rewrite ray_div_scaled_quotient by lia. rewrite bind_Ok.
  rewrite scaled_quotient_same by lia. rewrite ray_mul_RAY. reflexivity.
Qed.

Lemma LTV_below_threshold :
  0 <= DebtService.LTV_BTC <= DebtService.LIQUIDATION_THRESHOLD_BTC.
Proof. split; apply Z.leb_le; reflexivity. Qed.

Lemma health_factor_at_least_one (collateral_value borrow_value : Z) :
  0 <= collateral_value -> 0 < borrow_value ->
  borrow_value <= ray_mul collateral_value DebtService.LTV_BTC ->
  RAY <= scaled_quotient
           (ray_mul collateral_value DebtService.LIQUIDATION_THRESHOLD_BTC)
           borrow_value.
Proof.
  intros Hc Hb Hmax. pose proof RAY_pos as HR.
  pose proof LTV_below_threshold as [_ Hle].
  pose proof (ray_mul_mono_r collateral_value _ _ Hc Hle) as Hw.
  unfold scaled_quotient.
  apply Z.div_le_lower_bound; [exact Hb|].
  pose proof (Z.div_pos borrow_value 2 ltac:(lia) ltac:(lia)).
  nia.
Qed.

Lemma simulated_prices_non_negative : prices_non_negative OracleService.simulated.
Proof.
  intros asset_id pf. unfold OracleService.simulated.
  assert (Hprice : forall p a (pf' : OracleService.PriceFeed),
            Some (OracleService.mkPriceFeed p a) = Some pf' ->
            OracleService.price pf' = p).
  { intros p a pf' H.
    apply (f_equal (fun o => match o with
                             | Some x => OracleService.price x
                             | None => p
                             end)) in H.
    symmetry. exact H. }
  destruct (String.eqb asset_id "btc_asset_id_placeholder").
  - intros H. rewrite (Hprice _ _ _ H). apply Z.leb_le. reflexivity.
  - destruct (String.eqb asset_id "usdt_asset_id_placeholder"); [|discriminate].
    intros H. rewrite (Hprice _ _ _ H). apply Z.leb_le. reflexivity.
Qed.

(** X20: A position that [borrow] has just opened cannot be liquidated at
    that moment: with prices that are not negative and borrow indices
    that are not negative, [liquidate] on the new position raises
    "position is healthy", for every liquidator and amount. *)
Theorem fresh_borrow_is_not_liquidatable
    (oracle : OracleService.t) (now : Z) (db : Db.t)
    (user_address collateral_asset_id : string) (collateral_amount : Z)
    (borrow_asset_id : string) (borrow_amount : Z)
    (db' : Db.t) (position : DebtPosition.t)
    (liquidator_address : string) (repay_amount : option Z) :
  prices_non_negative oracle ->
  Forall accruing (Db.reserve_states db) ->
  DebtService.borrow oracle now db user_address collateral_asset_id
    collateral_amount borrow_asset_id borrow_amount = Ok (db', position) ->
  DebtService.liquidate oracle now db' liquidator_address
    (DebtPosition.id position) repay_amount
  = Raise (ValueError PositionIsHealthy).
Proof.
  intros Hprices Hacc Hborrow.
  destruct (borrow_inv_full _ _ _ _ _ _ _ _ _ _ Hborrow)
    as (user & reserve & cv & bv & Hc & Hb & Hcv & Hcv0 & Hbv & Hbv0 & Hmax
        & Hr & Hliq & Hts & Hpos & Hrs & Hdebts & Hsup & user' & Huser & _).
  assert (Hcv1 : 0 <= cv).
  { apply (get_asset_value_nonneg _ _ _ _ Hprices) in Hcv; [exact Hcv | lia]. }
  assert (Hbv1 : 0 <= bv).
  { apply (get_asset_value_nonneg _ _ _ _ Hprices) in Hbv; [exact Hbv | lia]. }
  assert (Hidx : 0 <= ReserveState.variable_borrow_index reserve).
  { rewrite Forall_forall in Hacc.
    apply (Hacc reserve (reserve_by_asset_In _ _ _ Hr)). }
  set (reserve' :=
         ReserveState.set_total_liquidity
           (ReserveState.total_liquidity reserve - borrow_amount)
           (ReserveState.set_total_borrowed
              (ReserveState.total_borrowed reserve + borrow_amount) reserve)) in *.
  assert (Hr' : DebtService._get_reserve_state (Db.reserve_states db') borrow_asset_id
                = Some reserve').
  { rewrite Hrs. apply (reserve_by_asset_put _ _ reserve); [exact Hr | reflexivity]. }
  assert (Hupd : DebtService._update_borrow_index reserve' now = Ok reserve').
  { apply update_borrow_index_now. exact Hts. }
  assert (Hdebt : DebtPosition.calculate_current_debt position
                    (ReserveState.variable_borrow_index reserve') = Ok borrow_amount).
  { rewrite Hpos.
    apply (current_debt_at_open
             (DebtPosition.mk _ _ _ _ borrow_amount
                (ReserveState.variable_borrow_index reserve) _)).
    exact Hidx. }
  assert (Hb_asset : DebtPosition.borrowed_asset_id position = borrow_asset_id)
    by (rewrite Hpos; reflexivity).
  assert (Hc_asset : DebtPosition.collateral_asset_id position = collateral_asset_id)
    by (rewrite Hpos; reflexivity).
  assert (Hc_amount : DebtPosition.collateral_amount position = collateral_amount)
    by (rewrite Hpos; reflexivity).
  assert (Huid : DebtPosition.user_id position = User.id user)
    by (rewrite Hpos; reflexivity).
  assert (Hfind : Db.debt_by_id (Db.debt_positions db') (DebtPosition.id position)
                  = Some position).
  { rewrite Hdebts. apply debt_by_id_fresh. rewrite Hpos. reflexivity. }
  assert (Hsame : Db.put_reserve reserve' (Db.reserve_states db')
                  = Db.reserve_states db').
  { apply (put_reserve_same _ borrow_asset_id). exact Hr'. }
  assert (Hhf : DebtService.get_position_health_factor oracle now
                  (Db.reserve_states db') position
                = Ok (Db.reserve_states db',
                      Some (scaled_quotient
                              (ray_mul cv DebtService.LIQUIDATION_THRESHOLD_BTC) bv))).
  { unfold DebtService.get_position_health_factor.
    rewrite Hb_asset, Hc_asset, Hc_amount, Hr', Hupd, bind_Ok, Hsame, Hdebt, bind_Ok.
    destruct (Z.leb_spec borrow_amount 0); [lia|].
    rewrite Hbv, Hcv. cbn [truthy or_zero].
    destruct (Z.eqb_spec bv 0); [contradiction|].
    destruct (Z.eqb_spec cv 0); [contradiction|].
    cbn [negb orb].
    rewrite ray_div_ok by assumption. rewrite bind_Ok. reflexivity. }
  unfold DebtService.liquidate, DebtService.liquidate_to_commit.
  rewrite Hfind. cbn [or_raise]. rewrite bind_Ok.
  rewrite Huid, Huser. cbn [or_raise]. rewrite bind_Ok.
  rewrite Hb_asset, Hr'. cbn [or_raise]. rewrite bind_Ok.
  rewrite Hupd, bind_Ok, Hsame, Hdebt, bind_Ok.
  destruct (Z.leb_spec borrow_amount 0); [lia|].
  cbn [raise_if]. rewrite bind_Ok.
  rewrite Hhf, bind_Ok. cbn [or_raise]. rewrite bind_Ok.
  pose proof (health_factor_at_least_one cv bv Hcv1 ltac:(lia) Hmax) as Hge.
  rewrite Z.geb_leb.
  destruct (Z.leb_spec RAY
              (scaled_quotient (ray_mul cv DebtService.LIQUIDATION_THRESHOLD_BTC) bv));
    [reflexivity | lia].
Qed.

Lemma fresh_borrow_is_not_liquidatable_witness :
  returns
    (DebtService.borrow OracleService.simulated 1000
       (example_db (example_reserve 5000000000 0 0 0) [] [])
       "bob" "btc_asset_id_placeholder" 100000000
       "usdt_asset_id_placeholder" 1000000000)
    (fun '(db', position) =>
       DebtService.liquidate OracleService.simulated 1000 db' "carol"
         (DebtPosition.id position) None
       = Raise (ValueError PositionIsHealthy)).
Proof.
  destruct (DebtService.borrow OracleService.simulated 1000
              (example_db (example_reserve 5000000000 0 0 0) [] [])
              "bob" "btc_asset_id_placeholder" 100000000
              "usdt_asset_id_placeholder" 1000000000)
    as [[db' position]|e] eqn:E.
  - cbn [returns].
    apply (fresh_borrow_is_not_liquidatable OracleService.simulated 1000
             (example_db (example_reserve 5000000000 0 0 0) [] [])
             "bob" "btc_asset_id_placeholder" 100000000
             "usdt_asset_id_placeholder" 1000000000 db' position "carol" None).
    + exact simulated_prices_non_negative.
    + constructor; [|constructor].
      repeat split; apply Z.leb_le; reflexivity.
    + exact E.
  - vm_compute in E. discriminate E.
Defined.

Lemma debt_by_id_put_other ps p' other :
  other <> DebtPosition.id p' ->
  Db.debt_by_id (Db.put_debt p' ps) other = Db.debt_by_id ps other.
Proof.
  intros Hne. unfold Db.debt_by_id.
  induction ps as [|x ps IH]; [reflexivity|].
  cbn [Db.put_debt].
  destruct (Z.eqb_spec (DebtPosition.id x) (DebtPosition.id p')) as [E|E]; cbn [find].
  - destruct (Z.eqb_spec (DebtPosition.id p') other); [congruence|].
    destruct (Z.eqb_spec (DebtPosition.id x) other); [congruence | reflexivity].
  - destruct (DebtPosition.id x =? other); [reflexivity | exact IH].
Qed.

Lemma debt_by_id_delete_other ps pid other :
  other <> pid ->
  Db.debt_by_id (Db.delete_debt pid ps) other = Db.debt_by_id ps other.
Proof.
  intros Hne. unfold Db.debt_by_id, Db.delete_debt.
  induction ps as [|x ps IH]; [reflexivity|].
  cbn [filter find].
  destruct (Z.eqb_spec (DebtPosition.id x) pid) as [E|E]; cbn [negb find].
  - destruct (Z.eqb_spec (DebtPosition.id x) other); [congruence | exact IH].
  - destruct (DebtPosition.id x =? other); [reflexivity | exact IH].
Qed.

Lemma effective_repay_bounds (requested : option Z) (current_debt : Z) :
  0 < current_debt ->
  0 < DebtService.effective_repay requested current_debt <= current_debt.
Proof.
  intros Hd. unfold DebtService.effective_repay.
  destruct requested as [r|]; [|lia].
  destruct (Z.leb_spec r 0); cbn [orb]; [lia|].
  destruct (Z.gtb_spec r current_debt); lia.
Qed.

Lemma LIQUIDATION_BONUS_pos : 0 <= DebtService.LIQUIDATION_BONUS.
Proof. apply Z.leb_le. reflexivity. Qed.

(** X21: What a liquidation that completes can do: it repays a positive
    amount that is at most the current debt, seizes collateral between
    0 and what the position holds, leaves the position with a
    non-negative collateral and a positive debt or removes it, and
    changes no other debt position. *)
Theorem liquidation_bounds (oracle : OracleService.t) (now : Z) (db : Db.t)
    (liquidator_address : string) (position_id : Z) (repay_amount : option Z)
    (db' : Db.t) (res : DebtService.LiquidationResult) (position : DebtPosition.t) :
  Db.debt_by_id (Db.debt_positions db) position_id = Some position ->
  0 <= DebtPosition.collateral_amount position ->
  DebtService.liquidate oracle now db liquidator_address position_id repay_amount
  = Ok (db', res) ->
  exists reserve current_debt,
    DebtService._get_reserve_state (Db.reserve_states db)
      (DebtPosition.borrowed_asset_id position) = Some reserve
    /\ DebtPosition.calculate_current_debt position
         (ReserveState.variable_borrow_index reserve) = Ok current_debt
    /\ 0 < DebtService.repaid_amount res <= current_debt
    /\ 0 <= DebtService.collateral_seized res
         <= DebtPosition.collateral_amount position
    /\ match Db.debt_by_id (Db.debt_positions db') position_id with
       | Some position' =>
           DebtPosition.principal position'
           = current_debt - DebtService.repaid_amount res
           /\ 0 < DebtPosition.principal position'
           /\ DebtPosition.collateral_amount position'
              = DebtPosition.collateral_amount position
                - DebtService.collateral_seized res
       | None => DebtService.repaid_amount res = current_debt
       end
    /\ (forall other, other <> position_id ->
          Db.debt_by_id (Db.debt_positions db') other
          = Db.debt_by_id (Db.debt_positions db) other).
Proof.
  intros Hp Hcoll Hliq.
  destruct (liquidate_inv _ _ _ _ _ _ _ _ Hliq)
    as (p & u & r & d & hf & Hp' & Hu & Hr & _ & Hd & Hd0 & Hhf & Hlt & Hres).
  rewrite Hp in Hp'. injection Hp' as <-.
  cbv zeta in Hres. destruct Hres as (Hrepaid & Hseized & Hdebts & _).
  pose proof (effective_repay_bounds repay_amount d Hd0) as Hrep.
  pose proof (debt_by_id_key _ _ _ Hp) as Hid.
  set (repay := DebtService.effective_repay repay_amount d) in *.
  set (base := DebtPosition.collateral_amount position * repay / d) in *.
  set (bonus := base * DebtService.LIQUIDATION_BONUS / RAY) in *.
  assert (Hbase : 0 <= base) by (apply Z.div_pos; nia).
  assert (Hbonus : 0 <= bonus).
  { pose proof LIQUIDATION_BONUS_pos. pose proof RAY_pos.
    apply Z.div_pos; nia. }
  exists r, d. split; [exact Hr|]. split; [exact Hd|].
  rewrite Hrepaid, Hseized, Hdebts, !Hid.
  split; [exact Hrep|].
  destruct (Z.leb_spec (d - repay) 0) as [Hfull|Hpart].
  - split; [lia|]. split.
    + rewrite debt_by_id_delete. lia.
    + intros other Hne. apply debt_by_id_delete_other. exact Hne.
  - split; [lia|]. split.
    + erewrite debt_by_id_put; [|exact Hp | reflexivity].
      cbn [DebtPosition.principal DebtPosition.collateral_amount].
      repeat split; lia.
    + intros other Hne. apply debt_by_id_put_other.
      cbn [DebtPosition.id]. lia.
Qed.

Lemma liquidation_bounds_witness :
  returns
    (DebtService.liquidate underwater 1000 liquidation_db "carol" 1 (Some 400000))
    (fun '(_, res) =>
       0 <= DebtService.collateral_seized res
         <= DebtPosition.collateral_amount unhealthy_position).
Proof.
  destruct (DebtService.liquidate underwater 1000 liquidation_db "carol" 1
              (Some 400000)) as [[db' res]|e] eqn:E.
  - cbn [returns].
    destruct (liquidation_bounds underwater 1000 liquidation_db "carol" 1
                (Some 400000) db' res unhealthy_position)
      as (r & d & _ & _ & _ & H & _).
    + reflexivity.
    + apply Z.leb_le. reflexivity.
    + exact E.
    + exact H.
  - vm_compute in E. discriminate E.
Defined.

(** ** Amounts too small to have a value *)

Lemma worthless_value oracle amount asset_id :
  worthless oracle amount asset_id ->
  OracleService.get_asset_value oracle amount asset_id = Some 0.
Proof.
  intros (pf & Hpf & Hage & Hsmall). pose proof RAY_pos as HR.
  unfold OracleService.get_asset_value, OracleService.is_stale.
  rewrite Hpf. destruct (Z.gtb_spec (OracleService.age pf) 300); [lia|].
  unfold OracleService.calculate_value. rewrite ray_mul_eq.
  f_equal. apply Z.div_small. split.
  - apply Z.div_pos; lia.
  - apply Z.div_lt_upper_bound; lia.
Qed.

(** X22: An amount whose value rounds to 0 is treated like an asset without
    a price: although the feed has a fresh price, [borrow] refuses such
    a collateral with "cannot get collateral price" and, when the
    collateral has a value, such a loan with "cannot get borrow price". *)
Theorem borrow_rejects_dust
    (oracle : OracleService.t) (now : Z) (db : Db.t)
    (user_address collateral_asset_id : string) (collateral_amount : Z)
    (borrow_asset_id : string) (borrow_amount : Z) :
  0 < collateral_amount -> 0 < borrow_amount ->
  (worthless oracle collateral_amount collateral_asset_id ->
   DebtService.borrow oracle now db user_address collateral_asset_id
     collateral_amount borrow_asset_id borrow_amount
   = Raise (ValueError CannotGetCollateralPrice))
  /\ (truthy (OracleService.get_asset_value oracle collateral_amount
                collateral_asset_id) = true ->
      worthless oracle borrow_amount borrow_asset_id ->
      DebtService.borrow oracle now db user_address collateral_asset_id
        collateral_amount borrow_asset_id borrow_amount
      = Raise (ValueError CannotGetBorrowPrice)).
Proof.
  intros Hc Hb. unfold DebtService.borrow.
  destruct (Z.leb_spec collateral_amount 0); [lia|].
  destruct (Z.leb_spec borrow_amount 0); [lia|].
  cbn [raise_if]. rewrite !bind_Ok.
  destruct (Db.get_or_create_user (Db.users db) user_address) as [users1 user].
  split.
  - intros Hw. rewrite (worthless_value _ _ _ Hw). reflexivity.
  - intros Htruthy Hw. rewrite Htruthy. cbn [negb raise_if]. rewrite bind_Ok.
    rewrite (worthless_value _ _ _ Hw). reflexivity.
Qed.

Lemma borrow_rejects_dust_witness :
  DebtService.borrow OracleService.simulated 1000
    (example_db (example_reserve 5000000000 0 0 0) [] [])
    "bob" "btc_asset_id_placeholder" 100000000
    "usdt_asset_id_placeholder" 99999999
  = Raise (ValueError CannotGetBorrowPrice).
Proof.
  apply (borrow_rejects_dust OracleService.simulated 1000
           (example_db (example_reserve 5000000000 0 0 0) [] [])
           "bob" "btc_asset_id_placeholder" 100000000
           "usdt_asset_id_placeholder" 99999999).
  - lia.
  - lia.
  - vm_compute. reflexivity.
  - exists (OracleService.mkPriceFeed (1 * RAY) 0).
    split; [reflexivity|]. split; [cbn [OracleService.age]; lia|].
    cbn [OracleService.price].
    split; [apply Z.leb_le | apply Z.ltb_lt]; vm_compute; reflexivity.
Defined.

(** ** Reading a reserve with accrued interest *)

Lemma accrued_view (reserves : list ReserveState.t) (asset_id : string) (now : Z)
    (reserve : ReserveState.t) :
  Db.reserve_by_asset reserves asset_id = Some reserve ->
  0 < now - ReserveState.last_update_timestamp reserve ->
  let time_delta := now - ReserveState.last_update_timestamp reserve in
  let reserve' :=
    ReserveState.set_indices
      (accrue_index (ReserveState.liquidity_index reserve)
         (ReserveState.current_liquidity_rate reserve) time_delta)
      (accrue_index (ReserveState.variable_borrow_index reserve)
         (ReserveState.current_variable_borrow_rate reserve) time_delta)
      (ReserveState.last_update_timestamp reserve) reserve in
  ReserveService_rest.get_reserve_state_with_accrued_interest reserves asset_id now
  = (Db.put_reserve reserve' reserves, Some reserve')
  /\ Db.reserve_by_asset (Db.put_reserve reserve' reserves) asset_id = Some reserve'.
Proof.
  intros Hr Hdt time_delta reserve'. split.
  - unfold ReserveService_rest.get_reserve_state_with_accrued_interest.
    rewrite Hr. fold time_delta.
    destruct (Z.gtb_spec time_delta 0); [|lia].
    unfold InterestCalculator.accrue_indices. fold time_delta.
    destruct (Z.leb_spec time_delta 0); [lia|]. reflexivity.
  - apply (reserve_by_asset_put _ _ reserve); [exact Hr | reflexivity].
Qed.

Lemma accrue_index_strict (index rate time_delta : Z) :
  0 <= index -> 0 < time_delta ->
  HALF_RAY <= index * (rate * time_delta) ->
  index < accrue_index index rate time_delta
  /\ HALF_RAY <= accrue_index index rate time_delta * (rate * time_delta).
Proof.
  intros Hi Ht Hint. pose proof RAY_pos as HR.
  pose proof HALF_RAY_bounds as HH.
  assert (HRH : RAY = 2 * HALF_RAY) by reflexivity.
  unfold accrue_index. destruct (Z.eqb_spec time_delta 0); [lia|].
  rewrite ray_mul_add_RAY. rewrite ray_mul_eq.
  assert (H1 : 1 <= (index * (rate * time_delta) + HALF_RAY) / RAY).
  { apply Z.div_le_lower_bound; lia. }
  split; [lia|].
  assert (0 < rate * time_delta) by nia.
  nia.
Qed.

(** X23: The view of a reserve "with accrued interest" shows the indices
    [update_indices] would produce, but it writes them into the
    reserve the session holds and leaves the timestamp where it was.
    A second look within the same request, at the same time, therefore
    accrues the same period once more: as soon as the interest of the
    period rounds to at least one unit, the liquidity index shown the
    second time is strictly larger than the one shown the first time. *)
Theorem accrued_view_compounds (reserves : list ReserveState.t) (asset_id : string)
    (now : Z) (reserve : ReserveState.t) :
  Db.reserve_by_asset reserves asset_id = Some reserve ->
  0 < now - ReserveState.last_update_timestamp reserve ->
  let first :=
    ReserveService_rest.get_reserve_state_with_accrued_interest
      reserves asset_id now in
  let second :=
    ReserveService_rest.get_reserve_state_with_accrued_interest
      (fst first) asset_id now in
  exists reserve1 reserve2,
    snd first = Some reserve1 /\ snd second = Some reserve2
    /\ ReserveState.liquidity_index reserve1
       = ReserveState.liquidity_index (ReserveService.update_indices reserve now)
    /\ ReserveState.variable_borrow_index reserve1
       = ReserveState.variable_borrow_index (ReserveService.update_indices reserve now)
    /\ ReserveState.last_update_timestamp reserve1
       = ReserveState.last_update_timestamp reserve
    /\ Db.reserve_by_asset (fst first) asset_id = Some reserve1
    /\ ReserveState.liquidity_index reserve2
       = accrue_index (ReserveState.liquidity_index reserve1)
           (ReserveState.current_liquidity_rate reserve)
           (now - ReserveState.last_update_timestamp reserve)
    /\ (0 <= ReserveState.liquidity_index reserve ->
        HALF_RAY <= ReserveState.liquidity_index reserve
                    * (ReserveState.current_liquidity_rate reserve
                       * (now - ReserveState.last_update_timestamp reserve)) ->
        ReserveState.liquidity_index reserve
        < ReserveState.liquidity_index reserve1
        < ReserveState.liquidity_index reserve2).
Proof.
  intros Hr Hdt first second. subst first second.
  destruct (accrued_view reserves asset_id now reserve Hr Hdt) as [H1 Hr1].
  cbv zeta in H1, Hr1. rewrite H1. cbn [fst snd].
  match type of Hr1 with
  | Db.reserve_by_asset (Db.put_reserve ?r _) _ = _ => set (reserve1 := r) in *
  end.
  destruct (accrued_view _ asset_id now reserve1 Hr1 Hdt) as [H2 _].
  cbv zeta in H2. rewrite H2. cbn [fst snd].
  eexists _, _. split; [reflexivity|]. split; [reflexivity|].
  assert (Hupd : ReserveService.update_indices reserve now
                 = ReserveState.set_indices
                     (ReserveState.liquidity_index reserve1)
                     (ReserveState.variable_borrow_index reserve1) now reserve).
  { unfold ReserveService.update_indices, InterestCalculator.accrue_indices.
    destruct (Z.leb_spec (now - ReserveState.last_update_timestamp reserve) 0);
      [lia | reflexivity]. }
  rewrite Hupd.
  split; [reflexivity|]. split; [reflexivity|]. split; [reflexivity|].
  split; [exact Hr1|]. split; [reflexivity|].
  intros Hi Hint.
  cbn [reserve1 ReserveState.set_indices ReserveState.liquidity_index
       ReserveState.current_liquidity_rate ReserveState.last_update_timestamp].
  destruct (accrue_index_strict _ _ _ Hi Hdt Hint) as [Hlt1 Hint1].
  assert (Hi1 : 0 <= accrue_index (ReserveState.liquidity_index reserve)
                       (ReserveState.current_liquidity_rate reserve)
                       (now - ReserveState.last_update_timestamp reserve)) by lia.
  destruct (accrue_index_strict _ _ _ Hi1 Hdt Hint1) as [Hlt2 _].
  split; assumption.
Qed.

Lemma accrued_view_compounds_witness :
  let reserves := [example_reserve 5000 1000 1 1] in
  exists reserve1 reserve2,
    snd (ReserveService_rest.get_reserve_state_with_accrued_interest
           reserves "usdt_asset_id_placeholder" 1001) = Some reserve1
    /\ snd (ReserveService_rest.get_reserve_state_with_accrued_interest
              (fst (ReserveService_rest.get_reserve_state_with_accrued_interest
                      reserves "usdt_asset_id_placeholder" 1001))
              "usdt_asset_id_placeholder" 1001) = Some reserve2
    /\ ReserveState.liquidity_index reserve1 < ReserveState.liquidity_index reserve2.
Proof.
  intros reserves.
  destruct (accrued_view_compounds reserves "usdt_asset_id_placeholder" 1001
              (example_reserve 5000 1000 1 1))
    as (r1 & r2 & H1 & H2 & _ & _ & _ & _ & _ & Hlt).
  - reflexivity.
  - apply Z.ltb_lt. reflexivity.
  - exists r1, r2. split; [exact H1|]. split; [exact H2|].
    apply Hlt; apply Z.leb_le; reflexivity.
Defined.

(** ** The positions route *)

Lemma responses_step (now : Z) (position : SupplyPosition.t)
    (rest : list SupplyPosition.t) (reserves : list ReserveState.t)
    (acc : list positions_route.PositionResponse) (reserve : ReserveState.t) :
  Db.reserve_by_asset reserves (SupplyPosition.asset_id position) = Some reserve ->
  0 < now - ReserveState.last_update_timestamp reserve ->
  0 < SupplyPosition.liquidity_index_at_supply position ->
  let current_index :=
    accrue_index (ReserveState.liquidity_index reserve)
      (ReserveState.current_liquidity_rate reserve)
      (now - ReserveState.last_update_timestamp reserve) in
  exists reserves' reserve' underlying_amount,
    positions_route.responses now (position :: rest) reserves acc
    = positions_route.responses now rest reserves'
        (acc ++ [positions_route.mkPositionResponse
                   (SupplyPosition.id position)
                   (SupplyPosition.asset_id position)
                   (SupplyPosition.atoken_amount position)
                   underlying_amount
                   (underlying_amount - SupplyPosition.atoken_amount position)
                   (SupplyPosition.liquidity_index_at_supply position)
                   current_index])
    /\ SupplyPosition.calculate_underlying_amount position current_index
       = Ok underlying_amount
    /\ Db.reserve_by_asset reserves' (SupplyPosition.asset_id position)
       = Some reserve'
    /\ ReserveState.liquidity_index reserve' = current_index
    /\ ReserveState.current_liquidity_rate reserve'
       = ReserveState.current_liquidity_rate reserve
    /\ ReserveState.last_update_timestamp reserve'
       = ReserveState.last_update_timestamp reserve.
Proof.
  intros Hr Hdt Hidx current_index.
  destruct (accrued_view reserves _ now reserve Hr Hdt) as [Hview Hr'].
  cbv zeta in Hview, Hr'.
  cbn [positions_route.responses]. rewrite Hview.
  cbn [ReserveState.set_indices ReserveState.liquidity_index].
  fold current_index.
  assert (Hu : exists u,
            SupplyPosition.calculate_underlying_amount position current_index = Ok u).
  { unfold SupplyPosition.calculate_underlying_amount.
    rewrite ray_div_scaled_quotient by exact Hidx. rewrite bind_Ok. eauto. }
  destruct Hu as [u Hu]. rewrite Hu, bind_Ok.
  assert (Hown : SupplyPosition.calculate_underlying_amount position
                   (SupplyPosition.liquidity_index_at_supply position)
                 = Ok (SupplyPosition.atoken_amount position)).
  { unfold SupplyPosition.calculate_underlying_amount.
    rewrite ray_div_scaled_quotient by exact Hidx. rewrite bind_Ok.
    rewrite ray_mul_scaled, scaled_quotient_same by exact Hidx.
    rewrite Z.div_mul; [reflexivity|]. pose proof RAY_pos. lia. }
  rewrite Hown, bind_Ok.
  eexists _, _, u. split; [reflexivity|]. split; [reflexivity|].
  split; [exact Hr'|]. repeat split.
Qed.

(** X24: A user with two positions in one asset is shown two different
    liquidity indices in one answer: the route accrues the same
    period again for the second position.  The first position is
    valued at the index [update_indices] would give, the second at an
    index accrued twice, and the interest reported for each is its
    value minus its shares. *)
Theorem positions_route_accrues_per_position (db : Db.t) (now : Z)
    (user_address : string) (user : User.t) (p1 p2 : SupplyPosition.t)
    (reserve : ReserveState.t) :
  Db.user_by_address (Db.users db) user_address = Some user ->
  filter (fun p => SupplyPosition.user_id p =? User.id user) (Db.supply_positions db)
  = [p1; p2] ->
  SupplyPosition.asset_id p2 = SupplyPosition.asset_id p1 ->
  Db.reserve_by_asset (Db.reserve_states db) (SupplyPosition.asset_id p1)
  = Some reserve ->
  0 < now - ReserveState.last_update_timestamp reserve ->
  0 < SupplyPosition.liquidity_index_at_supply p1 ->
  0 < SupplyPosition.liquidity_index_at_supply p2 ->
  0 <= ReserveState.liquidity_index reserve ->
  HALF_RAY <= ReserveState.liquidity_index reserve
              * (ReserveState.current_liquidity_rate reserve
                 * (now - ReserveState.last_update_timestamp reserve)) ->
  exists r1 r2,
    positions_route.get_user_positions db now user_address = Ok [r1; r2]
    /\ positions_route.current_liquidity_index r1
       = ReserveState.liquidity_index (ReserveService.update_indices reserve now)
    /\ positions_route.current_liquidity_index r1
       < positions_route.current_liquidity_index r2
    /\ positions_route.accrued_interest r1
       = positions_route.underlying_amount r1 - SupplyPosition.atoken_amount p1
    /\ positions_route.accrued_interest r2
       = positions_route.underlying_amount r2 - SupplyPosition.atoken_amount p2.
Proof.
  intros Hu Hps Hasset Hr Hdt Hi1 Hi2 Hli Hint.
  unfold positions_route.get_user_positions. rewrite Hu, Hps.
  destruct (responses_step now p1 [p2] _ [] reserve Hr Hdt Hi1)
    as (rs1 & reserve1 & u1 & -> & _ & Hr1 & Hli1 & Hlr1 & Hts1).
  rewrite <- Hasset in Hr1.
  assert (Hdt1 : 0 < now - ReserveState.last_update_timestamp reserve1)
    by (rewrite Hts1; exact Hdt).
  match goal with
  | |- context [positions_route.responses now [p2] rs1 ?acc] =>
      destruct (responses_step now p2 [] rs1 acc reserve1 Hr1 Hdt1 Hi2)
        as (rs2 & reserve2 & u2 & -> & _ & _)
  end.
  cbn [positions_route.responses app].
  eexists _, _. split; [reflexivity|].
  cbn [positions_route.current_liquidity_index positions_route.accrued_interest
       positions_route.underlying_amount].
  rewrite Hli1, Hlr1, Hts1 in *.
  split.
  { unfold ReserveService.update_indices, InterestCalculator.accrue_indices.
    destruct (Z.leb_spec (now - ReserveState.last_update_timestamp reserve) 0);
      [lia | reflexivity]. }
  split; [|split; reflexivity].
  destruct (accrue_index_strict _ _ _ Hli Hdt Hint) as [Hlt1 Hint1].
  assert (Hi : 0 <= accrue_index (ReserveState.liquidity_index reserve)
                      (ReserveState.current_liquidity_rate reserve)
                      (now - ReserveState.last_update_timestamp reserve)) by lia.
  destruct (accrue_index_strict _ _ _ Hi Hdt Hint1) as [Hlt2 _].
  exact Hlt2.
Qed.

Lemma positions_route_accrues_per_position_witness :
  let db :=
    example_db (example_reserve 5000 1000 1 1)
      [SupplyPosition.mk 1 1 "usdt_asset_id_placeholder" 1000 RAY;
       SupplyPosition.mk 2 1 "usdt_asset_id_placeholder" 2000 RAY] [] in
  exists r1 r2,
    positions_route.get_user_positions db 1001 "alice" = Ok [r1; r2]
    /\ positions_route.current_liquidity_index r1
       < positions_route.current_liquidity_index r2.
Proof.
  intros db.
  destruct (positions_route_accrues_per_position db 1001 "alice"
              (User.mk 1 "alice" None)
              (SupplyPosition.mk 1 1 "usdt_asset_id_placeholder" 1000 RAY)
              (SupplyPosition.mk 2 1 "usdt_asset_id_placeholder" 2000 RAY)
              (example_reserve 5000 1000 1 1))
    as (r1 & r2 & H & _ & Hlt & _).
  - reflexivity.
  - reflexivity.
  - reflexivity.
  - reflexivity.
  - apply Z.ltb_lt. reflexivity.
  - reflexivity.
  - reflexivity.
  - apply Z.leb_le. reflexivity.
  - apply Z.leb_le. reflexivity.
  - exists r1, r2. split; [exact H | exact Hlt].
Defined.

(** ** Reserves stay in good order *)

Lemma reserve_by_asset_put_other rs r' k :
  k <> ReserveState.asset_id r' ->
  Db.reserve_by_asset (Db.put_reserve r' rs) k = Db.reserve_by_asset rs k.
Proof.
  intros Hne. unfold Db.reserve_by_asset.
  induction rs as [|x rs IH]; [reflexivity|].
  cbn [Db.put_reserve].
  destruct (String.eqb_spec (ReserveState.asset_id x) (ReserveState.asset_id r'))
    as [E|E]; cbn [find].
  - destruct (String.eqb_spec (ReserveState.asset_id r') k); [congruence|].
    destruct (String.eqb_spec (ReserveState.asset_id x) k); [congruence | reflexivity].
  - destruct (String.eqb (ReserveState.asset_id x) k); [reflexivity | exact IH].
Qed.

Lemma supply_reserve db now user_address asset_id amount db' position :
  ReserveService.supply db now user_address asset_id amount = Ok (db', position) ->
  exists reserve reserve',
    Db.reserve_by_asset (Db.reserve_states db) asset_id = Some reserve
    /\ ReserveService._update_current_rates
         (ReserveState.set_total_liquidity
            (ReserveState.total_liquidity
               (ReserveService.update_indices reserve now) + amount)
            (ReserveService.update_indices reserve now)) = Ok reserve'
    /\ Db.reserve_states db' = Db.put_reserve reserve' (Db.reserve_states db).
Proof.
  intros H. unfold ReserveService.supply in H.
  bind_step H u0 Hamt.
  destruct (Db.get_or_create_user (Db.users db) user_address) as [users1 user].
  bind_step H reserve Hr. apply or_raise_inv in Hr.
  bind_step H atoken Ha.
  bind_step H reserve' Hrates.
  injection H as <- _.
  exists reserve, reserve'. split; [exact Hr|]. split; [exact Hrates | reflexivity].
Qed.

Lemma withdraw_reserve db now user_address asset_id amount db' out :
  ReserveService.withdraw db now user_address asset_id amount = Ok (db', out) ->
  exists reserve reserve' withdrawn,
    Db.reserve_by_asset (Db.reserve_states db) asset_id = Some reserve
    /\ ReserveService._update_current_rates
         (ReserveState.set_total_liquidity
            (ReserveState.total_liquidity
               (ReserveService.update_indices reserve now) - withdrawn)
            (ReserveService.update_indices reserve now)) = Ok reserve'
    /\ Db.reserve_states db' = Db.put_reserve reserve' (Db.reserve_states db).
Proof.
  intros H. unfold ReserveService.withdraw in H.
  bind_step H u0 Hneg.
  bind_step H user Hu.
  bind_step H reserve Hr. apply or_raise_inv in Hr.
  bind_step H u1 Hnonempty.
  bind_step H totals Hsum. destruct totals as [total_underlying total_atokens].
  bind_step H u2 Hbal.
  bind_step H u3 Hins.
  bind_step H u4 Hliq.
  bind_step H burn Hburn.
  bind_step H u5 Hzero.
  destruct (ReserveService.burn_atokens _ burn) as [burned remaining].
  bind_step H u6 Hrem.
  bind_step H reserve' Hrates.
  injection H as <- _.
  exists reserve, reserve', (if amount =? 0 then total_underlying else amount).
  split; [exact Hr|]. split; [exact Hrates | reflexivity].
Qed.

Lemma update_current_rates_good (r r0 : ReserveState.t) (now v : Z) :
  in_good_order r0 ->
  ReserveService._update_current_rates
    (ReserveState.set_total_liquidity v (ReserveService.update_indices r0 now))
  = Ok r ->
  in_good_order r
  /\ ReserveState.asset_id r = ReserveState.asset_id r0
  /\ ReserveState.liquidity_index r0 <= ReserveState.liquidity_index r
  /\ ReserveState.variable_borrow_index r0 <= ReserveState.variable_borrow_index r.
Proof.
  intros (Hacc & Htb & Hrf) H.
  destruct (update_indices_mono r0 now Hacc) as (Hli & Hbi & Hacc').
  destruct (update_indices_frame r0 now) as (Hid & _ & Hb).
  assert (Hrf' : ReserveState.reserve_factor (ReserveService.update_indices r0 now)
                 = ReserveState.reserve_factor r0).
  { unfold ReserveService.update_indices.
    destruct (InterestCalculator.accrue_indices _ _ _ _ _ _). reflexivity. }
  set (u := ReserveService.update_indices r0 now) in *.
  unfold ReserveService._update_current_rates in H.
  cbn [ReserveState.set_total_liquidity ReserveState.total_liquidity
       ReserveState.total_borrowed ReserveState.reserve_factor] in H.
  rewrite Hb, Hrf' in H.
  destruct (calculate_rates_range v (ReserveState.total_borrowed r0)
              (ReserveState.reserve_factor r0) Htb Hrf)
    as (lr & br & Hrates & Hlr & Hbr & _).
  rewrite Hrates, bind_Ok in H. injection H as <-.
  destruct Hacc' as (H1 & H2 & _ & _).
  unfold in_good_order, accruing.
  cbn [ReserveState.set_rates ReserveState.set_total_liquidity
       ReserveState.liquidity_index ReserveState.variable_borrow_index
       ReserveState.current_liquidity_rate ReserveState.current_variable_borrow_rate
       ReserveState.total_borrowed ReserveState.reserve_factor ReserveState.asset_id].
  rewrite Hb, Hrf'. repeat split; try assumption; lia.
Qed.

Lemma perform_reserve db op db' :
  perform db op = Ok db' ->
  exists k r r',
    Db.reserve_by_asset (Db.reserve_states db) k = Some r
    /\ Db.reserve_states db' = Db.put_reserve r' (Db.reserve_states db)
    /\ ReserveState.asset_id r' = ReserveState.asset_id r
    /\ (in_good_order r ->
        in_good_order r'
        /\ ReserveState.liquidity_index r <= ReserveState.liquidity_index r'
        /\ ReserveState.variable_borrow_index r
           <= ReserveState.variable_borrow_index r').
Proof.
  intros H. destruct op; cbn [perform] in H;
    bind_step H out Hop; destruct out as [db1 x]; injection H as <-.
  - destruct (supply_reserve _ _ _ _ _ _ _ Hop) as (r & r' & Hr & Hrates & Hrs).
    exists asset_id, r, r'. split; [exact Hr|]. split; [exact Hrs|].
    split.
    + destruct (update_current_rates_ok
                  (ReserveState.set_total_liquidity
                     (ReserveState.total_liquidity
                        (ReserveService.update_indices r now) + amount)
                     (ReserveService.update_indices r now))) as (lr & br & Hok).
      rewrite Hok in Hrates. injection Hrates as <-.
      destruct (update_indices_frame r now) as (Hid & _). exact Hid.
    + intros Hgood.
      destruct (update_current_rates_good _ _ _ _ Hgood Hrates) as (? & ? & ? & ?).
      split; [assumption | split; assumption].
  - destruct (withdraw_reserve _ _ _ _ _ _ _ Hop) as (r & r' & w & Hr & Hrates & Hrs).
    exists asset_id, r, r'. split; [exact Hr|]. split; [exact Hrs|].
    split.
    + destruct (update_current_rates_ok
                  (ReserveState.set_total_liquidity
                     (ReserveState.total_liquidity
                        (ReserveService.update_indices r now) - w)
                     (ReserveService.update_indices r now))) as (lr & br & Hok).
      rewrite Hok in Hrates. injection Hrates as <-.
      destruct (update_indices_frame r now) as (Hid & _). exact Hid.
    + intros Hgood.
      destruct (update_current_rates_good _ _ _ _ Hgood Hrates) as (? & ? & ? & ?).
      split; [assumption | split; assumption].
  - destruct (borrow_inv_full _ _ _ _ _ _ _ _ _ _ Hop)
      as (u & r & cv & bv & _ & Hb & _ & _ & _ & _ & _ & Hr & _ & _ & _ & Hrs & _).
    exists borrow_asset_id, r. eexists.
    split; [exact Hr|]. split; [exact Hrs|]. split; [reflexivity|].
    intros (Hacc & Htb & Hrf).
    unfold in_good_order, accruing in *.
    cbn [ReserveState.set_total_liquidity ReserveState.set_total_borrowed
         ReserveState.liquidity_index ReserveState.variable_borrow_index
         ReserveState.current_liquidity_rate
         ReserveState.current_variable_borrow_rate
         ReserveState.total_borrowed ReserveState.reserve_factor].
    repeat split; try tauto; lia.
  - destruct (liquidate_inv _ _ _ _ _ _ _ _ Hop)
      as (p & u & r & d & hf & _ & _ & Hr & _ & _ & _ & _ & _ & Hres).
    cbv zeta in Hres. destruct Hres as (_ & _ & _ & Hrs).
    exists (DebtPosition.borrowed_asset_id p), r. eexists.
    split; [exact Hr|]. split; [exact Hrs|]. split; [reflexivity|].
    intros (Hacc & Htb & Hrf).
    unfold in_good_order, accruing in *.
    cbn [ReserveState.set_total_liquidity ReserveState.set_total_borrowed
         ReserveState.liquidity_index ReserveState.variable_borrow_index
         ReserveState.current_liquidity_rate
         ReserveState.current_variable_borrow_rate
         ReserveState.total_borrowed ReserveState.reserve_factor].
    repeat split; try tauto; lia.
Qed.

(** X25: Whatever sequence of supplies, withdrawals, borrows and
    liquidations completes, reserves in good order stay in good order
    (indices, rates and the amount borrowed never become negative),
    and no liquidity index or borrow index ever decreases. *)
Theorem operations_keep_reserves_in_good_order (ops : list operation) :
  forall db db' : Db.t,
    perform_all db ops = Ok db' ->
    Forall in_good_order (Db.reserve_states db) ->
    Forall in_good_order (Db.reserve_states db')
    /\ forall asset_id reserve',
         Db.reserve_by_asset (Db.reserve_states db') asset_id = Some reserve' ->
         exists reserve,
           Db.reserve_by_asset (Db.reserve_states db) asset_id = Some reserve
           /\ ReserveState.liquidity_index reserve
              <= ReserveState.liquidity_index reserve'
           /\ ReserveState.variable_borrow_index reserve
              <= ReserveState.variable_borrow_index reserve'.
Proof.
  induction ops as [|op ops IH]; intros db db' H Hgood.
  - injection H as <-. split; [exact Hgood|].
    intros a r' Hr'. exists r'. split; [exact Hr'|]. lia.
  - cbn [perform_all] in H. bind_step H db1 Hop.
    destruct (perform_reserve _ _ _ Hop) as (k & r & r1 & Hr & Hrs & Hid & Hstep).
    assert (Hr_good : in_good_order r).
    { rewrite Forall_forall in Hgood. apply Hgood.
      exact (reserve_by_asset_In _ _ _ Hr). }
    destruct (Hstep Hr_good) as (Hr1_good & Hli & Hbi).
    assert (Hgood1 : Forall in_good_order (Db.reserve_states db1)).
    { rewrite Hrs. apply put_reserve_Forall; assumption. }
    destruct (IH db1 db' H Hgood1) as (Hgood' & Hmono).
    split; [exact Hgood'|].
    intros a r' Hr'. destruct (Hmono a r' Hr') as (r0 & Hr0 & Hli0 & Hbi0).
    pose proof (reserve_by_asset_key _ _ _ Hr) as Hk.
    destruct (string_dec a k) as [->|Hne].
    + rewrite Hrs in Hr0.
      rewrite (reserve_by_asset_put _ _ r r1 Hr Hid) in Hr0.
      injection Hr0 as <-. exists r. split; [exact Hr|]. lia.
    + rewrite Hrs in Hr0.
      rewrite reserve_by_asset_put_other in Hr0 by congruence.
      exists r0. split; [exact Hr0|]. lia.
Qed.

Lemma operations_keep_reserves_in_good_order_witness :
  returns
    (perform_all liquidation_db
       [Supply 1000 "alice" "usdt_asset_id_placeholder" 700;
        Liquidate underwater 1000 "carol" 1 (Some 400000);
        Withdraw 1000 "alice" "usdt_asset_id_placeholder" 100])
    (fun db' => Forall in_good_order (Db.reserve_states db')).
Proof.
  destruct (perform_all liquidation_db
              [Supply 1000 "alice" "usdt_asset_id_placeholder" 700;
               Liquidate underwater 1000 "carol" 1 (Some 400000);
               Withdraw 1000 "alice" "usdt_asset_id_placeholder" 100])
    as [db'|e] eqn:E; [|vm_compute in E; discriminate E].
  unfold returns.
  apply (operations_keep_reserves_in_good_order _ _ _ E).
  repeat constructor; apply Z.leb_le; reflexivity.
Defined.

(** ** The value of a new supply position *)

Lemma supply_position db now user_address asset_id amount db' position :
  ReserveService.supply db now user_address asset_id amount = Ok (db', position) ->
  0 < amount
  /\ InterestCalculator.calculate_atoken_amount amount
       (SupplyPosition.liquidity_index_at_supply position)
     = Ok (SupplyPosition.atoken_amount position)
  /\ exists reserve,
       Db.reserve_by_asset (Db.reserve_states db) asset_id = Some reserve
       /\ SupplyPosition.liquidity_index_at_supply position
          = ReserveState.liquidity_index (ReserveService.update_indices reserve now).
Proof.
  intros H. unfold ReserveService.supply in H.
  bind_step H u0 Hamt. apply raise_if_inv in Hamt. apply Z.leb_gt in Hamt.
  destruct (Db.get_or_create_user (Db.users db) user_address) as [users1 user].
  bind_step H reserve Hr. apply or_raise_inv in Hr.
  bind_step H atoken Ha.
  bind_step H reserve' Hrates.
  injection H as _ <-.
  cbn [SupplyPosition.liquidity_index_at_supply SupplyPosition.atoken_amount].
  split; [exact Hamt|]. split; [exact Ha|].
  exists reserve. split; [exact Hr | reflexivity].
Qed.

Lemma Some_eq_inv {A : Type} (x y : A) : Some x = Some y -> x = y.
Proof. intros H. congruence. Qed.

(** X26: Right after a supply, at the very index it was made at, the new
    position is worth its number of shares and not the amount
    supplied: with an index of at least 1 that is never more than the
    amount, and [shares * index <= amount * RAY + RAY / 2], so that at
    an index of 2 only half of what was supplied can be withdrawn. *)
Theorem supplied_position_is_worth_its_shares
    (db : Db.t) (now : Z) (user_address asset_id : string) (amount : Z)
    (db' : Db.t) (position : SupplyPosition.t) :
  ReserveService.supply db now user_address asset_id amount = Ok (db', position) ->
  RAY <= SupplyPosition.liquidity_index_at_supply position <= RAY * RAY ->
  SupplyPosition.calculate_underlying_amount position
    (SupplyPosition.liquidity_index_at_supply position)
  = Ok (SupplyPosition.atoken_amount position)
  /\ 0 <= SupplyPosition.atoken_amount position <= amount
  /\ SupplyPosition.atoken_amount position
     * SupplyPosition.liquidity_index_at_supply position
     <= amount * RAY + HALF_RAY.
Proof.
  intros Hsupply [HL HLmax]. pose proof RAY_pos as HR.
  destruct (supply_position _ _ _ _ _ _ _ Hsupply) as (Hamt & Ha & _).
  set (L := SupplyPosition.liquidity_index_at_supply position) in *.
  set (a := SupplyPosition.atoken_amount position) in *.
  assert (HRH : RAY = 2 * HALF_RAY) by reflexivity.
  split.
  { unfold SupplyPosition.calculate_underlying_amount. fold L a.
    rewrite ray_div_scaled_quotient by lia. rewrite bind_Ok.
    rewrite ray_mul_scaled, scaled_quotient_same by lia.
    rewrite Z.div_mul by lia. reflexivity. }
  unfold InterestCalculator.calculate_atoken_amount in Ha.
  rewrite ray_div_scaled_quotient, bind_Ok in Ha by lia.
  injection Ha as Ha. unfold scaled_quotient in Ha.
  set (q := (amount * RAY * RAY + L / 2) / L) in *.
  assert (Hhalf : 0 <= L / 2 < L).
  { split; [apply Z.div_pos; lia | apply Z.div_lt; lia]. }
  assert (Hq : q * L <= amount * RAY * RAY + L / 2).
  { pose proof (Z.div_mod (amount * RAY * RAY + L / 2) L ltac:(lia)) as Hdm.
    pose proof (Z.mod_pos_bound (amount * RAY * RAY + L / 2) L ltac:(lia)) as Hm.
    fold q in Hdm. lia. }
  assert (Hq0 : 0 <= q) by (apply Z.div_pos; [nia | lia]).
  assert (Haq : a * RAY <= q).
  { pose proof (Z.div_mod q RAY ltac:(lia)) as Hdm.
    pose proof (Z.mod_pos_bound q RAY HR) as Hm.
    rewrite Ha in Hdm. lia. }
  assert (Ha0 : 0 <= a) by (rewrite <- Ha; apply Z.div_pos; lia).
  assert (HL2 : L / 2 <= RAY * HALF_RAY).
  { apply Z.div_le_upper_bound; nia. }
  assert (Hmain : a * L <= amount * RAY + HALF_RAY) by nia.
  split; [|exact Hmain].
  split; [exact Ha0|]. nia.
Qed.

Lemma supplied_position_is_worth_its_shares_witness :
  returns
    (ReserveService.supply
       (example_db (example_reserve_at (2 * RAY) 5000 1000 0 0) [] [])
       1000 "alice" "usdt_asset_id_placeholder" 1000)
    (fun '(_, position) =>
       SupplyPosition.calculate_underlying_amount position
         (SupplyPosition.liquidity_index_at_supply position)
       = Ok (SupplyPosition.atoken_amount position)
       /\ SupplyPosition.atoken_amount position * (2 * RAY) <= 1000 * RAY + HALF_RAY).
Proof.
  destruct (ReserveService.supply
              (example_db (example_reserve_at (2 * RAY) 5000 1000 0 0) [] [])
              1000 "alice" "usdt_asset_id_placeholder" 1000)
    as [[db' position]|e] eqn:E; [|vm_compute in E; discriminate E].
  cbn [returns].
  assert (Hidx : SupplyPosition.liquidity_index_at_supply position = 2 * RAY).
  { destruct (supply_position _ _ _ _ _ _ _ E) as (_ & _ & r & Hr & ->).
    assert (Hr' : Some (example_reserve_at (2 * RAY) 5000 1000 0 0) = Some r)
      by exact Hr.
    apply Some_eq_inv in Hr'. subst r. vm_compute. reflexivity. }
  destruct (supplied_position_is_worth_its_shares _ _ _ _ _ _ _ E)
    as (H1 & _ & H2).
  - rewrite Hidx. split; apply Z.leb_le; vm_compute; reflexivity.
  - rewrite Hidx in H2. split; [exact H1 | exact H2].
Defined.
